(** * GroupLorentzConv2d: the group-equivariant Lorentz convolution layer

    A shallow embedding of
    [HyperbolicCV/code/lib/lorentz_equivariant/layers/LConv.py].

    Tensors are a shape together with contiguous row-major storage, as
    torch keeps them; their entries are real numbers (the exact-arithmetic
    reading of torch's floats, which has no NaN and no rounding), and the
    properties of entries are properties over the reals; Python integers
    are [Z]; Python exceptions are values of [exn] threaded through the
    [result] monad.  The output sizes of [forward], which Python computes
    through a [float], are computed in binary64, and lines 139 and 141 are
    also given in floating point for a single patch. *)

From Stdlib Require Import String.
From Stdlib Require Import List ZArith Reals Lra Lia Bool PeanoNat.
From Stdlib Require Import Permutation.
Import ListNotations.

Local Open Scope nat_scope.

(** ** Exceptions *)

Inductive exn : Set :=
| KeyError
| IndexError
| ValueError
| ZeroDivisionError
| RuntimeError.

Inductive result (A : Type) : Type :=
| Ok (a : A)
| Raise (e : exn).

Arguments Ok {A} a.
Arguments Raise {A} e.

Definition bind {A B : Type} (m : result A) (f : A -> result B) : result B :=
  match m with
  | Ok a => f a
  | Raise e => Raise e
  end.

Notation "x <- m ;; f" := (bind m (fun x => f))
  (at level 61, m at next level, right associativity).

Definition raises {A : Type} (m : result A) : Prop := exists e, m = Raise e.

(** ** Binary floating point

    Python's [float] is IEEE 754 binary64 and torch's default tensor type
    is binary32.  A finite value is a mantissa and an exponent, [(m, e)]
    for m * 2^e.  Every operation takes the exact rational result and
    rounds it once, to nearest with ties to even, to [prec] significant
    bits, or to a multiple of 2^[emin] where the result is smaller than
    that allows (gradual underflow).  Values are finite: a magnitude
    beyond the largest finite value of the format, where IEEE gives an
    infinity and Python's integer division raises OverflowError, is not
    represented, and the only NaN is the square root of a negative
    number, which is [None]. *)

Module ieee754.

Local Open Scope Z_scope.

Record format : Set := mkFormat { prec : Z; emin : Z }.

Definition binary32 : format := mkFormat 24 (-149).
Definition binary64 : format := mkFormat 53 (-1074).

Definition float : Set := (Z * Z)%type.

Definition zero : float := (0, 0).

(** [2^E <= p / q], for [0 < q]. *)
Definition pow2_le_ratio (E p q : Z) : bool :=
  if 0 <=? E then 2 ^ E * q <=? p else q <=? p * 2 ^ (- E).

(** The integer part of the binary logarithm of [p / q], for positive
    [p] and [q]. *)
Definition ilog2_ratio (p q : Z) : Z :=
  let k := Z.log2 p - Z.log2 q in
  if pow2_le_ratio k p q then k else k - 1.

(** The integer nearest to [num / den], ties to even, for [0 < den]. *)
Definition rne (num den : Z) : Z :=
  let f := num / den in
  let r := num mod den in
  if 2 * r <? den then f
  else if den <? 2 * r then f + 1
  else if Z.even f then f else f + 1.

(** [p / q] rounded to the format, for [0 < q]. *)
Definition round_ratio (F : format) (p q : Z) : float :=
  if p =? 0 then zero
  else
    let e := Z.max (ilog2_ratio (Z.abs p) q - (prec F - 1)) (emin F) in
    (if 0 <=? e then rne p (q * 2 ^ e) else rne (p * 2 ^ (- e)) q, e).

(** A value as a fraction with a positive denominator. *)
Definition frac (x : float) : Z * Z :=
  let (m, e) := x in
  if 0 <=? e then (m * 2 ^ e, 1) else (m, 2 ^ (- e)).

Definition of_int (F : format) (i : Z) : float := round_ratio F i 1.

(** Python's [a / b] on two [int]s with [b] not zero: the quotient,
    correctly rounded. *)
Definition int_truediv (F : format) (a b : Z) : float :=
  if 0 <? b then round_ratio F a b else round_ratio F (- a) (- b).

Definition add (F : format) (x y : float) : float :=
  let (n1, d1) := frac x in
  let (n2, d2) := frac y in
  round_ratio F (n1 * d2 + n2 * d1) (d1 * d2).

Definition sub (F : format) (x y : float) : float :=
  let (n1, d1) := frac x in
  let (n2, d2) := frac y in
  round_ratio F (n1 * d2 - n2 * d1) (d1 * d2).

Definition mul (F : format) (x y : float) : float :=
  let (n1, d1) := frac x in
  let (n2, d2) := frac y in
  round_ratio F (n1 * n2) (d1 * d2).

Definition ltb (x y : float) : bool :=
  let (n1, d1) := frac x in
  let (n2, d2) := frac y in
  n1 * d2 <? n2 * d1.

Definition max (x y : float) : float := if ltb x y then y else x.

(** [math.floor]. *)
Definition floor (x : float) : Z := let (n, d) := frac x in n / d.

(** The square root, correctly rounded: with [A / B] the argument scaled
    by 4^(-e), the mantissa is the integer nearest to sqrt (A / B), found
    from the integer square root [m] of the quotient by comparing [A / B]
    with (m + 1/2)^2. *)
Definition sqrt (F : format) (x : float) : option float :=
  let (n, d) := frac x in
  if n <? 0 then None
  else if n =? 0 then Some zero
  else
    let e := Z.max (ilog2_ratio n d / 2 - (prec F - 1)) (emin F) in
    let A := if 0 <=? e then n else n * 4 ^ (- e) in
    let B := if 0 <=? e then d * 4 ^ e else d in
    let m := Z.sqrt (A / B) in
    let l := 4 * A in
    let r := (4 * m * m + 4 * m + 1) * B in
    Some (if l <? r then m
          else if r <? l then m + 1
          else if Z.even m then m else m + 1, e).

End ieee754.

(** ** Tensors *)

Module torch.

Record Tensor : Type := mkTensor { shape : list nat; data : list R }.

Definition numel (s : list nat) : nat := fold_right Nat.mul 1 s.

Definition contiguous (t : Tensor) : Prop := length (data t) = numel (shape t).

(** Row-major offset of a multi-index. *)
Fixpoint ravel (s idx : list nat) : nat :=
  match s, idx with
  | _ :: s', i :: idx' => i * numel s' + ravel s' idx'
  | _, _ => 0
  end.

Definition get (t : Tensor) (idx : list nat) : R :=
  nth (ravel (shape t) idx) (data t) 0%R.

(** Storage of the tensor of shape [s] whose entry at [idx] is [f idx]. *)
Fixpoint build (s : list nat) (f : list nat -> R) : list R :=
  match s with
  | [] => [f []]
  | d :: s' => flat_map (fun i => build s' (fun idx => f (i :: idx))) (seq 0 d)
  end.

Definition of_fun (s : list nat) (f : list nat -> R) : Tensor :=
  mkTensor s (build s f).

Definition map_data (g : R -> R) (t : Tensor) : Tensor :=
  mkTensor (shape t) (map g (data t)).

Definition tab {A : Type} (n : nat) (f : nat -> A) : list A := map f (seq 0 n).

Definition rank (t : Tensor) : nat := length (shape t).

(** [idx] is a valid multi-index for shape [s]. *)
Definition in_range (idx s : list nat) : Prop := Forall2 lt idx s.

(** *** Shape inference of [view] and [reshape]

    torch's [infer_size]: entries below -1 are invalid, at most one entry
    may be -1, and the requested sizes must account for every element. *)
Definition infer_size (dims : list Z) (n : nat) : result (list nat) :=
  if existsb (fun d => d <? -1)%Z dims then Raise RuntimeError
  else
    let ninfer := count_occ Z.eq_dec dims (-1)%Z in
    if 1 <? ninfer then Raise RuntimeError
    else
      let newsize := fold_right Z.mul 1%Z (filter (fun d => 0 <=? d)%Z dims) in
      if (Z.of_nat n =? newsize)%Z
         || ((ninfer =? 1) && (0 <? newsize)%Z && (Z.of_nat n mod newsize =? 0)%Z)
      then
        if ninfer =? 1 then
          if (newsize =? 0)%Z then Raise RuntimeError
          else Ok (map (fun d => if (d =? -1)%Z
                                 then Z.to_nat (Z.of_nat n / newsize)
                                 else Z.to_nat d) dims)
        else Ok (map Z.to_nat dims)
      else Raise RuntimeError.

(** [t.reshape(dims)]; every tensor of the model is materialised in
    row-major order, so the storage is kept and only the shape changes. *)
Definition reshape (t : Tensor) (dims : list Z) : result Tensor :=
  s <- infer_size dims (numel (shape t)) ;;
  Ok (mkTensor s (data t)).

(** [t.view(dims)] on a contiguous tensor. *)
Definition view (t : Tensor) (dims : list Z) : result Tensor := reshape t dims.

(** *** Permutations of axes *)

Fixpoint index_of (m : nat) (dims : list nat) : nat :=
  match dims with
  | [] => 0
  | d :: r => if d =? m then 0 else S (index_of m r)
  end.

Definition is_permutation (dims : list nat) (n : nat) : bool :=
  (length dims =? n) && forallb (fun m => existsb (Nat.eqb m) dims) (seq 0 n).

(** [t.permute(dims)]: axis [i] of the result is axis [dims[i]] of [t]. *)
Definition permute (t : Tensor) (dims : list nat) : result Tensor :=
  if is_permutation dims (rank t) then
    Ok (of_fun (map (fun d => nth d (shape t) 0) dims)
               (fun idx => get t (tab (rank t) (fun m => nth (index_of m dims) idx 0))))
  else Raise RuntimeError.

(** [t.transpose(-1, -2)]. *)
Definition transpose_last2 (t : Tensor) : result Tensor :=
  let n := rank t in
  if n <? 2 then Raise IndexError
  else permute t (seq 0 (n - 2) ++ [n - 1; n - 2]).

(** *** Slicing and joining along the last axis *)

(** [t.narrow(-1, start, length)]. *)
Definition narrow_last (t : Tensor) (start len : Z) : result Tensor :=
  match rev (shape t) with
  | [] => Raise RuntimeError
  | w :: _ =>
    let size := Z.of_nat w in
    if (len <? 0)%Z then Raise RuntimeError
    else if ((start <? - size) || (size <? start))%Z then Raise IndexError
    else
      let start := if (start <? 0)%Z then (start + size)%Z else start in
      if (size - len <? start)%Z then Raise RuntimeError
      else Ok (of_fun (removelast (shape t) ++ [Z.to_nat len])
                      (fun idx => get t (removelast idx ++ [Z.to_nat start + last idx 0])))
  end.

Fixpoint shape_eqb (a b : list nat) : bool :=
  match a, b with
  | [], [] => true
  | x :: a', y :: b' => (x =? y) && shape_eqb a' b'
  | _, _ => false
  end.

(** [torch.concat((a, b), dim=-1)] for tensors of rank at least one. *)
Definition cat_last (a b : Tensor) : result Tensor :=
  match rev (shape a), rev (shape b) with
  | wa :: pa, wb :: pb =>
    if shape_eqb pa pb then
      Ok (of_fun (removelast (shape a) ++ [wa + wb])
                 (fun idx =>
                    let r := last idx 0 in
                    if r <? wa then get a (removelast idx ++ [r])
                    else get b (removelast idx ++ [r - wa])))
    else Raise RuntimeError
  | _, _ => Raise RuntimeError
  end.

(** *** Pointwise operations and reductions *)

(** [torch.clamp(t, min=m)]. *)
Definition clamp_min (t : Tensor) (m : R) : Tensor := map_data (fun v => Rmax v m) t.

(** [t ** n]. *)
Definition tpow (t : Tensor) (n : nat) : Tensor := map_data (fun v => (v ^ n)%R) t.

(** [t - c] for a scalar [c]. *)
Definition sub_scalar (t : Tensor) (c : R) : Tensor := map_data (fun v => (v - c)%R) t.

(** [torch.sqrt(t)].  On a negative entry torch yields NaN, for which the
    reals have no value; [Rsqrt_def.sqrt] is 0 there. *)
Definition tsqrt (t : Tensor) : Tensor := map_data sqrt t.

Definition Rsum (l : list R) : R := fold_right Rplus 0%R l.

(** [torch.sum(t, dim=-1, keepdim=True)] for a tensor of rank at least one. *)
Definition sum_last_keepdim (t : Tensor) : Tensor :=
  of_fun (removelast (shape t) ++ [1])
         (fun idx => Rsum (tab (last (shape t) 0) (fun r => get t (removelast idx ++ [r])))).

(** *** [torch.nn.Unfold] on a batched input (N, C, H, W)

    torch holds the four parameters and the sizes as 64-bit integers;
    here they are [Z], which agrees with torch as long as they and the
    intermediate values of the block count fit 64 bits. *)

Record Unfold : Type := mkUnfold {
  u_kernel_size : Z * Z;
  u_dilation : Z * Z;
  u_padding : Z * Z;
  u_stride : Z * Z
}.

(** Number of sliding blocks along one axis. *)
Definition blocks (dim pad dil ker str : Z) : Z :=
  ((dim + 2 * pad - (dil * (ker - 1) + 1)) / str + 1)%Z.

Definition unfold_params_ok (u : Unfold) : bool :=
  ((0 <? fst (u_kernel_size u)) && (0 <? snd (u_kernel_size u))
   && (0 <? fst (u_dilation u)) && (0 <? snd (u_dilation u))
   && (0 <=? fst (u_padding u)) && (0 <=? snd (u_padding u))
   && (0 <? fst (u_stride u)) && (0 <? snd (u_stride u)))%Z.

(** Entry (c, iy, ix) of image [b] of the zero-padded input. *)
Definition padded_get (input : Tensor) (H W b c : nat) (iy ix : Z) : R :=
  if ((0 <=? iy) && (iy <? Z.of_nat H) && (0 <=? ix) && (ix <? Z.of_nat W))%Z
  then get input [b; c; Z.to_nat iy; Z.to_nat ix]
  else 0%R.

(** Row [c * (kh*kw) + ki * kw + kj] of block [oy * ow + ox] holds the
    padded input at channel [c], row [oy*sh - ph + ki*dh], column
    [ox*sw - pw + kj*dw]. *)
Definition unfold (u : Unfold) (input : Tensor) : result Tensor :=
  if negb (unfold_params_ok u) then Raise RuntimeError
  else
    match shape input with
    | [B; C; H; W] =>
      if (C =? 0) || (H =? 0) || (W =? 0) then Raise RuntimeError
      else
        let '(kh, kw) := u_kernel_size u in
        let '(dh, dw) := u_dilation u in
        let '(ph, pw) := u_padding u in
        let '(sh, sw) := u_stride u in
        let oh := blocks (Z.of_nat H) ph dh kh sh in
        let ow := blocks (Z.of_nat W) pw dw kw sw in
        if ((oh <? 1) || (ow <? 1))%Z then Raise RuntimeError
        else
          let klen := Z.to_nat kh * Z.to_nat kw in
          Ok (of_fun [B; C * klen; Z.to_nat oh * Z.to_nat ow]
                (fun idx =>
                   match idx with
                   | [b; r; l] =>
                     let c := r / klen in
                     let ki := (r mod klen) / Z.to_nat kw in
                     let kj := (r mod klen) mod Z.to_nat kw in
                     let oy := l / Z.to_nat ow in
                     let ox := l mod Z.to_nat ow in
                     padded_get input H W b c
                       (Z.of_nat oy * sh - ph + Z.of_nat ki * dh)
                       (Z.of_nat ox * sw - pw + Z.of_nat kj * dw)
                   | _ => 0%R
                   end))
    | _ => Raise RuntimeError
    end.

End torch.

Import torch.

Notation "' pat <- m ;; f" := (bind m (fun pat => f))
  (at level 61, pat pattern, m at next level, right associativity).

(** ** Patch extraction seen from the channel-last input

    The conditions under which lines 112 to 125 return, the shape they
    return, and the entry of the input [x] of shape (N, H, W, C) found at
    position [r] of block [l] of image [b]. *)

Definition blocks_h (u : Unfold) (H : nat) : Z :=
  blocks (Z.of_nat H) (fst (u_padding u)) (fst (u_dilation u))
         (fst (u_kernel_size u)) (fst (u_stride u)).

Definition blocks_w (u : Unfold) (W : nat) : Z :=
  blocks (Z.of_nat W) (snd (u_padding u)) (snd (u_dilation u))
         (snd (u_kernel_size u)) (snd (u_stride u)).

Definition klen (u : Unfold) : nat :=
  Z.to_nat (fst (u_kernel_size u)) * Z.to_nat (snd (u_kernel_size u)).

Definition unfold_accepts (u : Unfold) (s : list nat) : bool :=
  match s with
  | [_; H; W; C] =>
    unfold_params_ok u
    && negb ((C =? 0) || (H =? 0) || (W =? 0))
    && negb ((blocks_h u H <? 1) || (blocks_w u W <? 1))%Z
  | _ => false
  end.

Definition patches_shape (u : Unfold) (s : list nat) : list nat :=
  match s with
  | [B; H; W; C] =>
    [B; Z.to_nat (blocks_h u H) * Z.to_nat (blocks_w u W); C * klen u]
  | _ => []
  end.

(** Tap [t = ki * kw + kj] of channel [ch] in the window of block [l]:
    the zero-padded input at row [oy*sh - ph + ki*dh] and column
    [ox*sw - pw + kj*dw]. *)
Definition window_tap (u : Unfold) (x : Tensor) (b l ch t : nat) : R :=
  match shape x with
  | [_; H; W; _] =>
    let ki := t / Z.to_nat (snd (u_kernel_size u)) in
    let kj := t mod Z.to_nat (snd (u_kernel_size u)) in
    let oy := l / Z.to_nat (blocks_w u W) in
    let ox := l mod Z.to_nat (blocks_w u W) in
    let iy := (Z.of_nat oy * fst (u_stride u) - fst (u_padding u)
               + Z.of_nat ki * fst (u_dilation u))%Z in
    let ix := (Z.of_nat ox * snd (u_stride u) - snd (u_padding u)
               + Z.of_nat kj * snd (u_dilation u))%Z in
    if ((0 <=? iy) && (iy <? Z.of_nat H) && (0 <=? ix) && (ix <? Z.of_nat W))%Z
    then get x [b; Z.to_nat iy; Z.to_nat ix; ch]
    else 0%R
  | _ => 0%R
  end.

(** Position [r] of a patch holds tap [r mod klen] of channel
    [r / klen]. *)
Definition window_entry (u : Unfold) (x : Tensor) (idx : list nat) : R :=
  match idx with
  | [b; l; r] => window_tap u x b l (r / klen u) (r mod klen u)
  | _ => 0%R
  end.

(** ** What the layer imports

    [lib.lorentz.manifold.CustomLorentz] is read only for its curvature. *)

Module CustomLorentz.
Record t : Type := mk { k : R }.
End CustomLorentz.

(** The collaborators that [LConv.py] imports and does not define: the
    hyperbolic fully connected layer of [lib.lorentz_equivariant.layers.LFC]
    (its constructor, its call operator and the in-place uniform
    initialisers of its weight and bias, which consume torch's random
    generator), and the four index-table generators of
    [groupy.gconv.make_gconv_indices]. *)
Class Host : Type := {
  GroupLorentzFullyConnected : Type;
  LFC_new : CustomLorentz.t -> Z -> Z -> bool -> bool -> GroupLorentzFullyConnected;
  LFC_call : GroupLorentzFullyConnected -> Tensor -> result Tensor;
  Generator : Type;
  weight_uniform_ : R -> R -> GroupLorentzFullyConnected -> Generator ->
                    GroupLorentzFullyConnected * Generator;
  bias_uniform_ : R -> R -> GroupLorentzFullyConnected -> Generator ->
                  GroupLorentzFullyConnected * Generator;
  IndexTable : Type;
  make_c4_z2_indices : Z -> IndexTable;
  make_c4_p4_indices : Z -> IndexTable;
  make_d4_z2_indices : Z -> IndexTable;
  make_d4_p4m_indices : Z -> IndexTable
}.

(** ** The layer *)

(** An argument that is either an [int] or a pair. *)
Inductive int_or_pair : Set :=
| Int (n : Z)
| Pair (a b : Z).

Definition as_pair (v : int_or_pair) : Z * Z :=
  match v with
  | Int n => (n, n)
  | Pair a b => (a, b)
  end.

(** What [print] writes: the label and the shape. *)
Definition stdout : Type := list (String.string * list nat).

Section Layer.

Context {host : Host}.

Definition make_indices_functions : list ((Z * Z) * (Z -> IndexTable)) :=
  [ ((1, 4)%Z, make_c4_z2_indices);
    ((4, 4)%Z, make_c4_p4_indices);
    ((1, 8)%Z, make_d4_z2_indices);
    ((8, 8)%Z, make_d4_p4m_indices) ].

Definition key_eqb (a b : Z * Z) : bool :=
  ((fst a =? fst b) && (snd a =? snd b))%Z.

(** [d[key]] on a dict. *)
Definition dict_get {V : Type} (d : list ((Z * Z) * V)) (key : Z * Z) : result V :=
  match find (fun e => key_eqb (fst e) key) d with
  | Some e => Ok (snd e)
  | None => Raise KeyError
  end.

Record GroupLorentzConv2d : Type := mkLayer {
  input_stabilizer_size : Z;
  output_stabilizer_size : Z;
  manifold : CustomLorentz.t;
  in_channels : Z;
  out_channels : Z;
  kernel_size : Z * Z;
  padding : Z * Z;
  bias : bool;
  stride : Z * Z;
  dilation : Z * Z;
  kernel_len : Z;
  linearized_kernel : GroupLorentzFullyConnected;
  unfold_ : Unfold;
  inds : option IndexTable
}.

Definition set_linearized_kernel (self : GroupLorentzConv2d)
    (lk : GroupLorentzFullyConnected) : GroupLorentzConv2d :=
  mkLayer (input_stabilizer_size self) (output_stabilizer_size self) (manifold self)
          (in_channels self) (out_channels self) (kernel_size self) (padding self)
          (bias self) (stride self) (dilation self) (kernel_len self)
          lk (unfold_ self) (inds self).

Definition set_inds (self : GroupLorentzConv2d) (i : IndexTable) : GroupLorentzConv2d :=
  mkLayer (input_stabilizer_size self) (output_stabilizer_size self) (manifold self)
          (in_channels self) (out_channels self) (kernel_size self) (padding self)
          (bias self) (stride self) (dilation self) (kernel_len self)
          (linearized_kernel self) (unfold_ self) (Some i).

Definition make_transformation_indices (self : GroupLorentzConv2d) : result IndexTable :=
  f <- dict_get make_indices_functions
         (input_stabilizer_size self, output_stabilizer_size self) ;;
  Ok (f (snd (kernel_size self))).

(** [2.0 / n] raises on [n = 0] and [math.sqrt] raises on a negative
    argument. *)
Definition reset_parameters (self : GroupLorentzConv2d) (g : Generator)
  : result (GroupLorentzConv2d * Generator) :=
  let n := ((in_channels self - 1) * fst (kernel_size self) * snd (kernel_size self))%Z in
  if (n =? 0)%Z then Raise ZeroDivisionError
  else if (n <? 0)%Z then Raise ValueError
  else
    let stdv := sqrt (2 / IZR n) in
    let '(lk, g) := weight_uniform_ (- stdv) stdv (linearized_kernel self) g in
    let '(lk, g) := if bias self then bias_uniform_ (- stdv) stdv lk g else (lk, g) in
    Ok (set_linearized_kernel self lk, g).

(** The arguments of [__init__]. *)
Record init_args : Type := mkArgs {
  arg_input_stabilizer_size : Z;
  arg_output_stabilizer_size : Z;
  arg_manifold : CustomLorentz.t;
  arg_in_channels : Z;
  arg_out_channels : Z;
  arg_kernel_size : int_or_pair;
  arg_stride : int_or_pair;
  arg_padding : int_or_pair;
  arg_dilation : int_or_pair;
  arg_bias : bool;
  arg_LFC_normalize : bool
}.

(** [GroupLorentzConv2d.__init__]. *)
Definition init (a : init_args) (g : Generator) : result (GroupLorentzConv2d * Generator) :=
  let stride := as_pair (arg_stride a) in
  let kernel_size := as_pair (arg_kernel_size a) in
  let padding := as_pair (arg_padding a) in
  let dilation := as_pair (arg_dilation a) in
  let kernel_len := (fst kernel_size * snd kernel_size)%Z in
  let lin_features :=
    ((arg_in_channels a - 1) * fst kernel_size * snd kernel_size + 1)%Z in
  let lk := LFC_new (arg_manifold a) lin_features (arg_out_channels a)
                    (arg_bias a) (arg_LFC_normalize a) in
  let u := mkUnfold kernel_size dilation padding stride in
  let self := mkLayer (arg_input_stabilizer_size a) (arg_output_stabilizer_size a)
                      (arg_manifold a) (arg_in_channels a) (arg_out_channels a)
                      kernel_size padding (arg_bias a) stride dilation kernel_len
                      lk u None in
  ' (self, g) <- reset_parameters self g ;;
  i <- make_transformation_indices self ;;
  Ok (set_inds self i, g).

(** [math.floor((dim + 2*p - d*(k - 1) - 1) / s + 1)]: the dividend is
    an [int]; the true division gives the [float] nearest to the
    quotient, adding 1 rounds again, and [math.floor] gives back an
    [int].  A quotient beyond the binary64 range, on which Python raises
    OverflowError, is not modelled. *)
Definition out_size (dim pad dil ker str : Z) : result Z :=
  if (str =? 0)%Z then Raise ZeroDivisionError
  else
    let q := ieee754.int_truediv ieee754.binary64
               (dim + 2 * pad - dil * (ker - 1) - 1) str in
    Ok (ieee754.floor
          (ieee754.add ieee754.binary64 q (ieee754.of_int ieee754.binary64 1))).

(** Line 139: the time taps, clamped from below at [sqrt k]. *)
Definition patches_time (self : GroupLorentzConv2d) (patches : Tensor) : result Tensor :=
  t <- narrow_last patches 0 (kernel_len self) ;;
  Ok (clamp_min t (sqrt (CustomLorentz.k (manifold self)))).

(** Line 141, under the square root. *)
Definition time_radicand (self : GroupLorentzConv2d) (pt : Tensor) : Tensor :=
  sub_scalar (sum_last_keepdim (tpow pt 2))
             (IZR (kernel_len self - 1) * CustomLorentz.k (manifold self))%R.

Definition extract_lorentz_patches (self : GroupLorentzConv2d) (patches : Tensor)
  : result Tensor :=
  pt <- patches_time self patches ;;
  let patches_time_rescaled := tsqrt (time_radicand self pt) in
  patches_space <- narrow_last patches (kernel_len self)
                     (Z.of_nat (last (shape patches) 0) - kernel_len self) ;;
  match shape patches_space with
  | s0 :: s1 :: _ =>
    r <- reshape patches_space
           [Z.of_nat s0; Z.of_nat s1; (in_channels self - 1)%Z; (-1)%Z] ;;
    r <- transpose_last2 r ;;
    patches_space <- reshape r (map Z.of_nat (shape patches_space)) ;;
    cat_last patches_time_rescaled patches_space
  | _ => Raise IndexError
  end.

(** What [extract_lorentz_patches] computes, entry by entry: position 0
    of each row is the rescaled time, and position [r > 0] is read from
    position [kernel_len + ((r-1) mod cs) * n + (r-1) / cs] of the
    patch, where [cs = in_channels - 1] and [n] is the size the reshape
    infers. *)
Definition rescaled_time (self : GroupLorentzConv2d) (patches : Tensor) (b l : nat) : R :=
  sqrt (Rsum (tab (Z.to_nat (kernel_len self))
                  (fun q => (Rmax (get patches [b; l; q])
                                  (sqrt (CustomLorentz.k (manifold self))) ^ 2)%R))
        - IZR (kernel_len self - 1) * CustomLorentz.k (manifold self)).

Definition handed_entry (self : GroupLorentzConv2d) (patches : Tensor) (idx : list nat) : R :=
  match idx with
  | [b; l; r] =>
    let kln := Z.to_nat (kernel_len self) in
    let cs := Z.to_nat (in_channels self - 1) in
    let n := (last (shape patches) 0 - kln) / cs in
    if r =? 0 then rescaled_time self patches b l
    else get patches [b; l; kln + ((r - 1) mod cs) * n + (r - 1) / cs]
  | _ => 0%R
  end.

(** The tensor handed to [extract_lorentz_patches]: lines 112 to 125. *)
Definition extract_patches (self : GroupLorentzConv2d) (x : Tensor) : result Tensor :=
  x <- permute x [0; 3; 1; 2] ;;
  patches <- unfold (unfold_ self) x ;;
  permute patches [0; 2; 1].

(** Lines 104 to 107. *)
Definition h_out (self : GroupLorentzConv2d) (h : nat) : result Z :=
  out_size (Z.of_nat h) (fst (padding self)) (fst (dilation self))
           (fst (kernel_size self)) (fst (stride self)).

Definition w_out (self : GroupLorentzConv2d) (w : nat) : result Z :=
  out_size (Z.of_nat w) (snd (padding self)) (snd (dilation self))
           (snd (kernel_size self)) (snd (stride self)).

Definition forward (self : GroupLorentzConv2d) (x : Tensor) : result (Tensor * stdout) :=
  match shape x with
  | [] => Raise IndexError
  | bsz :: hw =>
    match hw with
    | h :: w :: _ =>
      h_out <- h_out self h ;;
      w_out <- w_out self w ;;
      patches <- extract_patches self x ;;
      patches_pre_kernel <- extract_lorentz_patches self patches ;;
      out <- LFC_call (linearized_kernel self) patches_pre_kernel ;;
      out <- view out [Z.of_nat bsz; output_stabilizer_size self; h_out; w_out;
                       out_channels self] ;;
      Ok (out, [("final"%string, shape out)])
    | _ => Raise ValueError
    end
  end.

(** The tensor handed to the linear collaborator: lines 112 to 127. *)
Definition patches_pre_kernel (self : GroupLorentzConv2d) (x : Tensor) : result Tensor :=
  patches <- extract_patches self x ;;
  extract_lorentz_patches self patches.

(** *** Vocabulary of the properties *)

(** The stabilizer pairs the specification lists as supported. *)
Definition supported (iss oss : Z) : Prop :=
  (iss, oss) = (1, 4)%Z \/ (iss, oss) = (4, 4)%Z \/
  (iss, oss) = (1, 8)%Z \/ (iss, oss) = (8, 8)%Z.

(** The fan-in under the square root of [reset_parameters]. *)
Definition fan_in (a : init_args) : Z :=
  ((arg_in_channels a - 1) * fst (as_pair (arg_kernel_size a))
   * snd (as_pair (arg_kernel_size a)))%Z.

(** The output-size formula in the specification's words,
    floor((dim + 2*padding - dilation*(kernel-1) - 1)/stride + 1), with
    the floor of the quotient taken by integer division. *)
Definition spec_out_size (dim pad dil ker str : Z) : Z :=
  ((dim + 2 * pad - dil * (ker - 1) - 1) / str + 1)%Z.

(** The output sizes the specification names, for a layer and an input
    height or width. *)
Definition height_out (self : GroupLorentzConv2d) (H : nat) : Z :=
  spec_out_size (Z.of_nat H) (fst (padding self)) (fst (dilation self))
                (fst (kernel_size self)) (fst (stride self)).

Definition width_out (self : GroupLorentzConv2d) (W : nat) : Z :=
  spec_out_size (Z.of_nat W) (snd (padding self)) (snd (dilation self))
                (snd (kernel_size self)) (snd (stride self)).

(** Operands of the output-size formula on which its evaluation through
    a [float] is exact: the dividend and the stride are below 2^50 in
    magnitude. *)
Definition small_operands (dim pad dil ker str : Z) : Prop :=
  (Z.abs (dim + 2 * pad - dil * (ker - 1) - 1) < 2 ^ 50 /\ Z.abs str < 2 ^ 50)%Z.

Definition small_h (self : GroupLorentzConv2d) (H : nat) : Prop :=
  small_operands (Z.of_nat H) (fst (padding self)) (fst (dilation self))
                 (fst (kernel_size self)) (fst (stride self)).

Definition small_w (self : GroupLorentzConv2d) (W : nat) : Prop :=
  small_operands (Z.of_nat W) (snd (padding self)) (snd (dilation self))
                 (snd (kernel_size self)) (snd (stride self)).

(** The input width the linear collaborator is built for. *)
Definition lin_features (self : GroupLorentzConv2d) : Z :=
  ((in_channels self - 1) * fst (kernel_size self) * snd (kernel_size self) + 1)%Z.

(** The layout the specification describes for the vector handed to the
    collaborator: after the time scalar, channel-major, the [kernel_len]
    taps of spatial channel [c + 1] at positions [1 + c * kernel_len + t]. *)
Definition handed_channel_major (self : GroupLorentzConv2d) (x : Tensor) : Prop :=
  forall handed B H W C b l c t,
    patches_pre_kernel self x = Ok handed ->
    shape x = [B; H; W; C] ->
    b < B ->
    l < Z.to_nat (blocks_h (unfold_ self) H) * Z.to_nat (blocks_w (unfold_ self) W) ->
    c < C - 1 -> t < klen (unfold_ self) ->
    get handed [b; l; 1 + c * klen (unfold_ self) + t] =
    window_tap (unfold_ self) x b l (c + 1) t.

(** What [__init__] establishes between the fields [forward] reads. *)
Definition consistent (self : GroupLorentzConv2d) : Prop :=
  kernel_len self = (fst (kernel_size self) * snd (kernel_size self))%Z /\
  unfold_ self = mkUnfold (kernel_size self) (dilation self) (padding self) (stride self).

End Layer.

(** ** Lines 139 and 141 in floating point

    The time taps of one patch and the curvature [k], held in the format
    [F]: [clamp] is the larger of the tap and [sqrt k], [** 2] is one
    multiplication, the sum accumulates from the left (torch fixes no
    order; up to two taps there is only one), and [(kernel_len - 1) * k]
    is one multiplication by the converted integer.  [None] is NaN. *)

Definition patches_time_fp (F : ieee754.format) (k : ieee754.float) (kernel_len : nat)
    (patch : list ieee754.float) : option (list ieee754.float) :=
  match ieee754.sqrt F k with
  | Some sk => Some (map (fun t => ieee754.max t sk) (firstn kernel_len patch))
  | None => None
  end.

Definition time_radicand_fp (F : ieee754.format) (k : ieee754.float) (kernel_len : nat)
    (patch : list ieee754.float) : option ieee754.float :=
  match patches_time_fp F k kernel_len patch with
  | Some pt =>
    let squares := map (fun t => ieee754.mul F t t) pt in
    let total := fold_left (ieee754.add F) squares ieee754.zero in
    Some (ieee754.sub F total
            (ieee754.mul F (ieee754.of_int F (Z.of_nat kernel_len - 1)) k))
  | None => None
  end.

Definition rescaled_time_fp (F : ieee754.format) (k : ieee754.float) (kernel_len : nat)
    (patch : list ieee754.float) : option ieee754.float :=
  match time_radicand_fp F k kernel_len patch with
  | Some r => ieee754.sqrt F r
  | None => None
  end.

(** [x] with the entry at [at_] replaced by [v]. *)
Definition put (x : Tensor) (at_ : list nat) (v : R) : Tensor :=
  of_fun (shape x)
         (fun idx => if list_eq_dec Nat.eq_dec idx at_ then v else get x idx).

(** ** A stand-in collaborator for concrete runs

    It keeps the sizes it was built with and the seeds drawn for its
    weight and bias; the random generator is the list of the seeds still
    to be drawn.  Called on (batch, n, width) it returns (batch, 8*n,
    out_features), each output row repeating the first entry of its
    patch, whatever the width.  The index tables record the generator
    and the kernel width. *)

Module Stub.

Record lfc : Type := mkLfc {
  in_features : Z;
  out_features : Z;
  weight_seed : nat;
  bias_seed : nat
}.

Definition call (l : lfc) (t : Tensor) : result Tensor :=
  match shape t with
  | [b; n; _] =>
    Ok (of_fun [b; 8 * n; Z.to_nat (out_features l)]
          (fun idx => match idx with
                      | [i; j; _] => get t [i; j / 8; 0]
                      | _ => 0%R
                      end))
  | _ => Raise RuntimeError
  end.

Definition draw (g : list nat) : nat * list nat :=
  match g with
  | [] => (0, [])
  | s :: g' => (s, g')
  end.

Definition weight_uniform (lo hi : R) (l : lfc) (g : list nat) : lfc * list nat :=
  (mkLfc (in_features l) (out_features l) (fst (draw g)) (bias_seed l), snd (draw g)).

Definition bias_uniform (lo hi : R) (l : lfc) (g : list nat) : lfc * list nat :=
  (mkLfc (in_features l) (out_features l) (weight_seed l) (fst (draw g)), snd (draw g)).

#[export] Instance host : Host := {|
  GroupLorentzFullyConnected := lfc;
  LFC_new := fun _ i o _ _ => mkLfc i o 0 0;
  LFC_call := call;
  Generator := list nat;
  weight_uniform_ := weight_uniform;
  bias_uniform_ := bias_uniform;
  IndexTable := nat * Z;
  make_c4_z2_indices := fun ksize => (0, ksize);
  make_c4_p4_indices := fun ksize => (1, ksize);
  make_d4_z2_indices := fun ksize => (2, ksize);
  make_d4_p4m_indices := fun ksize => (3, ksize)
|}.

Definition unit_manifold : CustomLorentz.t := CustomLorentz.mk 1.

(** One image of 2 x 2 pixels with three channels (time, then two
    spatial channels), channel-last. *)
Definition image : Tensor :=
  mkTensor [1; 2; 2; 3]
           [1; 10; 100;  2; 20; 200;  3; 30; 300;  4; 40; 400]%R.

(** The same image with a time value below sqrt k = 1 at pixel (0, 0). *)
Definition image_low : Tensor :=
  mkTensor [1; 2; 2; 3]
           [0; 10; 100;  2; 20; 200;  3; 30; 300;  4; 40; 400]%R.

(** One patch of a 1 x 2 window over three channels, as patch extraction
    lays it out: both time taps, then the taps of each spatial channel. *)
Definition patch : Tensor :=
  mkTensor [1; 1; 6] [0; 2; 10; 20; 100; 200]%R.

(** [GroupLorentzConv2d(iss, oss, manifold, in_channels, out_channels,
    kernel_size)] with the defaults for the remaining arguments. *)
Definition args (iss oss ic oc : Z) (ks : int_or_pair) : init_args :=
  mkArgs iss oss unit_manifold ic oc ks (Int 1) (Int 0) (Int 1) true false.

(** The layer that the stabilizer pair (1, 8), a 1 x 2 kernel, [ic]
    input channels and 5 output channels construct, after
    [reset_parameters] has drawn the seeds 3 and 4. *)
Definition layer (ic : Z) : GroupLorentzConv2d :=
  mkLayer 1 8 unit_manifold ic 5 (1, 2)%Z (0, 0)%Z true (1, 1)%Z (1, 1)%Z 2
          (mkLfc ((ic - 1) * 1 * 2 + 1) 5 3 4)
          (mkUnfold (1, 2)%Z (1, 1)%Z (0, 0)%Z (1, 1)%Z)
          (Some (2, 2%Z)).

(** A patch of the same window whose two taps are points of the unit
    hyperboloid: (3; 2, 2) and (1; 0, 0). *)
Definition patch_on_manifold : Tensor :=
  mkTensor [1; 1; 6] [3; 1; 2; 0; 2; 0]%R.

(** The layer with a 1 x 1 kernel and three input channels, and a
    one-tap patch for it. *)
Definition layer_1x1 : GroupLorentzConv2d :=
  mkLayer 1 8 unit_manifold 3 5 (1, 1)%Z (0, 0)%Z true (1, 1)%Z (1, 1)%Z 1
          (mkLfc ((3 - 1) * 1 * 1 + 1) 5 3 4)
          (mkUnfold (1, 1)%Z (1, 1)%Z (0, 0)%Z (1, 1)%Z)
          (Some (2, 1%Z)).

Definition patch_1x1 : Tensor := mkTensor [1; 1; 3] [0; 5; 7]%R.


End Stub.

(** ** The two presets

    [LorentzP4MConvZ2] and [LorentzP4MConvP4M] take [*args, **kwargs] and
    call [GroupLorentzConv2d.__init__(input_stabilizer_size=..,
    output_stabilizer_size=.., *args, **kwargs)].  Python binds the
    positional arguments first, to the leading parameters, so any
    positional argument collides with the keyword
    [input_stabilizer_size]; a keyword may be given once; every keyword
    must name a parameter and every parameter without a default must be
    given.  All of these are TypeError, raised before the body runs.
    The keyword arguments are kept with the types the body expects. *)

Inductive call_result (A : Type) : Type :=
| Returned (a : A)
| TypeError
| Raised (e : exn).

Arguments Returned {A} a.
Arguments TypeError {A}.
Arguments Raised {A} e.

Record keywords : Type := mkKeywords {
  kw_input_stabilizer_size : option Z;
  kw_output_stabilizer_size : option Z;
  kw_manifold : option CustomLorentz.t;
  kw_in_channels : option Z;
  kw_out_channels : option Z;
  kw_kernel_size : option int_or_pair;
  kw_stride : option int_or_pair;
  kw_padding : option int_or_pair;
  kw_dilation : option int_or_pair;
  kw_bias : option bool;
  kw_LFC_normalize : option bool;
  kw_other : list String.string
}.

Definition default {A : Type} (d : A) (o : option A) : A :=
  match o with
  | Some a => a
  | None => d
  end.

Definition is_some {A : Type} (o : option A) : bool :=
  match o with
  | Some _ => true
  | None => false
  end.

Section Presets.

Context {host : Host}.

(** The call [GroupLorentzConv2d.__init__(input_stabilizer_size=iss,
    output_stabilizer_size=oss, *args, **kwargs)] with [npos] positional
    arguments and the keywords [kw]. *)
Definition call_init (iss oss : Z) (npos : nat) (kw : keywords) (g : Generator)
  : call_result (GroupLorentzConv2d * Generator) :=
  if 0 <? npos then TypeError
  else if is_some (kw_input_stabilizer_size kw) || is_some (kw_output_stabilizer_size kw)
  then TypeError
  else
    match kw_other kw with
    | _ :: _ => TypeError
    | [] =>
      match kw_manifold kw, kw_in_channels kw, kw_out_channels kw, kw_kernel_size kw with
      | Some m, Some ic, Some oc, Some ks =>
        match init (mkArgs iss oss m ic oc ks
                           (default (Int 1) (kw_stride kw))
                           (default (Int 0) (kw_padding kw))
                           (default (Int 1) (kw_dilation kw))
                           (default true (kw_bias kw))
                           (default false (kw_LFC_normalize kw))) g with
        | Ok r => Returned r
        | Raise e => Raised e
        end
      | _, _, _, _ => TypeError
      end
    end.

Definition LorentzP4MConvZ2 (npos : nat) (kw : keywords) (g : Generator)
  : call_result (GroupLorentzConv2d * Generator) :=
  call_init 1 8 npos kw g.

Definition LorentzP4MConvP4M (npos : nat) (kw : keywords) (g : Generator)
  : call_result (GroupLorentzConv2d * Generator) :=
  call_init 8 8 npos kw g.

End Presets.

(** * Properties *)

Lemma bind_Ok_inv {A B : Type} (m : result A) (f : A -> result B) (b : B) :
  bind m f = Ok b -> exists a, m = Ok a /\ f a = Ok b.
Proof.
  destruct m as [a|e]; simpl; intros H; [eauto | discriminate].
Qed.

Section BuildLemmas.

Lemma flat_map_length_const {A B : Type} (g : A -> list B) (l : list A) (d : nat) :
  (forall a, In a l -> length (g a) = d) ->
  length (flat_map g l) = length l * d.
Proof.
  induction l as [|a l IH]; simpl; intros Hg; [reflexivity|].
  rewrite length_app, Hg, IH by auto. reflexivity.
Qed.

Lemma length_build (s : list nat) (f : list nat -> R) :
  length (build s f) = numel s.
Proof.
  revert f; induction s as [|d s IH]; intros f; simpl; [reflexivity|].
  rewrite (flat_map_length_const _ _ (numel s)) by (intros; apply IH).
  now rewrite length_seq.
Qed.

Lemma contiguous_of_fun (s : list nat) (f : list nat -> R) :
  contiguous (of_fun s f).
Proof. unfold contiguous; simpl. apply length_build. Qed.

Lemma contiguous_map_data (g : R -> R) (t : Tensor) :
  contiguous t -> contiguous (map_data g t).
Proof. unfold contiguous; simpl. now rewrite length_map. Qed.

Lemma nth_flat_map_block {B : Type} (g : nat -> list B) (d n s i j : nat) (def : B) :
  (forall a, length (g a) = d) -> i < n -> j < d ->
  nth (i * d + j) (flat_map g (seq s n)) def = nth j (g (s + i)) def.
Proof.
  intros Hg. revert s i. induction n as [|n IH]; intros s i Hi Hj; [lia|].
  simpl. destruct i as [|i].
  - rewrite app_nth1 by (rewrite Hg; lia). now rewrite Nat.add_0_r.
  - rewrite app_nth2 by (rewrite Hg; lia). rewrite Hg.
    replace (S i * d + j - d) with (i * d + j) by lia.
    rewrite IH by lia. f_equal. f_equal. lia.
Qed.

Lemma ravel_lt (s idx : list nat) :
  in_range idx s -> ravel s idx < numel s.
Proof.
  intros H. induction H as [|i d idx s Hid _ IH]; simpl; [lia|]. nia.
Qed.

Lemma nth_build (s idx : list nat) (f : list nat -> R) :
  in_range idx s -> nth (ravel s idx) (build s f) 0%R = f idx.
Proof.
  intros H. revert f.
  induction H as [|i d idx s Hid Hr IH]; intros f; simpl; [reflexivity|].
  rewrite nth_flat_map_block by (auto using length_build, ravel_lt).
  simpl. apply (IH (fun idx => f (i :: idx))).
Qed.

Lemma get_of_fun (s idx : list nat) (f : list nat -> R) :
  in_range idx s -> get (of_fun s f) idx = f idx.
Proof. intros H. unfold get; simpl. now apply nth_build. Qed.

Lemma build_ext (s : list nat) (f g : list nat -> R) :
  (forall idx, in_range idx s -> f idx = g idx) -> build s f = build s g.
Proof.
  revert f g. induction s as [|d s IH]; intros f g H; simpl.
  - f_equal. apply H. constructor.
  - assert (Hs : forall i, In i (seq 0 d) -> i < d) by (intros i Hi; apply in_seq in Hi; lia).
    revert Hs. generalize (seq 0 d) as l.
    induction l as [|i l IHl]; intros Hs; simpl; [reflexivity|].
    f_equal.
    + apply IH. intros idx Hidx. apply H. constructor; [apply Hs; now left | exact Hidx].
    + apply IHl. intros j Hj. apply Hs. now right.
Qed.

Lemma of_fun_ext (s : list nat) (f g : list nat -> R) :
  (forall idx, in_range idx s -> f idx = g idx) -> of_fun s f = of_fun s g.
Proof. intros H. unfold of_fun. f_equal. now apply build_ext. Qed.

Lemma map_build (h : R -> R) (s : list nat) (f : list nat -> R) :
  map h (build s f) = build s (fun idx => h (f idx)).
Proof.
  revert f. induction s as [|d s IH]; intros f; simpl; [reflexivity|].
  generalize (seq 0 d) as l. induction l as [|i l IHl]; simpl; [reflexivity|].
  now rewrite map_app, IH, IHl.
Qed.

Lemma map_data_of_fun (h : R -> R) (s : list nat) (f : list nat -> R) :
  map_data h (of_fun s f) = of_fun s (fun idx => h (f idx)).
Proof. unfold map_data, of_fun; simpl. now rewrite map_build. Qed.

End BuildLemmas.

(** ** Arithmetic of the output size *)

Section OutSize.

Local Open Scope Z_scope.

Lemma rne_bounds (num den : Z) :
  0 < den -> 2 * num - den <= 2 * ieee754.rne num den * den <= 2 * num + den.
Proof.
  intros Hd. unfold ieee754.rne.
  pose proof (Z.div_mod num den ltac:(lia)) as Hdm.
  pose proof (Z.mod_pos_bound num den Hd) as Hr.
  set (f := num / den) in *. set (r := num mod den) in *.
  destruct (Z.ltb_spec (2 * r) den); [nia|].
  destruct (Z.ltb_spec den (2 * r)); [nia|].
  destruct (Z.even f); nia.
Qed.

Lemma rne_exact (num den : Z) :
  0 < den -> num mod den = 0 -> ieee754.rne num den = num / den.
Proof.
  intros Hd Hm. unfold ieee754.rne. rewrite Hm.
  destruct (Z.ltb_spec (2 * 0) den); [reflexivity | lia].
Qed.

Lemma ilog2_ratio_spec (p q : Z) :
  0 < p -> 0 < q ->
  (0 <= ieee754.ilog2_ratio p q -> 2 ^ ieee754.ilog2_ratio p q * q <= p) /\
  (ieee754.ilog2_ratio p q < 0 -> q <= p * 2 ^ (- ieee754.ilog2_ratio p q)).
Proof.
  intros Hp Hq. unfold ieee754.ilog2_ratio, ieee754.pow2_le_ratio.
  pose proof (Z.log2_spec p Hp) as [Hp1 Hp2].
  pose proof (Z.log2_spec q Hq) as [Hq1 Hq2].
  pose proof (Z.log2_nonneg p) as Hlp. pose proof (Z.log2_nonneg q) as Hlq.
  set (lp := Z.log2 p) in *. set (lq := Z.log2 q) in *.
  destruct (Z.leb_spec 0 (lp - lq)) as [Hk|Hk].
  - destruct (Z.leb_spec (2 ^ (lp - lq) * q) p) as [Ht|Ht].
    + split; intros; [assumption | lia].
    + split; intros Hs.
      * assert (Hpow : 2 ^ lp = 2 ^ (lp - lq - 1) * 2 ^ (Z.succ lq)).
        { rewrite <- Z.pow_add_r by lia. f_equal; lia. }
        assert (0 < 2 ^ (lp - lq - 1)) by (apply Z.pow_pos_nonneg; lia).
        apply Z.le_trans with (2 ^ (lp - lq - 1) * 2 ^ Z.succ lq); [|lia].
        apply Z.mul_le_mono_nonneg_l; lia.
      * assert (Hk0 : lp = lq) by lia.
        replace (- (lp - lq - 1)) with 1 by lia.
        rewrite Z.pow_succ_r in Hq2 by lia. rewrite <- Hk0 in Hq2.
        change (2 ^ 1) with 2. lia.
  - destruct (Z.leb_spec q (p * 2 ^ (- (lp - lq)))) as [Ht|Ht].
    + split; intros; [lia | assumption].
    + split; intros Hs; [lia|].
      assert (Hpow : 2 ^ (Z.succ lq) = 2 ^ lp * 2 ^ (- (lp - lq - 1))).
      { rewrite <- Z.pow_add_r by lia. f_equal; lia. }
      assert (0 < 2 ^ (- (lp - lq - 1))) by (apply Z.pow_pos_nonneg; lia).
      apply Z.le_trans with (2 ^ lp * 2 ^ (- (lp - lq - 1))); [lia|].
      apply Z.mul_le_mono_nonneg_r; lia.
Qed.

Lemma round_ratio_near (p q : Z) :
  0 < q -> p <> 0 -> Z.abs p < 2 ^ 52 * q ->
  exists m k,
    ieee754.round_ratio ieee754.binary64 p q = (m, - k) /\ 0 < k /\
    m = ieee754.rne (p * 2 ^ k) q /\
    (2 ^ 52 * q <= 2 ^ k * Z.abs p \/ 2 ^ k = 2 ^ 1074).
Proof.
  intros Hq Hp Hb. unfold ieee754.round_ratio.
  destruct (Z.eqb_spec p 0) as [|_]; [contradiction|].
  destruct (ilog2_ratio_spec (Z.abs p) q ltac:(lia) Hq) as [Hpos Hneg].
  set (E := ieee754.ilog2_ratio (Z.abs p) q) in *.
  assert (HE : E <= 51).
  { destruct (Z.le_gt_cases E 51) as [|Hgt]; [assumption|].
    specialize (Hpos ltac:(lia)).
    assert (2 ^ 52 <= 2 ^ E) by (apply Z.pow_le_mono_r; lia).
    nia. }
  change (ieee754.prec ieee754.binary64 - 1) with 52. change (ieee754.emin ieee754.binary64) with (-1074).
  destruct (Z.max_spec (E - 52) (-1074)) as [[Hlt ->]|[Hge ->]].
  - exists (ieee754.rne (p * 2 ^ 1074) q), 1074. repeat split; lia.
  - destruct (Z.leb_spec 0 (E - 52)) as [|_]; [lia|].
    exists (ieee754.rne (p * 2 ^ (- (E - 52))) q), (- (E - 52)).
    rewrite Z.opp_involutive. repeat split; try lia.
    left. replace (- (E - 52)) with (52 - E) by lia.
    destruct (Z.le_gt_cases 0 E) as [H0|H0].
    + specialize (Hpos H0).
      assert (Hpow : 2 ^ 52 = 2 ^ (52 - E) * 2 ^ E).
      { rewrite <- Z.pow_add_r by lia. f_equal; lia. }
      assert (0 < 2 ^ (52 - E)) by (apply Z.pow_pos_nonneg; lia).
      rewrite Hpow. nia.
    + specialize (Hneg H0).
      assert (Hpow : 2 ^ (52 - E) = 2 ^ 52 * 2 ^ (- E)).
      { rewrite <- Z.pow_add_r by lia. f_equal; lia. }
      rewrite Hpow. nia.
Qed.

Lemma round_ratio_margin (p q n s c : Z) :
  0 < q -> 0 < s -> 1 <= c -> (Z.abs n + 1) * s < 2 ^ 52 ->
  c * q <= 2 * s * (p - n * q) -> c * q <= 2 * s * ((n + 1) * q - p) ->
  exists N D,
    ieee754.frac (ieee754.round_ratio ieee754.binary64 p q) = (N, D) /\ 0 < D /\
    (c - 1) * D < 2 * s * (N - n * D) /\ (c - 1) * D < 2 * s * ((n + 1) * D - N).
Proof.
  intros Hq Hs Hc Hn Hlo Hhi.
  assert (Hp : p <> 0) by nia.
  assert (Hlo' : n * q < p) by nia.
  assert (Hhi' : p < (n + 1) * q) by nia.
  assert (Hpq : Z.abs p <= (Z.abs n + 1) * q) by nia.
  assert (Hb : Z.abs p < 2 ^ 52 * q) by nia.
  destruct (round_ratio_near p q Hq Hp Hb) as (m & k & -> & Hk & Hm & Hulp).
  pose proof (rne_bounds (p * 2 ^ k) q Hq) as Hr. rewrite <- Hm in Hr.
  assert (HD : 0 < 2 ^ k) by (apply Z.pow_pos_nonneg; lia).
  exists m, (2 ^ k). unfold ieee754.frac.
  destruct (Z.leb_spec 0 (- k)) as [|_]; [lia|]. rewrite Z.opp_involutive.
  set (D := 2 ^ k) in *.
  assert (HDs : s < D).
  { destruct Hulp as [Hu|Hu]; [|rewrite Hu; apply Z.lt_trans with (2 ^ 52); [nia|reflexivity]].
    assert (2 ^ 52 * q <= D * (Z.abs n + 1) * q) by nia.
    assert (2 ^ 52 <= D * (Z.abs n + 1)) by nia.
    nia. }
  split; [reflexivity|]. split; [assumption|].
  split.
  - assert (H1 : (2 * s * n * q + c * q) * D <= 2 * s * p * D) by nia.
    assert (H2 : q * (c * D - s) <= q * (2 * s * (m - n * D))) by nia.
    assert (H3 : c * D - s <= 2 * s * (m - n * D)) by (apply Z.mul_le_mono_pos_l in H2; assumption).
    nia.
  - assert (H1 : (2 * s * (n + 1) * q - c * q) * D >= 2 * s * p * D) by nia.
    assert (H2 : q * (c * D - s) <= q * (2 * s * ((n + 1) * D - m))) by nia.
    assert (H3 : c * D - s <= 2 * s * ((n + 1) * D - m)) by (apply Z.mul_le_mono_pos_l in H2; assumption).
    nia.
Qed.

Lemma round_ratio_exact (p q : Z) :
  0 < q -> p mod q = 0 -> Z.abs p < 2 ^ 52 * q ->
  exists N D,
    ieee754.frac (ieee754.round_ratio ieee754.binary64 p q) = (N, D) /\ 0 < D /\ N = p / q * D.
Proof.
  intros Hq Hm Hb.
  destruct (Z.eq_dec p 0) as [->|Hp].
  - exists 0, 1. repeat split; reflexivity.
  - destruct (round_ratio_near p q Hq Hp Hb) as (m & k & -> & Hk & Hmk & _).
    assert (HD : 0 < 2 ^ k) by (apply Z.pow_pos_nonneg; lia).
    exists m, (2 ^ k). unfold ieee754.frac.
    destruct (Z.leb_spec 0 (- k)) as [|_]; [lia|]. rewrite Z.opp_involutive.
    split; [reflexivity|]. split; [assumption|].
    rewrite Hmk. apply Z.mod_divide in Hm; [|lia]. destruct Hm as [c ->].
    rewrite rne_exact; [| assumption |].
    + rewrite Z.div_mul by lia.
      replace (c * q * 2 ^ k) with (c * 2 ^ k * q) by ring.
      now rewrite Z.div_mul by lia.
    + replace (c * q * 2 ^ k) with (c * 2 ^ k * q) by ring.
      apply Z.mod_mul. lia.
Qed.

(** [math.floor(a / s + 1)] on integers [a], [s] below [2^50] is the
    integer quotient plus one. *)
Lemma floor_truediv_succ_pos (a s : Z) :
  0 < s -> Z.abs a < 2 ^ 50 -> s < 2 ^ 50 ->
  ieee754.floor (ieee754.add ieee754.binary64 (ieee754.round_ratio ieee754.binary64 a s) (ieee754.of_int ieee754.binary64 1)) = a / s + 1.
Proof.
  intros Hs Ha Hs'.
  pose proof (Z.div_mod a s ltac:(lia)) as Hdm.
  pose proof (Z.mod_pos_bound a s Hs) as Hr.
  set (n := a / s) in *. set (r := a mod s) in *.
  assert (Hn : Z.abs n * s <= Z.abs a + s) by nia.
  assert (Hb1 : (Z.abs n + 1) * s < 2 ^ 52).
  { change (2 ^ 52) with (4 * 2 ^ 50). nia. }
  assert (Hb2 : (Z.abs (n + 1) + 1) * s < 2 ^ 52).
  { change (2 ^ 52) with (4 * 2 ^ 50). nia. }
  assert (Hone : ieee754.frac (ieee754.of_int ieee754.binary64 1) = (2 ^ 52, 2 ^ 52)) by reflexivity.
  unfold ieee754.add, ieee754.floor. rewrite Hone.
  destruct (Z.eq_dec r 0) as [Hr0|Hr0].
  - destruct (round_ratio_exact a s Hs Hr0) as (N & D & -> & HD & HN).
    { apply Z.le_lt_trans with (Z.abs a * s); [nia|].
      apply Z.mul_lt_mono_pos_r; [lia|]. apply Z.lt_trans with (2 ^ 50); [lia|reflexivity]. }
    fold n in HN. subst N.
    destruct (round_ratio_exact (n * D * 2 ^ 52 + 2 ^ 52 * D) (D * 2 ^ 52)) as (N2 & D2 & -> & HD2 & HN2).
    + nia.
    + replace (n * D * 2 ^ 52 + 2 ^ 52 * D) with ((n + 1) * (D * 2 ^ 52)) by ring.
      apply Z.mod_mul. nia.
    + replace (n * D * 2 ^ 52 + 2 ^ 52 * D) with ((n + 1) * (D * 2 ^ 52)) by ring.
      rewrite Z.abs_mul, (Z.abs_eq (D * 2 ^ 52)) by nia.
      apply Z.mul_lt_mono_pos_r; [nia|]. nia.
    + replace (n * D * 2 ^ 52 + 2 ^ 52 * D) with ((n + 1) * (D * 2 ^ 52)) in HN2 by ring.
      rewrite Z.div_mul in HN2 by nia. subst N2. apply Z.div_mul. lia.
  - destruct (round_ratio_margin a s n s 2 Hs Hs ltac:(lia) Hb1) as (N & D & -> & HD & Hlo & Hhi);
      [nia | nia |].
    destruct (round_ratio_margin (N * 2 ^ 52 + 2 ^ 52 * D) (D * 2 ^ 52) (n + 1) s 1)
      as (N2 & D2 & -> & HD2 & Hlo2 & Hhi2); try lia; try nia.
    symmetry. apply Z.div_unique with (N2 - (n + 1) * D2); nia.
Qed.

Lemma out_size_exact (dim pad dil ker str : Z) :
  str <> 0 -> small_operands dim pad dil ker str ->
  out_size dim pad dil ker str = Ok (blocks dim pad dil ker str).
Proof.
  intros Hs [Ha Hb]. unfold out_size, blocks, ieee754.int_truediv.
  destruct (Z.eqb_spec str 0) as [E|_]; [contradiction|].
  apply f_equal.
  replace (dim + 2 * pad - (dil * (ker - 1) + 1)) with (dim + 2 * pad - dil * (ker - 1) - 1)
    by lia.
  destruct (Z.ltb_spec 0 str) as [Hpos|Hneg].
  - apply floor_truediv_succ_pos; lia.
  - rewrite floor_truediv_succ_pos by lia.
    now rewrite Z.div_opp_opp by assumption.
Qed.


Lemma out_size_zero_stride (dim pad dil ker : Z) :
  out_size dim pad dil ker 0 = Raise ZeroDivisionError.
Proof. reflexivity. Qed.

End OutSize.

(** ** Shape inference *)

Section InferSize.

Lemma existsb_lt_m1_false (dims : list Z) :
  Forall (fun d => (0 <= d)%Z) dims -> existsb (fun d => (d <? -1)%Z) dims = false.
Proof.
  induction 1 as [|d dims Hd _ IH]; simpl; [reflexivity|].
  rewrite IH. destruct (Z.ltb_spec d (-1)); [lia | reflexivity].
Qed.

Lemma count_m1_nonneg (dims : list Z) :
  Forall (fun d => (0 <= d)%Z) dims -> count_occ Z.eq_dec dims (-1)%Z = 0.
Proof.
  induction 1 as [|d dims Hd _ IH]; simpl; [reflexivity|].
  destruct (Z.eq_dec d (-1)); [lia | exact IH].
Qed.

Lemma filter_nonneg (dims : list Z) :
  Forall (fun d => (0 <= d)%Z) dims -> filter (fun d => (0 <=? d)%Z) dims = dims.
Proof.
  induction 1 as [|d dims Hd _ IH]; simpl; [reflexivity|].
  destruct (Z.leb_spec 0 d); [now rewrite IH | lia].
Qed.

(** With every requested size given, the sizes must multiply to the
    number of elements. *)
Lemma infer_size_explicit (dims : list Z) (n : nat) :
  Forall (fun d => (0 <= d)%Z) dims ->
  infer_size dims n =
  if (Z.of_nat n =? fold_right Z.mul 1%Z dims)%Z
  then Ok (map Z.to_nat dims) else Raise RuntimeError.
Proof.
  intros H. unfold infer_size.
  rewrite existsb_lt_m1_false, count_m1_nonneg, filter_nonneg by assumption.
  simpl. now rewrite orb_false_r.
Qed.

Lemma fold_mul_of_nat (s : list nat) :
  fold_right Z.mul 1%Z (map Z.of_nat s) = Z.of_nat (numel s).
Proof.
  induction s as [|d s IH]; simpl; [reflexivity|]. rewrite IH. lia.
Qed.

Lemma Forall_of_nat_nonneg (s : list nat) :
  Forall (fun d => (0 <= d)%Z) (map Z.of_nat s).
Proof. induction s; simpl; constructor; [lia | assumption]. Qed.

Lemma map_to_nat_of_nat (s : list nat) : map Z.to_nat (map Z.of_nat s) = s.
Proof.
  induction s as [|d s IH]; simpl; [reflexivity|]. now rewrite Nat2Z.id, IH.
Qed.

(** Reshaping to a shape with the same number of elements keeps the
    storage. *)
Lemma reshape_same_numel (t : Tensor) (s : list nat) :
  numel (shape t) = numel s ->
  reshape t (map Z.of_nat s) = Ok (mkTensor s (data t)).
Proof.
  intros H. unfold reshape.
  rewrite infer_size_explicit by apply Forall_of_nat_nonneg.
  rewrite fold_mul_of_nat, H, Z.eqb_refl. simpl. now rewrite map_to_nat_of_nat.
Qed.

(** [reshape(a, b, c, -1)]. *)
Lemma infer_size_last (a b : nat) (c : Z) (n : nat) :
  infer_size [Z.of_nat a; Z.of_nat b; c; (-1)%Z] n =
  if ((0 <? Z.of_nat a * Z.of_nat b * c) &&
      (Z.of_nat n mod (Z.of_nat a * Z.of_nat b * c) =? 0))%Z
  then Ok [a; b; Z.to_nat c; Z.to_nat (Z.of_nat n / (Z.of_nat a * Z.of_nat b * c))]
  else Raise RuntimeError.
Proof.
  unfold infer_size. simpl.
  destruct (Z.ltb_spec (Z.of_nat a) (-1)); [lia|].
  destruct (Z.ltb_spec (Z.of_nat b) (-1)); [lia|]. simpl.
  destruct (Z.eq_dec (Z.of_nat a) (-1)); [lia|].
  destruct (Z.eq_dec (Z.of_nat b) (-1)); [lia|].
  destruct (Z.leb_spec 0 (Z.of_nat a)); [|lia].
  destruct (Z.leb_spec 0 (Z.of_nat b)); [|lia].
  destruct (Z.ltb_spec c (-1)) as [Hc|Hc]; simpl.
  { destruct (Z.ltb_spec 0 (Z.of_nat a * Z.of_nat b * c)); [nia | reflexivity]. }
  destruct (Z.eq_dec c (-1)) as [Hc1|Hc1]; simpl.
  { subst c. destruct (Z.ltb_spec 0 (Z.of_nat a * Z.of_nat b * -1)); [nia | reflexivity]. }
  destruct (Z.leb_spec 0 c); [|lia]. simpl.
  rewrite Z.mul_1_r, !Z.mul_assoc.
  set (m := (Z.of_nat a * Z.of_nat b * c)%Z).
  destruct (Z.eqb_spec (Z.of_nat a) (-1)); [lia|].
  destruct (Z.eqb_spec (Z.of_nat b) (-1)); [lia|].
  destruct (Z.eqb_spec c (-1)); [lia|].
  rewrite !Nat2Z.id.
  destruct (Z.ltb_spec 0 m) as [Hm|Hm]; simpl.
  - destruct (Z.eqb_spec (Z.of_nat n mod m) 0) as [Hd|Hd].
    + rewrite orb_true_r. destruct (Z.eqb_spec m 0); [lia | reflexivity].
    + rewrite orb_false_r. destruct (Z.eqb_spec (Z.of_nat n) m) as [E|E]; [|reflexivity].
      exfalso. apply Hd. rewrite E. apply Z.mod_same. lia.
  - rewrite orb_false_r.
    destruct (Z.eqb_spec (Z.of_nat n) m) as [E|E]; [|reflexivity].
    destruct (Z.eqb_spec m 0); [reflexivity | lia].
Qed.

End InferSize.

(** ** Patch extraction *)

Ltac in_range_tac :=
  unfold in_range; repeat (apply Forall2_cons; [try lia|]); try apply Forall2_nil.

Ltac inv_range H :=
  unfold in_range in H;
  repeat match goal with
         | H : Forall2 _ _ (_ :: _) |- _ => inversion H; subst; clear H
         | H : Forall2 _ _ [] |- _ => inversion H; subst; clear H
         end.

Section PatchExtraction.

Context {host : Host}.

Lemma permute_0312 (x : Tensor) (B H W C : nat) :
  shape x = [B; H; W; C] ->
  permute x [0; 3; 1; 2] =
  Ok (of_fun [B; C; H; W]
        (fun idx => get x [nth 0 idx 0; nth 2 idx 0; nth 3 idx 0; nth 1 idx 0])).
Proof.
  intros Hs. unfold permute, rank. rewrite Hs. reflexivity.
Qed.

Lemma permute_021 (t : Tensor) (a b c : nat) :
  shape t = [a; b; c] ->
  permute t [0; 2; 1] =
  Ok (of_fun [a; c; b] (fun idx => get t [nth 0 idx 0; nth 2 idx 0; nth 1 idx 0])).
Proof.
  intros Hs. unfold permute, rank. rewrite Hs. reflexivity.
Qed.

Lemma permute_wrong_rank (t : Tensor) (dims : list nat) :
  length dims <> rank t -> permute t dims = Raise RuntimeError.
Proof.
  intros H. unfold permute, is_permutation.
  destruct (Nat.eqb_spec (length dims) (rank t)); [contradiction | reflexivity].
Qed.

Lemma div_lt_mul (r c k : nat) : r < c * k -> r / k < c.
Proof.
  intros H. destruct k as [|k]; [lia|].
  apply Nat.Div0.div_lt_upper_bound. lia.
Qed.

(** Lines 112 to 125 return exactly on the shapes [unfold_accepts]
    accepts, with the entries [window_entry] names; they raise torch's
    RuntimeError otherwise. *)
Lemma extract_patches_eq (self : GroupLorentzConv2d) (x : Tensor) :
  extract_patches self x =
  if unfold_accepts (unfold_ self) (shape x)
  then Ok (of_fun (patches_shape (unfold_ self) (shape x))
                  (window_entry (unfold_ self) x))
  else Raise RuntimeError.
Proof.
  unfold extract_patches.
  destruct (shape x) as [|B [|H [|W [|C [|? ?]]]]] eqn:Hs;
    try (rewrite permute_wrong_rank by (unfold rank; rewrite Hs; simpl; lia);
         reflexivity).
  rewrite (permute_0312 x B H W C Hs). simpl bind.
  unfold unfold_accepts, unfold. simpl shape.
  destruct (unfold_params_ok (unfold_ self)) eqn:Hp; simpl negb; [|reflexivity].
  rewrite andb_true_l.
  destruct ((C =? 0) || (H =? 0) || (W =? 0)) eqn:Hz; simpl negb; [reflexivity|].
  rewrite andb_true_l.
  unfold blocks_h, blocks_w, patches_shape, blocks_h, blocks_w, klen.
  destruct (unfold_ self) as [[kh kw] [dh dw] [ph pw] [sh sw]] eqn:Hu.
  cbn [u_kernel_size u_dilation u_padding u_stride fst snd].
  set (oh := blocks (Z.of_nat H) ph dh kh sh).
  set (ow := blocks (Z.of_nat W) pw dw kw sw).
  destruct ((oh <? 1)%Z || (ow <? 1)%Z) eqn:Ho; simpl negb; [reflexivity|].
  simpl bind.
  erewrite permute_021 by reflexivity.
  f_equal. apply of_fun_ext. intros idx Hidx. inv_range Hidx.
  rename x0 into b, x1 into l, x2 into r.
  simpl nth.
  rewrite get_of_fun by in_range_tac.
  unfold window_entry, window_tap, padded_get, klen, blocks_w. rewrite Hs.
  cbn [u_kernel_size u_dilation u_padding u_stride fst snd].
  fold ow.
  match goal with |- (if ?c then _ else _) = _ => destruct c eqn:Hin end; [|reflexivity].
  apply andb_prop in Hin; destruct Hin as [Hin Hi4].
  apply andb_prop in Hin; destruct Hin as [Hin Hi3].
  apply andb_prop in Hin; destruct Hin as [Hi1 Hi2].
  apply Z.leb_le in Hi1, Hi3. apply Z.ltb_lt in Hi2, Hi4.
  rewrite get_of_fun.
  - reflexivity.
  - in_range_tac. now apply div_lt_mul.
Qed.

End PatchExtraction.

(** ** Lorentz re-assembly of the patches *)

Arguments build : simpl never.
Arguments get : simpl never.

Section Reassembly.

Context {host : Host}.

Lemma narrow_last_3 (t : Tensor) (B L W : nat) (start len : Z) :
  shape t = [B; L; W] ->
  (0 <= start)%Z -> (0 <= len)%Z -> (start + len <= Z.of_nat W)%Z ->
  narrow_last t start len =
  Ok (of_fun [B; L; Z.to_nat len]
        (fun idx => get t [nth 0 idx 0; nth 1 idx 0; Z.to_nat start + nth 2 idx 0])).
Proof.
  intros Hs H0 H1 H2. unfold narrow_last. rewrite Hs. simpl rev. cbv zeta.
  destruct (Z.ltb_spec len 0); [lia|].
  destruct (Z.ltb_spec start (- Z.of_nat W)); [lia|].
  destruct (Z.ltb_spec (Z.of_nat W) start); [lia|]. simpl orb. cbv iota.
  destruct (Z.ltb_spec start 0); [lia|].
  destruct (Z.ltb_spec (Z.of_nat W - len) start); [lia|].
  apply f_equal. simpl removelast. simpl app.
  apply of_fun_ext. intros idx Hidx. inv_range Hidx. reflexivity.
Qed.

Lemma get_mk_3_4 (d : list R) (B L n m b l i j : nat) :
  get (mkTensor [B; L; n * m] d) [b; l; i * m + j] =
  get (mkTensor [B; L; n; m] d) [b; l; i; j].
Proof. unfold get; simpl. f_equal. ring. Qed.

Lemma tab_ext {A : Type} (n : nat) (f g : nat -> A) :
  (forall i, i < n -> f i = g i) -> tab n f = tab n g.
Proof.
  intros H. unfold tab. apply map_ext_in. intros i Hi. apply in_seq in Hi. apply H. lia.
Qed.

Lemma reshape_cond (B L S : nat) (c : Z) :
  ((0 <? Z.of_nat B * Z.of_nat L * c) &&
   (Z.of_nat (numel [B; L; S]) mod (Z.of_nat B * Z.of_nat L * c) =? 0))%Z = true ->
  0 < B /\ 0 < L /\ (0 < c)%Z /\
  S = Z.to_nat c * Z.to_nat (Z.of_nat (numel [B; L; S]) / (Z.of_nat B * Z.of_nat L * c)) /\
  Z.to_nat (Z.of_nat (numel [B; L; S]) / (Z.of_nat B * Z.of_nat L * c)) = S / Z.to_nat c.
Proof.
  intros H. apply andb_prop in H. destruct H as [H1 H2].
  apply Z.ltb_lt in H1. apply Z.eqb_eq in H2.
  assert (HB : 0 < B) by (destruct B; [simpl in H1; lia | lia]).
  assert (HL : 0 < L) by (destruct L; [rewrite Z.mul_0_r in H1; simpl in H1; lia | lia]).
  assert (Hc : (0 < c)%Z).
  { assert (0 < Z.of_nat B * Z.of_nat L)%Z by nia. nia. }
  repeat split; try assumption.
  - simpl numel in *. 
    apply Z.div_exact in H2; [|lia].
    set (q := (Z.of_nat (B * (L * (S * 1))) / (Z.of_nat B * Z.of_nat L * c))%Z) in *.
    assert (Hq : (0 <= q)%Z) by (apply Z.div_pos; lia).
    assert (E : (Z.of_nat S = c * q)%Z) by nia.
    apply Nat2Z.inj. rewrite Nat2Z.inj_mul, !Z2Nat.id by lia. exact E.
  - simpl numel in *.
    apply Z.div_exact in H2; [|lia].
    set (q := (Z.of_nat (B * (L * (S * 1))) / (Z.of_nat B * Z.of_nat L * c))%Z) in *.
    assert (Hq : (0 <= q)%Z) by (apply Z.div_pos; lia).
    assert (E : (Z.of_nat S = c * q)%Z) by nia.
    assert (E2 : S = Z.to_nat c * Z.to_nat q).
    { apply Nat2Z.inj. rewrite Nat2Z.inj_mul, !Z2Nat.id by lia. exact E. }
    apply Nat.div_unique_exact; [lia | exact E2].
Qed.


Lemma transpose_last2_4 (t : Tensor) (a b c d : nat) :
  shape t = [a; b; c; d] ->
  transpose_last2 t =
  Ok (of_fun [a; b; d; c]
        (fun idx => get t [nth 0 idx 0; nth 1 idx 0; nth 3 idx 0; nth 2 idx 0])).
Proof.
  intros Hs. unfold transpose_last2, permute, rank. rewrite Hs. reflexivity.
Qed.

Lemma cat_last_3 (a b : Tensor) (B L wa wb : nat) :
  shape a = [B; L; wa] -> shape b = [B; L; wb] ->
  cat_last a b =
  Ok (of_fun [B; L; wa + wb]
        (fun idx => if nth 2 idx 0 <? wa
                    then get a [nth 0 idx 0; nth 1 idx 0; nth 2 idx 0]
                    else get b [nth 0 idx 0; nth 1 idx 0; nth 2 idx 0 - wa])).
Proof.
  intros Ha Hb. unfold cat_last. rewrite Ha, Hb. simpl.
  rewrite !Nat.eqb_refl. simpl. apply f_equal.
  apply of_fun_ext. intros idx Hidx. inv_range Hidx. reflexivity.
Qed.

Lemma time_rescaled_of_fun (self : GroupLorentzConv2d) (B L n : nat) (f : list nat -> R) :
  tsqrt (time_radicand self
           (clamp_min (of_fun [B; L; n] f) (sqrt (CustomLorentz.k (manifold self))))) =
  of_fun [B; L; 1]
    (fun idx =>
       sqrt (Rsum (tab n (fun q => pow (Rmax (f [nth 0 idx 0; nth 1 idx 0; q])
                                             (sqrt (CustomLorentz.k (manifold self)))) 2))
             - IZR (kernel_len self - 1) * CustomLorentz.k (manifold self))).
Proof.
  unfold tsqrt, time_radicand, sub_scalar, tpow, clamp_min, sum_last_keepdim.
  rewrite !map_data_of_fun. simpl shape. simpl removelast. simpl last. simpl app.
  apply of_fun_ext. intros idx Hidx. inv_range Hidx.
  do 3 f_equal. apply tab_ext. intros q Hq. simpl removelast. simpl app.
  rewrite get_of_fun by in_range_tac. reflexivity.
Qed.

Lemma extract_lorentz_patches_eq (self : GroupLorentzConv2d) (P : Tensor) (B L W : nat) :
  shape P = [B; L; W] ->
  (0 <= kernel_len self)%Z -> (kernel_len self <= Z.of_nat W)%Z ->
  extract_lorentz_patches self P =
  if ((0 <? Z.of_nat B * Z.of_nat L * (in_channels self - 1)) &&
      (Z.of_nat (numel [B; L; (W - Z.to_nat (kernel_len self))%nat])
         mod (Z.of_nat B * Z.of_nat L * (in_channels self - 1)) =? 0))%Z
  then Ok (of_fun [B; L; 1 + (W - Z.to_nat (kernel_len self))] (handed_entry self P))
  else Raise RuntimeError.
Proof.
  intros Hs Hk0 HkW.
  unfold extract_lorentz_patches, patches_time.
  rewrite (narrow_last_3 P B L W 0 (kernel_len self) Hs) by lia.
  cbn [bind]. rewrite Hs. simpl last.
  rewrite (narrow_last_3 P B L W (kernel_len self) (Z.of_nat W - kernel_len self) Hs) by lia.
  cbn [bind shape of_fun].
  replace (Z.to_nat (Z.of_nat W - kernel_len self)) with (W - Z.to_nat (kernel_len self)) by lia.
  set (kln := Z.to_nat (kernel_len self)).
  set (S := W - kln).
  unfold reshape at 1. cbn [shape of_fun].
  rewrite infer_size_last.
  match goal with |- context [if ?c then Ok _ else Raise _] => destruct c eqn:Hc end;
    [|reflexivity].
  apply reshape_cond in Hc. destruct Hc as (HB & HL & Hcs & HS & Hn).
  set (nz := (Z.of_nat (numel [B; L; S]) / (Z.of_nat B * Z.of_nat L * (in_channels self - 1)))%Z) in *.
  set (n := Z.to_nat nz) in *. set (cs := Z.to_nat (in_channels self - 1)) in *.
  cbn [bind data].
  erewrite transpose_last2_4 by reflexivity. cbn [bind].
  change (map Z.of_nat [B; L; S]) with (map Z.of_nat [B; L; S]).
  rewrite (reshape_same_numel _ [B; L; S]) by (simpl; rewrite HS; ring).
  cbn [bind].
  rewrite time_rescaled_of_fun.
  erewrite cat_last_3 by reflexivity.
  apply f_equal. apply of_fun_ext. intros idx Hidx. inv_range Hidx.
  rename x into b, x0 into l, x1 into r.
  cbn [nth]. unfold handed_entry. rewrite Hs. cbn [last]. fold kln. fold S. fold cs. rewrite <- Hn.
  destruct r as [|i]; cbn [Nat.ltb Nat.leb Nat.eqb].
  - rewrite get_of_fun by in_range_tac. cbn [nth]. unfold rescaled_time. fold kln.
    do 3 f_equal.
  - replace (Datatypes.S i - 1) with i by lia.
    assert (Hi : i < cs * n) by lia.
    assert (Hcs0 : cs <> 0) by lia.
    pose proof (Nat.div_mod_eq i cs) as Hdm.
    pose proof (Nat.mod_upper_bound i cs Hcs0) as Hm.
    assert (Hq : i / cs < n) by (apply Nat.Div0.div_lt_upper_bound; lia).
    rewrite (Nat.mul_comm cs (i / cs)) in Hdm.
    rewrite Hdm at 1.
    rewrite HS at 1. rewrite (Nat.mul_comm cs n).
    rewrite get_mk_3_4. 
    unfold get at 1. cbn [shape data of_fun]. rewrite nth_build by in_range_tac. cbn [nth].
    rewrite <- (get_mk_3_4 _ B L cs n b l (i mod cs) (i / cs)).
    unfold get at 1. cbn [shape data of_fun]. rewrite <- HS.
    rewrite nth_build by (in_range_tac; nia).
    cbn [nth]. f_equal. f_equal. f_equal. f_equal. lia.
Qed.
End Reassembly.

(** ** Construction *)

Section Construction.

Context {host : Host}.

Lemma supported_dec (iss oss : Z) : {supported iss oss} + {~ supported iss oss}.
Proof.
  unfold supported.
  destruct (Z.eq_dec iss 1), (Z.eq_dec iss 4), (Z.eq_dec iss 8),
           (Z.eq_dec oss 4), (Z.eq_dec oss 8); subst;
    try (left; tauto);
    right; intros [H|[H|[H|H]]]; inversion H; congruence.
Qed.

Lemma dict_get_supported (iss oss : Z) :
  supported iss oss ->
  exists f, dict_get make_indices_functions (iss, oss) = Ok f.
Proof.
  intros [H|[H|[H|H]]]; inversion H; subst; eexists; reflexivity.
Qed.

Lemma dict_get_unsupported (iss oss : Z) :
  ~ supported iss oss ->
  dict_get make_indices_functions (iss, oss) = Raise KeyError.
Proof.
  intros H. unfold dict_get, make_indices_functions, key_eqb, supported in *.
  cbn [find fst snd].
  destruct (Z.eqb_spec 1 iss), (Z.eqb_spec 4 iss), (Z.eqb_spec 8 iss),
           (Z.eqb_spec 4 oss), (Z.eqb_spec 8 oss);
    cbn [andb]; try reflexivity; try lia; exfalso; apply H; subst; auto 10.
Qed.

Lemma reset_parameters_Ok (self : GroupLorentzConv2d) (g : Generator) :
  (0 < (in_channels self - 1) * fst (kernel_size self) * snd (kernel_size self))%Z ->
  exists lk g', reset_parameters self g = Ok (set_linearized_kernel self lk, g').
Proof.
  intros H. unfold reset_parameters.
  destruct (Z.eqb_spec ((in_channels self - 1) * fst (kernel_size self)
                        * snd (kernel_size self)) 0); [lia|].
  destruct (Z.ltb_spec ((in_channels self - 1) * fst (kernel_size self)
                        * snd (kernel_size self)) 0); [lia|].
  destruct (weight_uniform_ _ _ _ _) as [lk g1].
  destruct (if bias self then _ else _) as [lk2 g2].
  eauto.
Qed.

Lemma reset_parameters_inv (self self' : GroupLorentzConv2d) (g g' : Generator) :
  reset_parameters self g = Ok (self', g') ->
  (0 < (in_channels self - 1) * fst (kernel_size self) * snd (kernel_size self))%Z /\
  exists lk, self' = set_linearized_kernel self lk.
Proof.
  unfold reset_parameters.
  destruct (Z.eqb_spec ((in_channels self - 1) * fst (kernel_size self)
                        * snd (kernel_size self)) 0); [discriminate|].
  destruct (Z.ltb_spec ((in_channels self - 1) * fst (kernel_size self)
                        * snd (kernel_size self)) 0); [discriminate|].
  destruct (weight_uniform_ _ _ _ _) as [lk g1].
  destruct (if bias self then _ else _) as [lk2 g2].
  intros Hret; inversion Hret; subst. split; [lia | eauto].
Qed.

(** A layer that [__init__] returns carries its arguments, a supported
    pair and a positive fan-in. *)
Lemma init_inv (a : init_args) (g g' : Generator) (self : GroupLorentzConv2d) :
  init a g = Ok (self, g') ->
  supported (arg_input_stabilizer_size a) (arg_output_stabilizer_size a) /\
  (0 < fan_in a)%Z /\
  consistent self /\
  input_stabilizer_size self = arg_input_stabilizer_size a /\
  output_stabilizer_size self = arg_output_stabilizer_size a /\
  manifold self = arg_manifold a /\
  in_channels self = arg_in_channels a /\
  out_channels self = arg_out_channels a /\
  kernel_size self = as_pair (arg_kernel_size a) /\
  padding self = as_pair (arg_padding a) /\
  stride self = as_pair (arg_stride a) /\
  dilation self = as_pair (arg_dilation a) /\
  bias self = arg_bias a.
Proof.
  unfold init. intros H.
  apply bind_Ok_inv in H. destruct H as ([self1 g1] & Hr & H).
  apply bind_Ok_inv in H. destruct H as (i & Hi & H).
  inversion H; subst; clear H.
  apply reset_parameters_inv in Hr. destruct Hr as (Hn & lk & ->).
  cbn in Hn.
  split.
  { destruct (supported_dec (arg_input_stabilizer_size a) (arg_output_stabilizer_size a))
      as [Hs|Hs]; [exact Hs|].
    unfold make_transformation_indices in Hi. cbn in Hi.
    rewrite (dict_get_unsupported _ _ Hs) in Hi. discriminate. }
  split; [exact Hn|].
  unfold consistent. cbn. repeat split; reflexivity.
Qed.

Lemma init_Ok (a : init_args) (g : Generator) :
  supported (arg_input_stabilizer_size a) (arg_output_stabilizer_size a) ->
  (0 < fan_in a)%Z ->
  exists self g', init a g = Ok (self, g').
Proof.
  intros Hs Hn. unfold init.
  match goal with
  | |- context [reset_parameters ?s g] =>
    destruct (reset_parameters_Ok s g Hn) as (lk & g1 & ->)
  end.
  cbn [bind]. unfold make_transformation_indices. cbn.
  destruct (dict_get_supported _ _ Hs) as (f & ->). cbn. eauto.
Qed.

Lemma init_unsupported (a : init_args) (g : Generator) :
  ~ supported (arg_input_stabilizer_size a) (arg_output_stabilizer_size a) ->
  raises (init a g) /\ ((0 < fan_in a)%Z -> init a g = Raise KeyError).
Proof.
  intros Hs. split.
  - destruct (init a g) as [[self g']|e] eqn:E; [|unfold raises; eauto].
    apply init_inv in E. tauto.
  - intros Hn. unfold init.
    match goal with
    | |- context [reset_parameters ?s g] =>
      destruct (reset_parameters_Ok s g Hn) as (lk & g1 & ->)
    end.
    cbn [bind]. unfold make_transformation_indices. cbn.
    now rewrite (dict_get_unsupported _ _ Hs).
Qed.

End Construction.

(** ** The forward pass in terms of its stages *)

Section ForwardStages.

Context {host : Host}.

Lemma unfold_accepts_inv (u : Unfold) (B H W C : nat) :
  unfold_accepts u [B; H; W; C] = true ->
  (0 < fst (u_kernel_size u))%Z /\ (0 < snd (u_kernel_size u))%Z /\
  (0 < fst (u_stride u))%Z /\ (0 < snd (u_stride u))%Z /\
  0 < C /\ 0 < H /\ 0 < W /\
  (1 <= blocks_h u H)%Z /\ (1 <= blocks_w u W)%Z.
Proof.
  unfold unfold_accepts, unfold_params_ok. intros Hacc.
  repeat match goal with
         | H : _ && _ = true |- _ => apply andb_prop in H; destruct H
         | H : negb _ = true |- _ => apply negb_true_iff in H
         | H : _ || _ = false |- _ => apply orb_false_elim in H; destruct H
         | H : (_ <? _)%Z = true |- _ => apply Z.ltb_lt in H
         | H : (_ <? _)%Z = false |- _ => apply Z.ltb_ge in H
         | H : (_ =? _) = false |- _ => apply Nat.eqb_neq in H
         end.
  repeat split; lia.
Qed.

Lemma klen_of_nat (u : Unfold) :
  (0 < fst (u_kernel_size u))%Z -> (0 < snd (u_kernel_size u))%Z ->
  Z.of_nat (klen u) = (fst (u_kernel_size u) * snd (u_kernel_size u))%Z /\ 0 < klen u.
Proof.
  intros H1 H2. unfold klen. split; [|nia].
  rewrite Nat2Z.inj_mul, !Z2Nat.id by lia. reflexivity.
Qed.

Lemma forward_accepted (self : GroupLorentzConv2d) (x : Tensor) (B H W C : nat) :
  consistent self ->
  shape x = [B; H; W; C] ->
  unfold_accepts (unfold_ self) [B; H; W; C] = true ->
  small_h self H -> small_w self W ->
  forward self x =
  (ppk <- patches_pre_kernel self x ;;
   out <- LFC_call (linearized_kernel self) ppk ;;
   out <- view out [Z.of_nat B; output_stabilizer_size self;
                    blocks_h (unfold_ self) H; blocks_w (unfold_ self) W;
                    out_channels self] ;;
   Ok (out, [("final"%string, shape out)])).
Proof.
  intros [Hkl Hu] Hs Hacc Hsmh Hsmw.
  pose proof (unfold_accepts_inv _ _ _ _ _ Hacc) as (Hkh & Hkw & Hsh & Hsw & _).
  unfold forward, h_out, w_out, patches_pre_kernel. rewrite Hs.
  rewrite Hu in Hsh, Hsw. cbn [u_stride] in Hsh, Hsw.
  rewrite !out_size_exact by (assumption || lia). cbn [bind].
  unfold blocks_h, blocks_w. rewrite Hu. cbn [u_kernel_size u_dilation u_padding u_stride].
  destruct (extract_patches self x); cbn [bind]; reflexivity.
Qed.

Lemma forward_rejected (self : GroupLorentzConv2d) (x : Tensor) :
  unfold_accepts (unfold_ self) (shape x) = false ->
  raises (forward self x).
Proof.
  intros Hacc. unfold forward, raises.
  destruct (shape x) as [|bsz [|h [|w rest]]] eqn:Hs; eauto.
  destruct (h_out self h); cbn [bind]; eauto.
  destruct (w_out self w); cbn [bind]; eauto.
  rewrite extract_patches_eq, Hs, Hacc. cbn [bind]. eauto.
Qed.

(** The patches of an accepted input satisfy what the re-assembly needs
    of its argument. *)
Lemma patches_pre_kernel_eq (self : GroupLorentzConv2d) (x : Tensor) (B H W C : nat) :
  consistent self ->
  shape x = [B; H; W; C] ->
  unfold_accepts (unfold_ self) [B; H; W; C] = true ->
  let u := unfold_ self in
  let L := Z.to_nat (blocks_h u H) * Z.to_nat (blocks_w u W) in
  let P := of_fun [B; L; C * klen u] (window_entry u x) in
  patches_pre_kernel self x =
  if ((0 <? Z.of_nat B * Z.of_nat L * (in_channels self - 1)) &&
      (Z.of_nat (numel [B; L; (C * klen u - klen u)%nat])
         mod (Z.of_nat B * Z.of_nat L * (in_channels self - 1)) =? 0))%Z
  then Ok (of_fun [B; L; 1 + (C * klen u - klen u)] (handed_entry self P))
  else Raise RuntimeError.
Proof.
  intros [Hkl Hu] Hs Hacc u L P.
  pose proof (unfold_accepts_inv _ _ _ _ _ Hacc) as (Hkh & Hkw & _ & _ & HC & _).
  destruct (klen_of_nat _ Hkh Hkw) as [Hk Hkpos]. fold u in Hk, Hkpos.
  assert (Hkl' : kernel_len self = Z.of_nat (klen u)).
  { rewrite Hkl, Hk. unfold u. rewrite Hu. reflexivity. }
  unfold patches_pre_kernel. rewrite extract_patches_eq, Hs, Hacc. cbn [bind].
  unfold patches_shape. fold u. fold L. fold P.
  rewrite (extract_lorentz_patches_eq self P B L (C * klen u)) by (try reflexivity; nia).
  rewrite Hkl', Nat2Z.id. reflexivity.
Qed.

End ForwardStages.

(** ** The rescaled time *)

Section RescaledTime.

Context {host : Host}.

Lemma Rsum_tab_const (n : nat) (c : R) :
  Rsum (tab n (fun _ => c)) = (INR n * c)%R.
Proof.
  unfold tab. generalize 0 as s.
  induction n as [|n IH]; intros s.
  - simpl. lra.
  - rewrite S_INR. cbn [seq map Rsum fold_right]. fold (Rsum (map (fun _ : nat => c) (seq (S s) n))).
    rewrite IH. lra.
Qed.

Lemma Rsum_tab_ge (n : nat) (f : nat -> R) (c : R) :
  (forall i, i < n -> (c <= f i)%R) -> (INR n * c <= Rsum (tab n f))%R.
Proof.
  unfold tab.
  assert (G : forall s, (forall i, s <= i < s + n -> (c <= f i)%R) ->
                        (INR n * c <= Rsum (map f (seq s n)))%R).
  { induction n as [|n IH]; intros s Hf.
    - simpl. lra.
    - rewrite S_INR. cbn [seq map Rsum fold_right]. fold (Rsum (map f (seq (S s) n))).
      specialize (IH (S s)). 
      assert (c <= f s)%R by (apply Hf; lia).
      assert (INR n * c <= Rsum (map f (seq (S s) n)))%R by (apply IH; intros; apply Hf; lia).
      lra. }
  intros Hf. apply G. intros i Hi. apply Hf. lia.
Qed.

Lemma clamped_sq_ge (t k : R) : (0 <= k)%R -> (k <= Rmax t (sqrt k) ^ 2)%R.
Proof.
  intros Hk.
  pose proof (Rmax_r t (sqrt k)) as Hm.
  pose proof (sqrt_pos k) as Hp.
  pose proof (sqrt_sqrt k Hk) as Hs.
  nra.
Qed.

Lemma reshape_cond_intro (B L S : nat) (c : Z) :
  0 < B -> 0 < L -> (0 < c)%Z -> (Z.of_nat S mod c = 0)%Z ->
  ((0 <? Z.of_nat B * Z.of_nat L * c) &&
   (Z.of_nat (numel [B; L; S]) mod (Z.of_nat B * Z.of_nat L * c) =? 0))%Z = true.
Proof.
  intros HB HL Hc Hd. apply andb_true_intro. split.
  - apply Z.ltb_lt. nia.
  - apply Z.eqb_eq. apply Z.div_exact in Hd; [|lia].
    simpl numel. rewrite !Nat2Z.inj_mul. rewrite Hd.
    replace (Z.of_nat B * (Z.of_nat L * (c * (Z.of_nat S / c) * Z.of_nat 1)))%Z
      with ((Z.of_nat S / c) * (Z.of_nat B * Z.of_nat L * c))%Z by (simpl; ring).
    apply Z.mod_mul. nia.
Qed.

Lemma patches_time_eq (self : GroupLorentzConv2d) (patches : Tensor) (B L W : nat) :
  shape patches = [B; L; W] ->
  (0 <= kernel_len self <= Z.of_nat W)%Z ->
  patches_time self patches =
  Ok (of_fun [B; L; Z.to_nat (kernel_len self)]
        (fun idx => Rmax (get patches [nth 0 idx 0; nth 1 idx 0; nth 2 idx 0])
                         (sqrt (CustomLorentz.k (manifold self))))).
Proof.
  intros Hs Hk. unfold patches_time.
  rewrite (narrow_last_3 patches B L W 0 (kernel_len self) Hs) by lia.
  cbn [bind]. unfold clamp_min. rewrite map_data_of_fun. reflexivity.
Qed.

Lemma time_radicand_of_fun (self : GroupLorentzConv2d) (B L n : nat) (f : list nat -> R) :
  time_radicand self (of_fun [B; L; n] f) =
  of_fun [B; L; 1]
    (fun idx =>
       Rminus (Rsum (tab n (fun q => pow (f [nth 0 idx 0; nth 1 idx 0; q]) 2)))
              (IZR (kernel_len self - 1) * CustomLorentz.k (manifold self))%R).
Proof.
  unfold time_radicand, sub_scalar, tpow, sum_last_keepdim.
  rewrite !map_data_of_fun. simpl shape. simpl removelast. simpl last. simpl app.
  apply of_fun_ext. intros idx Hidx. inv_range Hidx.
  do 2 f_equal. apply tab_ext. intros q Hq. simpl removelast. simpl app.
  rewrite get_of_fun by in_range_tac. reflexivity.
Qed.

(** After clamping, the sum of squares is at least [kernel_len * k]. *)
Lemma radicand_ge (self : GroupLorentzConv2d) (g : nat -> R) :
  (0 <= kernel_len self)%Z ->
  (0 <= CustomLorentz.k (manifold self))%R ->
  (CustomLorentz.k (manifold self) <=
   Rsum (tab (Z.to_nat (kernel_len self))
             (fun q => Rmax (g q) (sqrt (CustomLorentz.k (manifold self))) ^ 2))
   - IZR (kernel_len self - 1) * CustomLorentz.k (manifold self))%R.
Proof.
  intros Hk Hc. set (k := CustomLorentz.k (manifold self)) in *.
  pose proof (Rsum_tab_ge (Z.to_nat (kernel_len self))
                (fun q => Rmax (g q) (sqrt k) ^ 2)%R k
                (fun i _ => clamped_sq_ge (g i) k Hc)) as Hsum.
  rewrite INR_IZR_INZ, Z2Nat.id in Hsum by lia.
  rewrite minus_IZR. lra.
Qed.

Lemma extract_lorentz_patches_Ok (self : GroupLorentzConv2d) (patches : Tensor)
    (B L W : nat) :
  shape patches = [B; L; W] ->
  (0 <= kernel_len self <= Z.of_nat W)%Z ->
  (0 < in_channels self - 1)%Z ->
  ((Z.of_nat W - kernel_len self) mod (in_channels self - 1) = 0)%Z ->
  0 < B -> 0 < L ->
  extract_lorentz_patches self patches =
  Ok (of_fun [B; L; 1 + (W - Z.to_nat (kernel_len self))] (handed_entry self patches)).
Proof.
  intros Hs Hk Hc Hd HB HL.
  rewrite (extract_lorentz_patches_eq self patches B L W Hs) by lia.
  rewrite reshape_cond_intro; try assumption; [reflexivity|].
  rewrite Nat2Z.inj_sub, Z2Nat.id by lia. exact Hd.
Qed.


(** C7 (as amended). Over the reals, that is in exact arithmetic without
    rounding: with positive curvature, after the time taps are clamped
    at sqrt k the radicand of the rescale step (sum of the squared
    clamped taps - (kernel_len - 1) * k) is at least k, hence positive,
    and the rescaled time is at least sqrt k. *)
Theorem radicand_at_least_curvature (self : GroupLorentzConv2d) (patches : Tensor)
    (B L W b l : nat) :
  shape patches = [B; L; W] ->
  (0 <= kernel_len self <= Z.of_nat W)%Z ->
  (0 < in_channels self - 1)%Z ->
  ((Z.of_nat W - kernel_len self) mod (in_channels self - 1) = 0)%Z ->
  b < B -> l < L ->
  (0 < CustomLorentz.k (manifold self))%R ->
  exists pt out,
    patches_time self patches = Ok pt /\
    extract_lorentz_patches self patches = Ok out /\
    (CustomLorentz.k (manifold self) <= get (time_radicand self pt) [b; l; 0%nat])%R /\
    (0 < get (time_radicand self pt) [b; l; 0%nat])%R /\
    get out [b; l; 0] = sqrt (get (time_radicand self pt) [b; l; 0]) /\
    (sqrt (CustomLorentz.k (manifold self)) <= get out [b; l; 0%nat])%R.
Proof.
  intros Hs Hk Hc Hd Hb Hl Hpos.
  set (k := CustomLorentz.k (manifold self)) in *.
  eexists. eexists.
  split; [apply (patches_time_eq self patches B L W Hs Hk)|].
  split; [apply (extract_lorentz_patches_Ok self patches B L W Hs Hk Hc Hd); lia|].
  rewrite time_radicand_of_fun.
  rewrite !get_of_fun by in_range_tac. cbn [nth].
  assert (Hr : (k <= Rsum (tab (Z.to_nat (kernel_len self))
                            (fun q => Rmax (get patches [b; l; q]) (sqrt k) ^ 2))
                    - IZR (kernel_len self - 1) * k)%R).
  { apply (radicand_ge self (fun q => get patches [b; l; q])); [lia | unfold k in *; lra]. }
  split; [exact Hr|].
  split; [apply Rlt_le_trans with k; [exact Hpos | exact Hr]|].
  split; [reflexivity|].
  unfold handed_entry, rescaled_time. cbn [Nat.eqb]. fold k.
  apply sqrt_le_1_alt. exact Hr.
Qed.

End RescaledTime.

(** ** Layout of the spatial block *)

Section Layout.

Context {host : Host}.

(** For an input with the configured number of channels, position
    [1 + t * (C - 1) + c] of the handed vector holds tap [t] of spatial
    channel [c + 1], which patch extraction had put at position
    [(c + 1) * klen + t]. *)
Lemma handed_layout (self : GroupLorentzConv2d) (x : Tensor) (B H W C b l c t : nat) :
  consistent self ->
  shape x = [B; H; W; C] ->
  Z.of_nat C = in_channels self ->
  unfold_accepts (unfold_ self) [B; H; W; C] = true ->
  b < B ->
  l < Z.to_nat (blocks_h (unfold_ self) H) * Z.to_nat (blocks_w (unfold_ self) W) ->
  c < C - 1 -> t < klen (unfold_ self) ->
  exists patches handed,
    extract_patches self x = Ok patches /\
    patches_pre_kernel self x = Ok handed /\
    get patches [b; l; (c + 1) * klen (unfold_ self) + t] =
      window_tap (unfold_ self) x b l (c + 1) t /\
    get handed [b; l; 1 + t * (C - 1) + c] =
      window_tap (unfold_ self) x b l (c + 1) t.
Proof.
  intros Hcons Hs HC Hacc Hb Hl Hc Ht.
  pose proof (unfold_accepts_inv _ _ _ _ _ Hacc) as (Hkh & Hkw & _ & _ & HCpos & _).
  destruct (klen_of_nat _ Hkh Hkw) as [Hk Hkpos].
  set (u := unfold_ self) in *. set (K := klen u) in *.
  set (L := Z.to_nat (blocks_h u H) * Z.to_nat (blocks_w u W)) in *.
  assert (Hwin : forall r, r < C * K ->
            get (of_fun [B; L; C * K] (window_entry u x)) [b; l; r] =
            window_tap u x b l (r / K) (r mod K)).
  { intros r Hr. rewrite get_of_fun by in_range_tac. reflexivity. }
  assert (Hdiv : ((c + 1) * K + t) / K = c + 1).
  { rewrite Nat.add_comm, Nat.div_add by lia. rewrite Nat.div_small by lia. reflexivity. }
  assert (Hmod : ((c + 1) * K + t) mod K = t).
  { rewrite Nat.add_comm, Nat.Div0.mod_add. apply Nat.mod_small. lia. }
  exists (of_fun [B; L; C * K] (window_entry u x)).
  eexists.
  split.
  { rewrite extract_patches_eq, Hs. fold u. rewrite Hacc. reflexivity. }
  split.
  { rewrite (patches_pre_kernel_eq self x B H W C Hcons Hs Hacc).
    fold u. fold K. fold L.
    rewrite reshape_cond_intro; [reflexivity | lia | lia | lia |].
    rewrite <- HC.
    replace (C * K - K) with ((C - 1) * K) by nia.
    replace (Z.of_nat C - 1)%Z with (Z.of_nat (C - 1)) by lia.
    rewrite Nat.mul_comm, Nat2Z.inj_mul. apply Z.mod_mul. lia. }
  split.
  { rewrite Hwin by nia. now rewrite Hdiv, Hmod. }
  rewrite get_of_fun by (in_range_tac; nia).
  unfold handed_entry. cbn [shape of_fun last].
  destruct Hcons as [Hkl Hu].
  assert (Hkl' : Z.to_nat (kernel_len self) = K).
  { rewrite Hkl. unfold K, klen, u. rewrite Hu. cbn [u_kernel_size].
    rewrite Z2Nat.inj_mul; [reflexivity| |];
      unfold u in Hkh, Hkw; rewrite Hu in Hkh, Hkw; cbn [u_kernel_size] in Hkh, Hkw; lia. }
  rewrite Hkl', <- HC.
  replace (Z.to_nat (Z.of_nat C - 1)) with (C - 1) by lia.
  change (1 + t * (C - 1) + c) with (S (t * (C - 1) + c)).
  cbn [Nat.eqb Nat.sub]. rewrite Nat.sub_0_r.
  replace ((C * K - K) / (C - 1)) with K
    by (replace (C * K - K) with (K * (C - 1)) by nia; rewrite Nat.div_mul by lia; reflexivity).
  rewrite (Nat.add_comm (t * (C - 1)) c), Nat.Div0.mod_add, Nat.div_add by lia.
  rewrite Nat.mod_small, Nat.div_small by lia. cbn [Nat.add].
  replace (K + c * K + t) with ((c + 1) * K + t) by lia.
  rewrite Hwin by nia. now rewrite Hdiv, Hmod.
Qed.

(** C3 (as amended). For a layer built by the constructor and an input
    with the configured number of channels, patch extraction delivers
    the spatial entries channel-major and extract_lorentz_patches hands
    them on tap-major: position 1 + t * (in_channels - 1) + c of the
    handed vector holds tap t of spatial channel c + 1, so that for each
    fixed tap all spatial channels are contiguous. *)
Theorem spatial_block_is_tap_major (a : init_args) (g g' : Generator)
    (self : GroupLorentzConv2d) (x : Tensor) (B H W C b l c t : nat) :
  init a g = Ok (self, g') ->
  shape x = [B; H; W; C] ->
  Z.of_nat C = in_channels self ->
  unfold_accepts (unfold_ self) [B; H; W; C] = true ->
  b < B ->
  l < Z.to_nat (blocks_h (unfold_ self) H) * Z.to_nat (blocks_w (unfold_ self) W) ->
  c < C - 1 -> t < klen (unfold_ self) ->
  exists patches handed,
    extract_patches self x = Ok patches /\
    patches_pre_kernel self x = Ok handed /\
    get patches [b; l; (c + 1) * klen (unfold_ self) + t] =
      window_tap (unfold_ self) x b l (c + 1) t /\
    get handed [b; l; 1 + t * (C - 1) + c] =
      window_tap (unfold_ self) x b l (c + 1) t.
Proof.
  intros Hinit. apply init_inv in Hinit. destruct Hinit as (_ & _ & Hcons & _).
  now apply handed_layout.
Qed.

End Layout.


(** ** Clamping of the time taps *)

Section Clamping.

Context {host : Host}.

(** The re-assembly sees the time taps only through the clamp. *)
Lemma extract_lorentz_patches_congr (self : GroupLorentzConv2d) (P P' : Tensor)
    (B L W : nat) :
  shape P = [B; L; W] -> shape P' = [B; L; W] ->
  (0 <= kernel_len self <= Z.of_nat W)%Z ->
  (forall b l q, b < B -> l < L -> q < Z.to_nat (kernel_len self) ->
     Rmax (get P [b; l; q]) (sqrt (CustomLorentz.k (manifold self))) =
     Rmax (get P' [b; l; q]) (sqrt (CustomLorentz.k (manifold self)))) ->
  (forall b l r, b < B -> l < L -> Z.to_nat (kernel_len self) <= r < W ->
     get P [b; l; r] = get P' [b; l; r]) ->
  extract_lorentz_patches self P = extract_lorentz_patches self P'.
Proof.
  intros Hs Hs' Hk Htime Hspace.
  unfold extract_lorentz_patches.
  rewrite (patches_time_eq self P B L W Hs Hk), (patches_time_eq self P' B L W Hs' Hk).
  rewrite Hs, Hs'. cbn [last bind].
  rewrite (narrow_last_3 P B L W (kernel_len self) (Z.of_nat W - kernel_len self) Hs) by lia.
  rewrite (narrow_last_3 P' B L W (kernel_len self) (Z.of_nat W - kernel_len self) Hs') by lia.
  replace (of_fun [B; L; Z.to_nat (kernel_len self)]
             (fun idx => Rmax (get P' [nth 0 idx 0; nth 1 idx 0; nth 2 idx 0])
                              (sqrt (CustomLorentz.k (manifold self)))))
    with (of_fun [B; L; Z.to_nat (kernel_len self)]
             (fun idx => Rmax (get P [nth 0 idx 0; nth 1 idx 0; nth 2 idx 0])
                              (sqrt (CustomLorentz.k (manifold self))))).
  2:{ apply of_fun_ext. intros idx Hidx. inv_range Hidx. cbn [nth]. now apply Htime. }
  replace (of_fun [B; L; Z.to_nat (Z.of_nat W - kernel_len self)]
             (fun idx => get P' [nth 0 idx 0; nth 1 idx 0;
                                  Z.to_nat (kernel_len self) + nth 2 idx 0]))
    with (of_fun [B; L; Z.to_nat (Z.of_nat W - kernel_len self)]
             (fun idx => get P [nth 0 idx 0; nth 1 idx 0;
                                 Z.to_nat (kernel_len self) + nth 2 idx 0])).
  2:{ apply of_fun_ext. intros idx Hidx. inv_range Hidx. cbn [nth]. apply Hspace; lia. }
  reflexivity.
Qed.

Lemma unfold_accepts_rank (u : Unfold) (s : list nat) :
  unfold_accepts u s = true -> exists B H W C, s = [B; H; W; C].
Proof.
  destruct s as [|B [|H [|W [|C [|? ?]]]]]; cbn; try discriminate. eauto.
Qed.

Lemma forward_stages (self : GroupLorentzConv2d) (x : Tensor) :
  forward self x =
  match shape x with
  | [] => Raise IndexError
  | bsz :: hw =>
    match hw with
    | h :: w :: _ =>
      ho <- h_out self h ;;
      wo <- w_out self w ;;
      ppk <- patches_pre_kernel self x ;;
      out <- LFC_call (linearized_kernel self) ppk ;;
      out <- view out [Z.of_nat bsz; output_stabilizer_size self; ho; wo;
                       out_channels self] ;;
      Ok (out, [("final"%string, shape out)])
    | _ => Raise ValueError
    end
  end.
Proof.
  unfold forward, patches_pre_kernel.
  destruct (shape x) as [|bsz [|h [|w rest]]]; try reflexivity.
  destruct (h_out self h); [|reflexivity].
  destruct (w_out self w); [|reflexivity].
  cbn [bind]. destruct (extract_patches self x); reflexivity.
Qed.

(** Two inputs that agree on the spatial channels and, after the clamp,
    on the time channel, are not told apart by [forward]. *)
Lemma forward_congr (self : GroupLorentzConv2d) (x x' : Tensor) :
  consistent self ->
  shape x' = shape x ->
  (forall b i j c, in_range [b; i; j; c] (shape x) -> c <> 0 ->
     get x' [b; i; j; c] = get x [b; i; j; c]) ->
  (forall b i j, in_range [b; i; j; 0] (shape x) ->
     Rmax (get x' [b; i; j; 0]) (sqrt (CustomLorentz.k (manifold self))) =
     Rmax (get x [b; i; j; 0]) (sqrt (CustomLorentz.k (manifold self)))) ->
  forward self x' = forward self x.
Proof.
  intros Hcons Hsh Hspace Htime.
  assert (Hpp : patches_pre_kernel self x' = patches_pre_kernel self x).
  { unfold patches_pre_kernel. rewrite !extract_patches_eq, Hsh.
    destruct (unfold_accepts (unfold_ self) (shape x)) eqn:Hacc; [|reflexivity].
    destruct (unfold_accepts_rank _ _ Hacc) as (B & H & W & C & Hs).
    rewrite Hs in *.
    pose proof (unfold_accepts_inv _ _ _ _ _ Hacc)
      as (Hkh & Hkw & _ & _ & HC & _ & _ & _ & _).
    destruct (klen_of_nat _ Hkh Hkw) as [Hk Hkpos].
    set (u := unfold_ self) in *. set (K := klen u) in *.
    assert (Hkl : kernel_len self = Z.of_nat K).
    { destruct Hcons as [Hkl Hu]. rewrite Hkl, Hk. unfold u. rewrite Hu. reflexivity. }
    cbn [bind]. unfold patches_shape. fold u. fold K.
    set (L := Z.to_nat (blocks_h u H) * Z.to_nat (blocks_w u W)).
    assert (Hwin : forall (y : Tensor) b l r, b < B -> l < L -> r < C * K ->
              get (of_fun [B; L; C * K] (window_entry u y)) [b; l; r] =
              window_tap u y b l (r / K) (r mod K)).
    { intros y b l r Hb Hl Hr. rewrite get_of_fun by in_range_tac. reflexivity. }
    apply (extract_lorentz_patches_congr self _ _ B L (C * K)); try reflexivity.
    - rewrite Hkl. nia.
    - intros b l q Hb Hl Hq. rewrite Hkl, Nat2Z.id in Hq.
      rewrite !Hwin by nia. rewrite Nat.div_small, Nat.mod_small by lia.
      unfold window_tap. rewrite Hsh, Hs.
      match goal with |- context [if ?c then _ else _] => destruct c eqn:Hin end;
        [|reflexivity].
      apply andb_prop in Hin; destruct Hin as [Hin Hi4].
      apply andb_prop in Hin; destruct Hin as [Hin Hi3].
      apply andb_prop in Hin; destruct Hin as [Hi1 Hi2].
      apply Z.leb_le in Hi1, Hi3. apply Z.ltb_lt in Hi2, Hi4.
      apply Htime. in_range_tac.
    - intros b l r Hb Hl Hr. rewrite Hkl, Nat2Z.id in Hr.
      rewrite !Hwin by lia.
      assert (Hch : r / K <> 0).
      { intros E. apply Nat.div_small_iff in E; lia. }
      assert (Hch' : r / K < C) by (apply div_lt_mul; lia).
      unfold window_tap. rewrite Hsh, Hs.
      match goal with |- context [if ?c then _ else _] => destruct c eqn:Hin end;
        [|reflexivity].
      apply andb_prop in Hin; destruct Hin as [Hin Hi4].
      apply andb_prop in Hin; destruct Hin as [Hin Hi3].
      apply andb_prop in Hin; destruct Hin as [Hi1 Hi2].
      apply Z.leb_le in Hi1, Hi3. apply Z.ltb_lt in Hi2, Hi4.
      apply Hspace; [in_range_tac | exact Hch]. }
  rewrite !forward_stages, Hsh, Hpp. reflexivity.
Qed.

Lemma get_put (x : Tensor) (at_ idx : list nat) (v : R) :
  in_range idx (shape x) ->
  get (put x at_ v) idx = if list_eq_dec Nat.eq_dec idx at_ then v else get x idx.
Proof. intros H. unfold put. now rewrite get_of_fun. Qed.

(** C6. A time tap below sqrt k is floored to exactly sqrt k by the
    clamp of line 139, so that replacing in the input a time value that
    is at most sqrt k (for instance sqrt k - epsilon) by sqrt k does not
    change what forward returns. *)
Theorem clamp_floors_time_taps (a : init_args) (g g' : Generator)
    (self : GroupLorentzConv2d) (x : Tensor) (b i j : nat) :
  init a g = Ok (self, g') ->
  (get x [b; i; j; 0%nat] <= sqrt (CustomLorentz.k (manifold self)))%R ->
  (forall patches B L W p l q,
     shape patches = [B; L; W] ->
     (0 <= kernel_len self <= Z.of_nat W)%Z ->
     p < B -> l < L -> q < Z.to_nat (kernel_len self) ->
     (get patches [p; l; q] <= sqrt (CustomLorentz.k (manifold self)))%R ->
     exists pt, patches_time self patches = Ok pt /\
                get pt [p; l; q] = sqrt (CustomLorentz.k (manifold self))) /\
  forward self (put x [b; i; j; 0] (sqrt (CustomLorentz.k (manifold self)))) =
  forward self x.
Proof.
  intros Hinit Hlow. apply init_inv in Hinit. destruct Hinit as (_ & _ & Hcons & _).
  split.
  - intros patches B L W p l q Hs Hk Hp Hl Hq Hle.
    eexists. split; [apply (patches_time_eq self patches B L W Hs Hk)|].
    rewrite get_of_fun by in_range_tac. cbn [nth]. now apply Rmax_right.
  - apply forward_congr; [exact Hcons | reflexivity | |].
    + intros b0 i0 j0 c Hr Hc. rewrite get_put by exact Hr.
      destruct (list_eq_dec Nat.eq_dec [b0; i0; j0; c] [b; i; j; 0]) as [E|_];
        [inversion E; contradiction | reflexivity].
    + intros b0 i0 j0 Hr. rewrite get_put by exact Hr.
      destruct (list_eq_dec Nat.eq_dec [b0; i0; j0; 0] [b; i; j; 0]) as [E|_];
        [|reflexivity].
      inversion E; subst.
      rewrite (Rmax_right (get x [b; i; j; 0])) by exact Hlow.
      apply Rmax_left. lra.
Qed.

End Clamping.

(** ** Shape of the result *)

Section OutputShape.

Context {host : Host}.

Lemma blocks_spec_out_size (dim pad dil ker str : Z) :
  blocks dim pad dil ker str = spec_out_size dim pad dil ker str.
Proof. unfold blocks, spec_out_size. do 2 f_equal. lia. Qed.

Lemma blocks_h_height_out (self : GroupLorentzConv2d) (H : nat) :
  consistent self -> blocks_h (unfold_ self) H = height_out self H.
Proof.
  intros [_ Hu]. unfold blocks_h, height_out. rewrite Hu. apply blocks_spec_out_size.
Qed.

Lemma blocks_w_width_out (self : GroupLorentzConv2d) (W : nat) :
  consistent self -> blocks_w (unfold_ self) W = width_out self W.
Proof.
  intros [_ Hu]. unfold blocks_w, width_out. rewrite Hu. apply blocks_spec_out_size.
Qed.

Lemma h_out_height_out (self : GroupLorentzConv2d) (h : nat) :
  fst (stride self) <> 0%Z -> small_h self h -> h_out self h = Ok (height_out self h).
Proof.
  intros Hs Hsm. unfold h_out, height_out.
  rewrite out_size_exact by assumption. now rewrite blocks_spec_out_size.
Qed.

Lemma w_out_width_out (self : GroupLorentzConv2d) (w : nat) :
  snd (stride self) <> 0%Z -> small_w self w -> w_out self w = Ok (width_out self w).
Proof.
  intros Hs Hsm. unfold w_out, width_out.
  rewrite out_size_exact by assumption. now rewrite blocks_spec_out_size.
Qed.

(** Every size that was requested explicitly is the size obtained. *)
Lemma infer_size_nth (dims : list Z) (n : nat) (s : list nat) (i : nat) (d : Z) :
  infer_size dims n = Ok s ->
  nth_error dims i = Some d -> (0 <= d)%Z ->
  nth i s 0 = Z.to_nat d.
Proof.
  unfold infer_size. intros Hinf Hd Hpos.
  destruct (existsb _ dims); [discriminate|].
  destruct (1 <? _); [discriminate|].
  destruct (_ || _); [|discriminate].
  destruct (_ =? 1).
  - destruct (_ =? 0)%Z; [discriminate|]. inversion Hinf; subst; clear Hinf.
    erewrite nth_indep
      by (rewrite length_map; apply nth_error_Some; rewrite Hd; discriminate).
    rewrite (map_nth (fun d => if (d =? -1)%Z then _ else Z.to_nat d) dims 0%Z).
    rewrite (nth_error_nth _ _ _ Hd).
    destruct (Z.eqb_spec d (-1)); [lia | reflexivity].
  - inversion Hinf; subst; clear Hinf.
    erewrite nth_indep
      by (rewrite length_map; apply nth_error_Some; rewrite Hd; discriminate).
    rewrite (map_nth Z.to_nat dims 0%Z).
    now rewrite (nth_error_nth _ _ _ Hd).
Qed.

Lemma patches_pre_kernel_Ok_accepts (self : GroupLorentzConv2d) (x ppk : Tensor) :
  patches_pre_kernel self x = Ok ppk ->
  unfold_accepts (unfold_ self) (shape x) = true.
Proof.
  unfold patches_pre_kernel. rewrite extract_patches_eq.
  destruct (unfold_accepts (unfold_ self) (shape x)); [reflexivity | discriminate].
Qed.

(** What the stages of a returning [forward] returned. *)
Lemma forward_Ok_inv (self : GroupLorentzConv2d) (x out : Tensor) (tr : stdout)
    (B H W C : nat) :
  consistent self ->
  shape x = [B; H; W; C] ->
  small_h self H -> small_w self W ->
  forward self x = Ok (out, tr) ->
  unfold_accepts (unfold_ self) [B; H; W; C] = true /\
  exists ppk o,
    patches_pre_kernel self x = Ok ppk /\
    LFC_call (linearized_kernel self) ppk = Ok o /\
    view o [Z.of_nat B; output_stabilizer_size self; height_out self H;
            width_out self W; out_channels self] = Ok out /\
    tr = [("final"%string, shape out)].
Proof.
  intros Hcons Hs Hsmh Hsmw Hf.
  rewrite forward_stages, Hs in Hf.
  apply bind_Ok_inv in Hf. destruct Hf as (ho & Hho & Hf).
  apply bind_Ok_inv in Hf. destruct Hf as (wo & Hwo & Hf).
  apply bind_Ok_inv in Hf. destruct Hf as (ppk & Hppk & Hf).
  apply bind_Ok_inv in Hf. destruct Hf as (o & Ho & Hf).
  apply bind_Ok_inv in Hf. destruct Hf as (out' & Hv & Hf).
  inversion Hf; subst; clear Hf.
  pose proof (patches_pre_kernel_Ok_accepts _ _ _ Hppk) as Hacc. rewrite Hs in Hacc.
  split; [exact Hacc|].
  pose proof (unfold_accepts_inv _ _ _ _ _ Hacc) as (_ & _ & Hsh & Hsw & _).
  destruct Hcons as [Hkl Hu]. rewrite Hu in Hsh, Hsw. cbn [u_stride] in Hsh, Hsw.
  rewrite h_out_height_out in Hho by (assumption || lia).
  rewrite w_out_width_out in Hwo by (assumption || lia).
  inversion Hho; inversion Hwo; subst.
  exists ppk, o. auto.
Qed.

Lemma supported_oss_nonneg (iss oss : Z) : supported iss oss -> (0 <= oss)%Z.
Proof. intros [H|[H|[H|H]]]; inversion H; lia. Qed.

(** C5 (as amended). Where the dividend dim + 2*padding -
    dilation*(kernel - 1) - 1 and the stride are below 2^50 in magnitude,
    forward computes height_out and width_out independently by
    floor((dim + 2*padding - dilation*(kernel - 1) - 1)/stride + 1), and
    these are the third and fourth sizes of what it returns; for a
    32 x 32 input, kernel 3, stride 1, padding 0 and dilation 1 give
    30 x 30, and kernel 3, stride 2, padding 1 and dilation 1 give
    16 x 16. *)
Theorem output_size_formula :
  (forall (self : GroupLorentzConv2d) (h w : nat),
      fst (stride self) <> 0%Z -> snd (stride self) <> 0%Z ->
      small_h self h -> small_w self w ->
      h_out self h = Ok (height_out self h) /\
      w_out self w = Ok (width_out self w)) /\
  (forall (a : init_args) (g g' : Generator) (self : GroupLorentzConv2d)
          (x out : Tensor) (tr : stdout) (B H W C : nat),
      init a g = Ok (self, g') ->
      shape x = [B; H; W; C] ->
      small_h self H -> small_w self W ->
      forward self x = Ok (out, tr) ->
      nth 2 (shape out) 0 = Z.to_nat (height_out self H) /\
      nth 3 (shape out) 0 = Z.to_nat (width_out self W)) /\
  (forall self : GroupLorentzConv2d,
      kernel_size self = (3, 3)%Z -> stride self = (1, 1)%Z ->
      padding self = (0, 0)%Z -> dilation self = (1, 1)%Z ->
      h_out self 32 = Ok 30%Z /\ w_out self 32 = Ok 30%Z) /\
  (forall self : GroupLorentzConv2d,
      kernel_size self = (3, 3)%Z -> stride self = (2, 2)%Z ->
      padding self = (1, 1)%Z -> dilation self = (1, 1)%Z ->
      h_out self 32 = Ok 16%Z /\ w_out self 32 = Ok 16%Z).
Proof.
  split; [|split; [|split]].
  - intros self h w Hh Hw Hsmh Hsmw.
    split; [now apply h_out_height_out | now apply w_out_width_out].
  - intros a g g' self x out tr B H W C Hinit Hs Hsmh Hsmw Hf.
    apply init_inv in Hinit. destruct Hinit as (_ & _ & Hcons & _).
    destruct (forward_Ok_inv self x out tr B H W C Hcons Hs Hsmh Hsmw Hf)
      as (Hacc & ppk & o & _ & _ & Hv & _).
    pose proof (unfold_accepts_inv _ _ _ _ _ Hacc) as (_ & _ & _ & _ & _ & _ & _ & Hbh & Hbw).
    rewrite (blocks_h_height_out self H Hcons) in Hbh.
    rewrite (blocks_w_width_out self W Hcons) in Hbw.
    unfold view, reshape in Hv.
    apply bind_Ok_inv in Hv. destruct Hv as (s & Hinf & Hv).
    inversion Hv; subst; clear Hv. cbn [shape].
    split.
    + apply (infer_size_nth _ _ _ 2 _ Hinf); [reflexivity | lia].
    + apply (infer_size_nth _ _ _ 3 _ Hinf); [reflexivity | lia].
  - intros self Hk Hst Hp Hd. unfold h_out, w_out.
    rewrite Hk, Hst, Hp, Hd. split; reflexivity.
  - intros self Hk Hst Hp Hd. unfold h_out, w_out.
    rewrite Hk, Hst, Hp, Hd. split; reflexivity.
Qed.

End OutputShape.

(** ** The reshape at the end of [forward] *)

Section FinalView.

Context {host : Host}.

Lemma extract_patches_shape (self : GroupLorentzConv2d) (x patches : Tensor)
    (B H W C : nat) :
  consistent self ->
  shape x = [B; H; W; C] ->
  extract_patches self x = Ok patches ->
  shape patches =
  [B; Z.to_nat (height_out self H) * Z.to_nat (width_out self W);
   C * klen (unfold_ self)].
Proof.
  intros Hcons Hs. rewrite extract_patches_eq, Hs.
  destruct (unfold_accepts _ _); [|discriminate].
  intros E; inversion E; subst; clear E. cbn [shape of_fun patches_shape].
  now rewrite blocks_h_height_out, blocks_w_width_out.
Qed.

(** The requested shape of line 131 for a layer the constructor built
    and an input that patch extraction accepts. *)
Lemma final_dims_nonneg (a : init_args) (g g' : Generator) (self : GroupLorentzConv2d)
    (B H W C : nat) :
  init a g = Ok (self, g') ->
  unfold_accepts (unfold_ self) [B; H; W; C] = true ->
  (0 <= out_channels self)%Z ->
  Forall (fun d => (0 <= d)%Z)
         [Z.of_nat B; output_stabilizer_size self; height_out self H;
          width_out self W; out_channels self].
Proof.
  intros Hinit Hacc Hoc. apply init_inv in Hinit.
  destruct Hinit as (Hsup & _ & Hcons & _ & Hoss & _).
  pose proof (unfold_accepts_inv _ _ _ _ _ Hacc) as (_ & _ & _ & _ & _ & _ & _ & Hbh & Hbw).
  rewrite (blocks_h_height_out self H Hcons) in Hbh.
  rewrite (blocks_w_width_out self W Hcons) in Hbw.
  rewrite <- Hoss in Hsup. apply supported_oss_nonneg in Hsup.
  repeat constructor; lia.
Qed.

Lemma view_explicit (o : Tensor) (dims : list Z) :
  Forall (fun d => (0 <= d)%Z) dims ->
  view o dims =
  if (Z.of_nat (numel (shape o)) =? fold_right Z.mul 1%Z dims)%Z
  then Ok (mkTensor (map Z.to_nat dims) (data o))
  else Raise RuntimeError.
Proof.
  intros Hd. unfold view, reshape. rewrite infer_size_explicit by assumption.
  destruct (_ =? _)%Z; reflexivity.
Qed.

Lemma map_of_nat_to_nat (dims : list Z) :
  Forall (fun d => (0 <= d)%Z) dims -> map Z.of_nat (map Z.to_nat dims) = dims.
Proof.
  induction 1 as [|d dims Hd _ IH]; cbn [map]; [reflexivity|].
  now rewrite Z2Nat.id, IH.
Qed.

(** C2 (as amended). For a layer built by the constructor with a
    non-negative out_channels and an input of shape (batch, H, W, C)
    whose output-size operands (dividend and stride, on both axes) are
    below 2^50 in magnitude: patch extraction produces height_out *
    width_out patches per image; whenever forward returns, its result
    has shape (batch, output_stabilizer_size, height_out, width_out,
    out_channels); and once the collaborator has answered, forward
    returns exactly when that answer has batch * output_stabilizer_size *
    height_out * width_out * out_channels elements, raising RuntimeError
    otherwise. *)
Theorem forward_output_shape (a : init_args) (g g' : Generator)
    (self : GroupLorentzConv2d) (x : Tensor) (B H W C : nat) :
  init a g = Ok (self, g') ->
  shape x = [B; H; W; C] ->
  (0 <= out_channels self)%Z ->
  small_h self H -> small_w self W ->
  let dims := [Z.of_nat B; output_stabilizer_size self; height_out self H;
               width_out self W; out_channels self] in
  (forall patches, extract_patches self x = Ok patches ->
     nth 1 (shape patches) 0 =
     Z.to_nat (height_out self H) * Z.to_nat (width_out self W)) /\
  (forall out tr, forward self x = Ok (out, tr) ->
     map Z.of_nat (shape out) = dims) /\
  (forall ppk o,
     patches_pre_kernel self x = Ok ppk ->
     LFC_call (linearized_kernel self) ppk = Ok o ->
     (Z.of_nat (numel (shape o)) = fold_right Z.mul 1%Z dims ->
      exists out, forward self x = Ok (out, [("final"%string, shape out)]) /\
                  data out = data o /\ map Z.of_nat (shape out) = dims) /\
     (Z.of_nat (numel (shape o)) <> fold_right Z.mul 1%Z dims ->
      forward self x = Raise RuntimeError)).
Proof.
  intros Hinit Hs Hoc Hsmh Hsmw dims.
  pose proof (init_inv _ _ _ _ Hinit) as (_ & _ & Hcons & _).
  split; [|split].
  - intros patches Hp. now rewrite (extract_patches_shape self x patches B H W C Hcons Hs Hp).
  - intros out tr Hf.
    destruct (forward_Ok_inv self x out tr B H W C Hcons Hs Hsmh Hsmw Hf)
      as (Hacc & ppk & o & _ & _ & Hv & _).
    pose proof (final_dims_nonneg a g g' self B H W C Hinit Hacc Hoc) as Hd.
    rewrite view_explicit in Hv by exact Hd.
    destruct (_ =? _)%Z; [|discriminate].
    inversion Hv; subst; clear Hv. exact (map_of_nat_to_nat _ Hd).
  - intros ppk o Hppk Ho.
    pose proof (patches_pre_kernel_Ok_accepts _ _ _ Hppk) as Hacc. rewrite Hs in Hacc.
    pose proof (final_dims_nonneg a g g' self B H W C Hinit Hacc Hoc) as Hd.
    rewrite (forward_accepted self x B H W C Hcons Hs Hacc Hsmh Hsmw), Hppk. cbn [bind].
    rewrite Ho. cbn [bind].
    rewrite (blocks_h_height_out self H Hcons), (blocks_w_width_out self W Hcons).
    fold dims. rewrite view_explicit by exact Hd.
    split.
    + intros E. apply Z.eqb_eq in E. rewrite E. cbn [bind].
      eexists. split; [reflexivity|]. cbn [shape data].
      split; [reflexivity | exact (map_of_nat_to_nat _ Hd)].
    + intros E. apply Z.eqb_neq in E. rewrite E. reflexivity.
Qed.

(** X17. forward does not compare the input's channel count with
    in_channels.  For a layer built by the constructor and an accepted
    input with C <> in_channels channels (output-size operands below
    2^50 in magnitude): if the batch is not empty and (C - 1) *
    kernel_len is a multiple of in_channels - 1, the re-assembly returns
    vectors of width 1 + (C - 1) * kernel_len, which is not the width
    the collaborator was built for, and what forward does is what the
    collaborator and the final view do with them; otherwise the reshape
    of line 147 raises RuntimeError. *)
Theorem channel_mismatch_not_checked (a : init_args) (g g' : Generator)
    (self : GroupLorentzConv2d) (x : Tensor) (B H W C : nat) :
  init a g = Ok (self, g') ->
  shape x = [B; H; W; C] ->
  Z.of_nat C <> in_channels self ->
  unfold_accepts (unfold_ self) [B; H; W; C] = true ->
  small_h self H -> small_w self W ->
  let S := (C - 1) * klen (unfold_ self) in
  let L := Z.to_nat (height_out self H) * Z.to_nat (width_out self W) in
  ((0 < B /\ (Z.of_nat S mod (in_channels self - 1) = 0)%Z) ->
   exists ppk,
     patches_pre_kernel self x = Ok ppk /\
     shape ppk = [B; L; 1 + S] /\
     Z.of_nat (1 + S) <> lin_features self /\
     forward self x =
     (out <- LFC_call (linearized_kernel self) ppk ;;
      out <- view out [Z.of_nat B; output_stabilizer_size self; height_out self H;
                       width_out self W; out_channels self] ;;
      Ok (out, [("final"%string, shape out)]))) /\
  (~ (0 < B /\ (Z.of_nat S mod (in_channels self - 1) = 0)%Z) ->
   forward self x = Raise RuntimeError).
Proof.
  intros Hinit Hs HC Hacc Hsmh Hsmw S L.
  pose proof (init_inv _ _ _ _ Hinit)
    as (_ & Hfan & Hcons & _ & _ & _ & Hic & _ & Hks & _).
  pose proof (unfold_accepts_inv _ _ _ _ _ Hacc)
    as (Hkh & Hkw & _ & _ & HCpos & _ & _ & Hbh & Hbw).
  destruct (klen_of_nat _ Hkh Hkw) as [Hk Hkpos].
  pose proof Hcons as [Hkl Hu].
  assert (Hks' : u_kernel_size (unfold_ self) = kernel_size self) by (rewrite Hu; reflexivity).
  rewrite Hks' in Hk, Hkh, Hkw.
  assert (Hcs : (0 < in_channels self - 1)%Z).
  { unfold fan_in in Hfan. rewrite <- Hic, <- Hks in Hfan. nia. }
  assert (HL : 0 < L).
  { unfold L. rewrite <- (blocks_h_height_out self H Hcons),
                      <- (blocks_w_width_out self W Hcons). nia. }
  assert (HS : C * klen (unfold_ self) - klen (unfold_ self) = S) by (unfold S; nia).
  pose proof (patches_pre_kernel_eq self x B H W C Hcons Hs Hacc) as Hppk.
  cbv zeta in Hppk.
  rewrite (blocks_h_height_out self H Hcons), (blocks_w_width_out self W Hcons), HS in Hppk.
  fold L in Hppk.
  pose proof (forward_accepted self x B H W C Hcons Hs Hacc Hsmh Hsmw) as Hf.
  rewrite (blocks_h_height_out self H Hcons), (blocks_w_width_out self W Hcons) in Hf.
  split.
  - intros [HB Hmod].
    rewrite reshape_cond_intro in Hppk by assumption.
    eexists. split; [exact Hppk|]. split; [reflexivity|].
    split.
    + unfold lin_features, S. rewrite <- Z.mul_assoc, <- Hk.
      intros E. apply HC.
      assert (Z.of_nat (C - 1) * Z.of_nat (klen (unfold_ self))
              = (in_channels self - 1) * Z.of_nat (klen (unfold_ self)))%Z by lia.
      assert (Z.of_nat (C - 1) = in_channels self - 1)%Z by nia. lia.
    + rewrite Hf, Hppk. reflexivity.
  - intros Hn.
    destruct ((0 <? Z.of_nat B * Z.of_nat L * (in_channels self - 1))%Z &&
              (Z.of_nat (numel [B; L; S])
               mod (Z.of_nat B * Z.of_nat L * (in_channels self - 1)) =? 0)%Z) eqn:Hcond.
    + exfalso. apply Hn.
      apply reshape_cond in Hcond. destruct Hcond as (HB & _ & _ & HSq & _).
      split; [exact HB|].
      rewrite HSq at 1. rewrite Nat2Z.inj_mul, Z2Nat.id by lia.
      rewrite Z.mul_comm. apply Z.mod_mul. lia.
    + rewrite Hf, Hppk. reflexivity.
Qed.

End FinalView.

(** ** Construction and the stabilizer pair *)

Section SupportedPairs.

Context {host : Host}.

(** C4. With the other arguments giving a positive fan-in, construction
    succeeds for each of the pairs (1,4), (4,4), (1,8), (8,8) and fails
    with KeyError for every other pair; for every other pair it fails
    whatever the other arguments are, so no layer exists on which forward
    could be called. *)
Theorem init_supported_pairs (a : init_args) (g : Generator) :
  (supported (arg_input_stabilizer_size a) (arg_output_stabilizer_size a) ->
   (0 < fan_in a)%Z ->
   exists self g', init a g = Ok (self, g')) /\
  (~ supported (arg_input_stabilizer_size a) (arg_output_stabilizer_size a) ->
   raises (init a g) /\
   ((0 < fan_in a)%Z -> init a g = Raise KeyError) /\
   forall self g', init a g <> Ok (self, g')).
Proof.
  split.
  - intros Hs Hn. now apply init_Ok.
  - intros Hs. destruct (init_unsupported a g Hs) as [Hr Hk].
    split; [exact Hr|]. split; [exact Hk|].
    intros self g' E. apply init_inv in E. tauto.
Qed.

End SupportedPairs.

(** ** The fields [forward] reads *)

Section ForwardReads.

Context {host : Host}.

(** [forward] reads the layer only through these fields. *)
Lemma forward_ext (s1 s2 : GroupLorentzConv2d) (x : Tensor) :
  output_stabilizer_size s1 = output_stabilizer_size s2 ->
  manifold s1 = manifold s2 ->
  in_channels s1 = in_channels s2 ->
  out_channels s1 = out_channels s2 ->
  kernel_size s1 = kernel_size s2 ->
  padding s1 = padding s2 ->
  stride s1 = stride s2 ->
  dilation s1 = dilation s2 ->
  kernel_len s1 = kernel_len s2 ->
  unfold_ s1 = unfold_ s2 ->
  linearized_kernel s1 = linearized_kernel s2 ->
  forward s1 x = forward s2 x.
Proof.
  intros Ho Hm Hi Hoc Hk Hp Hs Hd Hkl Hu Hl.
  unfold forward, h_out, w_out, extract_patches, extract_lorentz_patches,
    patches_time, time_radicand.
  now rewrite Ho, Hm, Hi, Hoc, Hk, Hp, Hs, Hd, Hkl, Hu, Hl.
Qed.

End ForwardReads.

(** ** Concrete runs with the stand-in collaborator *)

Section Runs.

Ltac run := cbv -[IZR Rplus Rminus Rmult Rmax sqrt Ropp Rdiv Rinv].

Lemma forward_layer_image (ic : Z) :
  ic = 3%Z \/ ic = 2%Z ->
  exists out,
    forward (Stub.layer ic) Stub.image = Ok (out, [("final"%string, [1; 8; 2; 1; 5])]).
Proof. intros [-> | ->]; eexists; run; reflexivity. Qed.

Lemma extract_patches_layer_image :
  exists patches,
    extract_patches (Stub.layer 3) Stub.image = Ok patches /\
    shape patches = [1; 2; 6].
Proof. eexists. split; [run; reflexivity | reflexivity]. Qed.

(** C3, refuted as stated: on the 2 x 2 image with two spatial channels
    and a 1 x 2 kernel the handed vector is not channel-major: position
    2 holds tap 0 of the second spatial channel (100), not tap 1 of the
    first (20). *)
Lemma channel_major_refuted :
  init (host := Stub.host) (Stub.args 1 8 3 5 (Pair 1 2)) [3; 4] = Ok (Stub.layer 3, [])
  /\ ~ handed_channel_major (Stub.layer 3) Stub.image.
Proof.
  split; [reflexivity|].
  intros Hcm.
  assert (Hh : exists handed,
             patches_pre_kernel (Stub.layer 3) Stub.image = Ok handed /\
             get handed [0; 0; 2] = 100%R).
  { eexists. split; [run; reflexivity | run; reflexivity]. }
  destruct Hh as (handed & Hh & H2).
  specialize (Hcm handed 1 2 2 3 0 0 0 1 Hh eq_refl).
  assert (V : window_tap (unfold_ (Stub.layer 3)) Stub.image 0 0 (0 + 1) 1 = 20%R)
    by (run; reflexivity).
  change (1 + 0 * klen (unfold_ (Stub.layer 3)) + 1) with 2 in Hcm.
  rewrite V, H2 in Hcm.
  assert (100 = 20)%R by (apply Hcm; cbv; lia).
  lra.
Qed.

(** C2, refuted as stated: for the (1, 8) layer and the 2 x 2 image,
    patch extraction produces 2 patches while
    output_stabilizer_size * height_out * width_out is 16. *)
Lemma patch_count_refuted :
  exists patches,
    init (host := Stub.host) (Stub.args 1 8 3 5 (Pair 1 2)) [3; 4] = Ok (Stub.layer 3, [])
    /\ extract_patches (Stub.layer 3) Stub.image = Ok patches
    /\ nth 1 (shape patches) 0 = 2
    /\ (output_stabilizer_size (Stub.layer 3) * height_out (Stub.layer 3) 2
        * width_out (Stub.layer 3) 2)%Z = 16%Z
    /\ Z.of_nat (nth 1 (shape patches) 0) <>
       (output_stabilizer_size (Stub.layer 3) * height_out (Stub.layer 3) 2
        * width_out (Stub.layer 3) 2)%Z.
Proof.
  destruct extract_patches_layer_image as (patches & Hp & Hs).
  exists patches.
  split; [reflexivity|]. split; [exact Hp|].
  rewrite Hs. split; [reflexivity|]. split; [reflexivity|].
  cbv. discriminate.
Qed.

(** C5, refuted as stated: with stride 2^55 + 2, padding 2^54 and a
    1 x 1 kernel, on height 2 the dividend is 2^55 + 1; the quotient is
    below 1 and the formula gives floor(quotient + 1) = 1, while the
    division in binary64 rounds the quotient to 1.0 and forward computes
    2. *)
Lemma output_size_refuted :
  exists self g',
    init (host := Stub.host)
         (mkArgs 1 8 Stub.unit_manifold 3 5 (Int 1) (Int 36028797018963970)
                 (Int 18014398509481984) (Int 1) true false) [3; 4] = Ok (self, g')
    /\ h_out self 2 = Ok 2%Z
    /\ height_out self 2 = 1%Z.
Proof.
  eexists. eexists. split; [reflexivity|]. split; reflexivity.
Qed.

(** C7, refuted as stated: in binary32 with curvature 2 and a 1 x 2
    kernel, on two time taps 0 both clamped taps are the float nearest
    to sqrt 2, 11863283 * 2^-23, each square rounds to 2 - 2^-23, and the
    radicand is 2 - 2^-22, below the curvature; its square root rounds
    to 11863282 * 2^-23, below the float sqrt 2.  In binary64 with
    curvature 3 the radicand is 3 - 2^-50 and the rescaled time is one
    unit in the last place below the float sqrt 3. *)
Lemma radicand_below_curvature :
  (let F := ieee754.binary32 in
   let k := ieee754.of_int F 2 in
   let patch := [ieee754.zero; ieee754.zero] in
   ieee754.sqrt F k = Some (11863283, -23)%Z /\
   patches_time_fp F k 2 patch = Some [(11863283, -23)%Z; (11863283, -23)%Z] /\
   time_radicand_fp F k 2 patch = Some (16777214, -23)%Z /\
   ieee754.ltb (16777214, -23)%Z k = true /\
   rescaled_time_fp F k 2 patch = Some (11863282, -23)%Z /\
   ieee754.ltb (11863282, -23)%Z (11863283, -23)%Z = true) /\
  (let F := ieee754.binary64 in
   let k := ieee754.of_int F 3 in
   let patch := [ieee754.zero; ieee754.zero] in
   ieee754.sqrt F k = Some (7800463371553962, -52)%Z /\
   time_radicand_fp F k 2 patch = Some (6755399441055742, -51)%Z /\
   ieee754.ltb (6755399441055742, -51)%Z k = true /\
   rescaled_time_fp F k 2 patch = Some (7800463371553961, -52)%Z /\
   ieee754.ltb (7800463371553961, -52)%Z (7800463371553962, -52)%Z = true).
Proof. cbv zeta. repeat split; vm_compute; reflexivity. Qed.

End Runs.

(** ** The theorems at concrete inputs *)

Section Witnesses.


Lemma radicand_at_least_curvature_witness :
  shape Stub.patch = [1; 1; 6] /\
  (0 <= kernel_len (Stub.layer 3) <= Z.of_nat 6)%Z /\
  (0 < in_channels (Stub.layer 3) - 1)%Z /\
  ((Z.of_nat 6 - kernel_len (Stub.layer 3)) mod (in_channels (Stub.layer 3) - 1) = 0)%Z /\
  0 < 1 /\
  (0 < CustomLorentz.k (manifold (Stub.layer 3)))%R /\
  exists pt out,
    patches_time (Stub.layer 3) Stub.patch = Ok pt /\
    extract_lorentz_patches (Stub.layer 3) Stub.patch = Ok out /\
    (1 <= get (time_radicand (Stub.layer 3) pt) [0%nat; 0%nat; 0%nat])%R /\
    (sqrt 1 <= get out [0%nat; 0%nat; 0%nat])%R.
Proof.
  assert (Hk : (0 < CustomLorentz.k (manifold (Stub.layer 3)))%R) by (cbn; lra).
  split; [reflexivity|].
  split; [cbn; lia|].
  split; [cbn; lia|].
  split; [reflexivity|].
  split; [lia|].
  split; [exact Hk|].
  destruct (radicand_at_least_curvature (host := Stub.host) (Stub.layer 3) Stub.patch
              1 1 6 0 0 eq_refl) as (pt & out & Hpt & Hout & Hr & _ & _ & Hs);
    [cbn; lia | cbn; lia | reflexivity | lia | lia | exact Hk |].
  exists pt, out. split; [exact Hpt|]. split; [exact Hout|].
  split; [exact Hr | exact Hs].
Defined.

Lemma spatial_block_is_tap_major_witness :
  init (host := Stub.host) (Stub.args 1 8 3 5 (Pair 1 2)) [3; 4] = Ok (Stub.layer 3, []) /\
  shape Stub.image = [1; 2; 2; 3] /\
  Z.of_nat 3 = in_channels (Stub.layer 3) /\
  unfold_accepts (unfold_ (Stub.layer 3)) [1; 2; 2; 3] = true /\
  0 < 1 /\
  1 < Z.to_nat (blocks_h (unfold_ (Stub.layer 3)) 2)
      * Z.to_nat (blocks_w (unfold_ (Stub.layer 3)) 2) /\
  1 < 3 - 1 /\
  0 < klen (unfold_ (Stub.layer 3)) /\
  exists patches handed,
    extract_patches (Stub.layer 3) Stub.image = Ok patches /\
    patches_pre_kernel (Stub.layer 3) Stub.image = Ok handed /\
    get patches [0; 1; (1 + 1) * klen (unfold_ (Stub.layer 3)) + 0] =
      window_tap (unfold_ (Stub.layer 3)) Stub.image 0 1 (1 + 1) 0 /\
    get handed [0; 1; 1 + 0 * (3 - 1) + 1] =
      window_tap (unfold_ (Stub.layer 3)) Stub.image 0 1 (1 + 1) 0.
Proof.
  assert (HL : 1 < Z.to_nat (blocks_h (unfold_ (Stub.layer 3)) 2)
                   * Z.to_nat (blocks_w (unfold_ (Stub.layer 3)) 2))
    by (change (1 < 2); lia).
  assert (HK : 0 < klen (unfold_ (Stub.layer 3))) by (change (0 < 2); lia).
  split; [reflexivity|].
  split; [reflexivity|].
  split; [reflexivity|].
  split; [reflexivity|].
  split; [lia|].
  split; [exact HL|].
  split; [lia|].
  split; [exact HK|].
  apply (spatial_block_is_tap_major (host := Stub.host)
           (Stub.args 1 8 3 5 (Pair 1 2)) [3; 4] [] (Stub.layer 3) Stub.image
           1 2 2 3 0 1 1 0);
    [reflexivity | reflexivity | reflexivity | reflexivity | lia | exact HL | lia | exact HK].
Defined.

Lemma clamp_floors_time_taps_witness :
  init (host := Stub.host) (Stub.args 1 8 3 5 (Pair 1 2)) [3; 4] = Ok (Stub.layer 3, []) /\
  (get Stub.image_low [0%nat; 0%nat; 0%nat; 0%nat] <= sqrt (CustomLorentz.k (manifold (Stub.layer 3))))%R /\
  forward (Stub.layer 3)
          (put Stub.image_low [0; 0; 0; 0] (sqrt (CustomLorentz.k (manifold (Stub.layer 3)))))
  = forward (Stub.layer 3) Stub.image_low.
Proof.
  assert (Hlow : (get Stub.image_low [0%nat; 0%nat; 0%nat; 0%nat]
                  <= sqrt (CustomLorentz.k (manifold (Stub.layer 3))))%R).
  { change (0 <= sqrt 1)%R. apply sqrt_pos. }
  split; [reflexivity|].
  split; [exact Hlow|].
  apply (clamp_floors_time_taps (host := Stub.host)
           (Stub.args 1 8 3 5 (Pair 1 2)) [3; 4] [] (Stub.layer 3) Stub.image_low 0 0 0
           eq_refl Hlow).
Defined.

Lemma output_size_formula_witness :
  fst (stride (Stub.layer 3)) <> 0%Z /\
  snd (stride (Stub.layer 3)) <> 0%Z /\
  small_h (Stub.layer 3) 2 /\
  small_w (Stub.layer 3) 2 /\
  h_out (Stub.layer 3) 2 = Ok (height_out (Stub.layer 3) 2) /\
  w_out (Stub.layer 3) 2 = Ok (width_out (Stub.layer 3) 2) /\
  height_out (Stub.layer 3) 2 = 2%Z /\
  width_out (Stub.layer 3) 2 = 1%Z.
Proof.
  assert (H1 : fst (stride (Stub.layer 3)) <> 0%Z) by (cbn; lia).
  assert (H2 : snd (stride (Stub.layer 3)) <> 0%Z) by (cbn; lia).
  assert (H3 : small_h (Stub.layer 3) 2) by (split; reflexivity).
  assert (H4 : small_w (Stub.layer 3) 2) by (split; reflexivity).
  split; [exact H1|]. split; [exact H2|]. split; [exact H3|]. split; [exact H4|].
  destruct (proj1 (output_size_formula (host := Stub.host)) (Stub.layer 3) 2 2 H1 H2 H3 H4)
    as [Hh Hw].
  split; [exact Hh|]. split; [exact Hw|]. split; reflexivity.
Defined.

Lemma forward_output_shape_witness :
  init (host := Stub.host) (Stub.args 1 8 3 5 (Pair 1 2)) [3; 4] = Ok (Stub.layer 3, []) /\
  shape Stub.image = [1; 2; 2; 3] /\
  (0 <= out_channels (Stub.layer 3))%Z /\
  small_h (Stub.layer 3) 2 /\
  small_w (Stub.layer 3) 2 /\
  (forall patches, extract_patches (Stub.layer 3) Stub.image = Ok patches ->
     nth 1 (shape patches) 0 =
     Z.to_nat (height_out (Stub.layer 3) 2) * Z.to_nat (width_out (Stub.layer 3) 2)) /\
  (forall out tr, forward (Stub.layer 3) Stub.image = Ok (out, tr) ->
     map Z.of_nat (shape out) =
     [Z.of_nat 1; output_stabilizer_size (Stub.layer 3); height_out (Stub.layer 3) 2;
      width_out (Stub.layer 3) 2; out_channels (Stub.layer 3)]).
Proof.
  assert (Hoc : (0 <= out_channels (Stub.layer 3))%Z) by (cbn; lia).
  assert (H3 : small_h (Stub.layer 3) 2) by (split; reflexivity).
  assert (H4 : small_w (Stub.layer 3) 2) by (split; reflexivity).
  split; [reflexivity|].
  split; [reflexivity|].
  split; [exact Hoc|].
  split; [exact H3|].
  split; [exact H4|].
  destruct (forward_output_shape (host := Stub.host)
              (Stub.args 1 8 3 5 (Pair 1 2)) [3; 4] [] (Stub.layer 3) Stub.image
              1 2 2 3 eq_refl eq_refl Hoc H3 H4) as (Hp & Hf & _).
  split; [exact Hp | exact Hf].
Defined.

Lemma channel_mismatch_not_checked_witness :
  init (host := Stub.host) (Stub.args 1 8 2 5 (Pair 1 2)) [3; 4] = Ok (Stub.layer 2, []) /\
  shape Stub.image = [1; 2; 2; 3] /\
  Z.of_nat 3 <> in_channels (Stub.layer 2) /\
  unfold_accepts (unfold_ (Stub.layer 2)) [1; 2; 2; 3] = true /\
  small_h (Stub.layer 2) 2 /\
  small_w (Stub.layer 2) 2 /\
  (0 < 1 /\
   (Z.of_nat ((3 - 1) * klen (unfold_ (Stub.layer 2)))
      mod (in_channels (Stub.layer 2) - 1) = 0)%Z) /\
  exists ppk,
    patches_pre_kernel (Stub.layer 2) Stub.image = Ok ppk /\
    shape ppk = [1; Z.to_nat (height_out (Stub.layer 2) 2)
                    * Z.to_nat (width_out (Stub.layer 2) 2);
                 1 + (3 - 1) * klen (unfold_ (Stub.layer 2))] /\
    Z.of_nat (1 + (3 - 1) * klen (unfold_ (Stub.layer 2))) <> lin_features (Stub.layer 2).
Proof.
  assert (HC : Z.of_nat 3 <> in_channels (Stub.layer 2)) by (cbn; lia).
  assert (Hd : 0 < 1 /\
               (Z.of_nat ((3 - 1) * klen (unfold_ (Stub.layer 2)))
                  mod (in_channels (Stub.layer 2) - 1) = 0)%Z)
    by (split; [lia | reflexivity]).
  assert (H3 : small_h (Stub.layer 2) 2) by (split; reflexivity).
  assert (H4 : small_w (Stub.layer 2) 2) by (split; reflexivity).
  split; [reflexivity|].
  split; [reflexivity|].
  split; [exact HC|].
  split; [reflexivity|].
  split; [exact H3|].
  split; [exact H4|].
  split; [exact Hd|].
  destruct (proj1 (channel_mismatch_not_checked (host := Stub.host)
              (Stub.args 1 8 2 5 (Pair 1 2)) [3; 4] [] (Stub.layer 2) Stub.image
              1 2 2 3 eq_refl eq_refl HC eq_refl H3 H4) Hd)
    as (ppk & Hppk & Hs & Hw & _).
  exists ppk. split; [exact Hppk|]. split; [exact Hs | exact Hw].
Defined.

Lemma init_supported_pairs_witness :
  supported 1 8 /\
  (0 < fan_in (Stub.args 1 8 3 5 (Pair 1 2)))%Z /\
  (exists self g',
     init (host := Stub.host) (Stub.args 1 8 3 5 (Pair 1 2)) [3; 4] = Ok (self, g')) /\
  ~ supported 2 3 /\
  (0 < fan_in (Stub.args 2 3 3 5 (Pair 1 2)))%Z /\
  init (host := Stub.host) (Stub.args 2 3 3 5 (Pair 1 2)) [3; 4] = Raise KeyError.
Proof.
  assert (Hs : supported 1 8) by (unfold supported; auto).
  assert (Hn : ~ supported 2 3)
    by (unfold supported; intros [H|[H|[H|H]]]; discriminate H).
  assert (Hf : (0 < fan_in (Stub.args 1 8 3 5 (Pair 1 2)))%Z) by reflexivity.
  assert (Hf' : (0 < fan_in (Stub.args 2 3 3 5 (Pair 1 2)))%Z) by reflexivity.
  split; [exact Hs|]. split; [exact Hf|].
  split.
  - exact (proj1 (init_supported_pairs (host := Stub.host)
                    (Stub.args 1 8 3 5 (Pair 1 2)) [3; 4]) Hs Hf).
  - split; [exact Hn|]. split; [exact Hf'|].
    exact (proj1 (proj2 (proj2 (init_supported_pairs (host := Stub.host)
                    (Stub.args 2 3 3 5 (Pair 1 2)) [3; 4]) Hn)) Hf').
Defined.

End Witnesses.

(** * Further properties of the layer *)

(** ** When the re-assembly returns *)

Section ReassemblyReturns.

Context {host : Host}.

Lemma narrow_last_3_bad_length (t : Tensor) (B L W : nat) (start len : Z) :
  shape t = [B; L; W] ->
  (len < 0 \/ (0 <= start <= Z.of_nat W /\ Z.of_nat W < start + len))%Z ->
  narrow_last t start len = Raise RuntimeError.
Proof.
  intros Hs H. unfold narrow_last. rewrite Hs. simpl rev. cbv zeta.
  destruct (Z.ltb_spec len 0); [reflexivity|].
  destruct H as [H|[H1 H2]]; [lia|].
  destruct (Z.ltb_spec start (- Z.of_nat W)); [lia|].
  destruct (Z.ltb_spec (Z.of_nat W) start); [lia|]. simpl orb. cbv iota.
  destruct (Z.ltb_spec start 0); [lia|].
  destruct (Z.ltb_spec (Z.of_nat W - len) start); [reflexivity | lia].
Qed.

Lemma extract_lorentz_patches_cases (self : GroupLorentzConv2d)
    (patches : Tensor) (B L W : nat) :
  shape patches = [B; L; W] ->
  ((exists out, extract_lorentz_patches self patches = Ok out) <->
   ((0 <= kernel_len self <= Z.of_nat W)%Z /\ 0 < B /\ 0 < L /\
    (0 < in_channels self - 1)%Z /\
    ((Z.of_nat W - kernel_len self) mod (in_channels self - 1) = 0)%Z)) /\
  (forall out, extract_lorentz_patches self patches = Ok out ->
     shape out = [B; L; W - Z.to_nat (kernel_len self) + 1]) /\
  (forall e, extract_lorentz_patches self patches = Raise e -> e = RuntimeError).
Proof.
  intros Hs.
  destruct (Z_le_dec 0 (kernel_len self)) as [Hk0|Hk0];
    [destruct (Z_le_dec (kernel_len self) (Z.of_nat W)) as [HkW|HkW]|].
  - rewrite (extract_lorentz_patches_eq self patches B L W Hs Hk0 HkW).
    destruct ((0 <? _)%Z && _) eqn:Hc.
    + pose proof (reshape_cond _ _ _ _ Hc) as (HB & HL & Hcs & HS & _).
      split; [|split].
      * split; [intros _ | intros _; eauto].
        repeat split; try assumption.
        replace (Z.of_nat W - kernel_len self)%Z
          with (Z.of_nat (W - Z.to_nat (kernel_len self))) by lia.
        rewrite HS at 1. rewrite Nat2Z.inj_mul, Z2Nat.id by lia.
        rewrite Z.mul_comm. apply Z.mod_mul. lia.
      * intros out E. inversion E; subst. cbn [shape of_fun].
        do 3 f_equal. lia.
      * intros e E. discriminate.
    + split; [|split].
      * split; [intros [out E]; discriminate|].
        intros (_ & HB & HL & Hcs & Hd). exfalso.
        rewrite reshape_cond_intro in Hc; [discriminate | assumption..|].
        rewrite Nat2Z.inj_sub, Z2Nat.id by lia. exact Hd.
      * intros out E. discriminate.
      * intros e E. now inversion E.
  - assert (E : extract_lorentz_patches self patches = Raise RuntimeError).
    { unfold extract_lorentz_patches, patches_time.
      rewrite (narrow_last_3_bad_length patches B L W 0 (kernel_len self) Hs) by lia.
      reflexivity. }
    rewrite E. split; [|split].
    + split; [intros [out E']; discriminate | intros (H & _); lia].
    + intros out E'. discriminate.
    + intros e E'. now inversion E'.
  - assert (E : extract_lorentz_patches self patches = Raise RuntimeError).
    { unfold extract_lorentz_patches, patches_time.
      rewrite (narrow_last_3_bad_length patches B L W 0 (kernel_len self) Hs) by lia.
      reflexivity. }
    rewrite E. split; [|split].
    + split; [intros [out E']; discriminate | intros (H & _); lia].
    + intros out E'. discriminate.
    + intros e E'. now inversion E'.
Qed.

(** X1. On a rank-3 tensor (batch, patches, width),
    extract_lorentz_patches returns exactly when the width is at least
    kernel_len >= 0, batch and patch count are positive, in_channels is
    at least 2 and the remaining width is a multiple of in_channels - 1;
    the result then has width - kernel_len + 1 columns; in every other
    case it raises torch's RuntimeError. *)
Theorem extract_lorentz_patches_returns_iff (self : GroupLorentzConv2d)
    (patches : Tensor) (B L W : nat) :
  shape patches = [B; L; W] ->
  ((exists out, extract_lorentz_patches self patches = Ok out) <->
   ((0 <= kernel_len self <= Z.of_nat W)%Z /\ 0 < B /\ 0 < L /\
    (0 < in_channels self - 1)%Z /\
    ((Z.of_nat W - kernel_len self) mod (in_channels self - 1) = 0)%Z)) /\
  (forall out, extract_lorentz_patches self patches = Ok out ->
     shape out = [B; L; W - Z.to_nat (kernel_len self) + 1]) /\
  (forall e, extract_lorentz_patches self patches = Raise e -> e = RuntimeError).
Proof. apply extract_lorentz_patches_cases. Qed.

End ReassemblyReturns.

(** ** Sums over the taps *)

Section Sums.

Lemma tab_S {A : Type} (n : nat) (f : nat -> A) :
  tab (S n) f = f 0 :: tab n (fun i => f (S i)).
Proof.
  unfold tab. cbn [seq map]. f_equal. rewrite <- seq_shift, map_map. reflexivity.
Qed.

Lemma map_seq_shift {A : Type} (a s n : nat) (f : nat -> A) :
  map f (seq (a + s) n) = map (fun i => f (a + i)) (seq s n).
Proof.
  revert s. induction n as [|n IH]; intros s; [reflexivity|].
  cbn [seq map]. f_equal. rewrite <- IH. f_equal. f_equal. lia.
Qed.

Lemma tab_add {A : Type} (a b : nat) (f : nat -> A) :
  tab (a + b) f = tab a f ++ tab b (fun i => f (a + i)).
Proof.
  unfold tab. rewrite seq_app, map_app. f_equal. cbn [Nat.add].
  rewrite <- (Nat.add_0_r a) at 1. apply map_seq_shift.
Qed.

Lemma Rsum_app (l1 l2 : list R) : Rsum (l1 ++ l2) = (Rsum l1 + Rsum l2)%R.
Proof.
  unfold Rsum. induction l1 as [|x l1 IH]; cbn [app fold_right]; [lra|].
  rewrite IH. lra.
Qed.

Lemma Rsum_tab_plus (n : nat) (f g : nat -> R) :
  Rsum (tab n (fun i => f i + g i)%R) = (Rsum (tab n f) + Rsum (tab n g))%R.
Proof.
  revert f g. induction n as [|n IH]; intros f g.
  - cbn. lra.
  - rewrite !tab_S. cbn [Rsum fold_right].
    fold (Rsum (tab n (fun i => f (S i) + g (S i))%R)).
    fold (Rsum (tab n (fun i => f (S i)))). fold (Rsum (tab n (fun i => g (S i)))).
    rewrite (IH (fun i => f (S i)) (fun i => g (S i))). lra.
Qed.

Lemma Rsum_tab_nonneg (n : nat) (f : nat -> R) :
  (forall i, i < n -> (0 <= f i)%R) -> (0 <= Rsum (tab n f))%R.
Proof.
  intros H. pose proof (Rsum_tab_ge n f 0%R H). lra.
Qed.

(** A sum over [n * m] consecutive positions, block by block. *)
Lemma Rsum_tab_blocks (n m : nat) (F : nat -> nat -> R) :
  Rsum (tab (n * m) (fun r => F (r / m) (r mod m))) =
  Rsum (tab n (fun q => Rsum (tab m (F q)))).
Proof.
  destruct m as [|m'].
  { rewrite Nat.mul_0_r. change (0%R = Rsum (tab n (fun _ => 0%R))).
    rewrite Rsum_tab_const. lra. }
  set (m := S m') in *.
  induction n as [|n IH]; [reflexivity|].
  replace (S n * m) with (n * m + m) by lia.
  replace (S n) with (n + 1) by lia.
  rewrite !tab_add, !Rsum_app, IH. f_equal.
  cbn [tab seq map Rsum fold_right]. rewrite Rplus_0_r.
  f_equal. apply tab_ext. intros i Hi.
  rewrite Nat.add_0_r.
  rewrite Nat.div_add_l by (unfold m; lia).
  rewrite (Nat.add_comm (n * m) i), Nat.Div0.mod_add.
  rewrite Nat.div_small, Nat.mod_small by lia. f_equal. lia.
Qed.

(** One term of a sum of terms that are all at least [k]. *)
Lemma Rsum_tab_term (n : nat) (f : nat -> R) (k : R) (j : nat) :
  j < n -> (forall i, i < n -> (k <= f i)%R) ->
  (f j + INR (n - 1) * k <= Rsum (tab n f))%R.
Proof.
  revert f j. induction n as [|n IH]; intros f j Hj Hf; [lia|].
  rewrite tab_S. cbn [Rsum fold_right]. fold (Rsum (tab n (fun i => f (S i)))).
  replace (S n - 1) with n by lia.
  destruct j as [|j].
  - pose proof (Rsum_tab_ge n (fun i => f (S i)) k) as Hge.
    assert (INR n * k <= Rsum (tab n (fun i => f (S i))))%R
      by (apply Hge; intros; apply Hf; lia).
    lra.
  - assert (Hn : 0 < n) by lia.
    pose proof (IH (fun i => f (S i)) j ltac:(lia) (fun i Hi => Hf (S i) ltac:(lia))) as H.
    pose proof (Hf 0 ltac:(lia)) as H0.
    replace (INR n) with (INR (n - 1) + 1)%R
      by (rewrite <- S_INR; f_equal; lia).
    cbn beta in H. lra.
Qed.

Lemma Rsum_perm (l l' : list R) : Permutation l l' -> Rsum l = Rsum l'.
Proof.
  unfold Rsum. induction 1; cbn [fold_right]; lra.
Qed.

End Sums.

(** ** What the re-assembly does to a patch *)

Section PatchProperties.

Context {host : Host}.

(** The entries of a returned re-assembly, read off the patch. *)
Lemma handed_entries (self : GroupLorentzConv2d) (patches : Tensor) (B L W b l : nat) :
  shape patches = [B; L; W] ->
  (0 <= kernel_len self <= Z.of_nat W)%Z ->
  (0 < in_channels self - 1)%Z ->
  ((Z.of_nat W - kernel_len self) mod (in_channels self - 1) = 0)%Z ->
  b < B -> l < L ->
  let k := CustomLorentz.k (manifold self) in
  let kln := Z.to_nat (kernel_len self) in
  let cs := Z.to_nat (in_channels self - 1) in
  let n := (W - kln) / cs in
  exists out,
    extract_lorentz_patches self patches = Ok out /\
    W - kln = cs * n /\
    get out [b; l; 0] =
      sqrt (Rsum (tab kln (fun q => Rmax (get patches [b; l; q]) (sqrt k) ^ 2))
            - IZR (kernel_len self - 1) * k)%R /\
    forall r, r < W - kln ->
      get out [b; l; 1 + r] = get patches [b; l; kln + (r mod cs) * n + r / cs].
Proof.
  intros Hs Hk Hc Hd Hb Hl k kln cs n.
  eexists. split;
    [apply (extract_lorentz_patches_Ok self patches B L W Hs Hk Hc Hd); lia|].
  split.
  { unfold n. apply Z.div_exact in Hd; [|lia].
    assert (Hq : (0 <= (Z.of_nat W - kernel_len self) / (in_channels self - 1))%Z)
      by (apply Z.div_pos; lia).
    assert (E : W - kln = cs * Z.to_nat ((Z.of_nat W - kernel_len self)
                                          / (in_channels self - 1))).
    { unfold kln, cs. apply Nat2Z.inj.
      rewrite Nat2Z.inj_mul, Nat2Z.inj_sub, !Z2Nat.id by lia. exact Hd. }
    rewrite E at 1. f_equal. rewrite E at 1.
    rewrite Nat.mul_comm, Nat.div_mul by (unfold cs; lia). reflexivity. }
  split.
  - rewrite get_of_fun by in_range_tac. reflexivity.
  - intros r Hr. rewrite get_of_fun by in_range_tac.
    unfold handed_entry. rewrite Hs. cbn [last Nat.add Nat.eqb Nat.sub].
    rewrite Nat.sub_0_r. reflexivity.
Qed.

(** X2. A vector that extract_lorentz_patches hands on lies on the
    hyperboloid whenever the window's points do: if the patch has the
    configured number of channels and every tap q of the window
    satisfies clamp(t_q)^2 - sum_c s_{c,q}^2 = k (with k >= 0), then the
    handed vector satisfies time^2 - sum of its squared spatial entries
    = k. *)
Theorem handed_vector_on_hyperboloid (self : GroupLorentzConv2d) (patches : Tensor)
    (B L W b l : nat) :
  shape patches = [B; L; W] ->
  (0 <= kernel_len self)%Z ->
  (0 < in_channels self - 1)%Z ->
  Z.of_nat W = (in_channels self * kernel_len self)%Z ->
  b < B -> l < L ->
  let k := CustomLorentz.k (manifold self) in
  let kln := Z.to_nat (kernel_len self) in
  let cs := Z.to_nat (in_channels self - 1) in
  (0 <= k)%R ->
  (forall q, q < kln ->
     (Rmax (get patches [b; l; q]) (sqrt k) ^ 2
      - Rsum (tab cs (fun c => get patches [b; l; (kln + c * kln + q)%nat] ^ 2)) = k)%R) ->
  exists out,
    extract_lorentz_patches self patches = Ok out /\
    (get out [b; l; 0%nat] ^ 2
     - Rsum (tab (cs * kln) (fun r => get out [b; l; S r] ^ 2)) = k)%R.
Proof.
  intros Hs Hk0 Hc HW Hb Hl k kln cs Hkpos Hpt.
  assert (HWk : (0 <= kernel_len self <= Z.of_nat W)%Z) by nia.
  assert (HS : W - kln = cs * kln).
  { unfold kln, cs. apply Nat2Z.inj.
    rewrite Nat2Z.inj_mul, Nat2Z.inj_sub, !Z2Nat.id by lia. rewrite HW. ring. }
  assert (Hd : ((Z.of_nat W - kernel_len self) mod (in_channels self - 1) = 0)%Z).
  { replace (Z.of_nat W - kernel_len self)%Z
      with (kernel_len self * (in_channels self - 1))%Z by (rewrite HW; ring).
    apply Z.mod_mul. lia. }
  destruct (handed_entries self patches B L W b l Hs HWk Hc Hd Hb Hl)
    as (out & Hout & _ & H0 & Hsp).
  fold k kln cs in H0, Hsp.
  assert (Hn : (W - kln) / cs = kln).
  { rewrite HS, Nat.mul_comm, Nat.div_mul by (unfold cs; lia). reflexivity. }
  rewrite Hn in Hsp.
  exists out. split; [exact Hout|].
  set (F := fun q c => (get patches [b; l; (kln + c * kln + q)%nat] ^ 2)%R).
  assert (Hspace : Rsum (tab (cs * kln) (fun r => get out [b; l; S r] ^ 2)%R)
                   = Rsum (tab kln (fun q => Rsum (tab cs (F q))))).
  { rewrite (Nat.mul_comm cs kln), <- Rsum_tab_blocks.
    f_equal. apply tab_ext. intros r Hr.
    change (S r) with (1 + r). rewrite Hsp by (rewrite HS; lia).
    reflexivity. }
  assert (Htime : Rsum (tab kln (fun q => Rmax (get patches [b; l; q]) (sqrt k) ^ 2)%R)
                  = (INR kln * k + Rsum (tab kln (fun q => Rsum (tab cs (F q)))))%R).
  { rewrite <- Rsum_tab_const, <- Rsum_tab_plus.
    f_equal. apply tab_ext. intros q Hq. specialize (Hpt q Hq).
    unfold F. lra. }
  assert (Hnn : (0 <= Rsum (tab kln (fun q => Rsum (tab cs (F q)))))%R).
  { apply Rsum_tab_nonneg. intros q _. apply Rsum_tab_nonneg. intros c _.
    unfold F. apply pow2_ge_0. }
  rewrite Hspace, H0, Htime.
  unfold kln at 1. rewrite INR_IZR_INZ, Z2Nat.id by lia. rewrite minus_IZR.
  cbn [pow]. rewrite Rmult_1_r, sqrt_sqrt by lra. lra.
Qed.

(** X3. Over the reals, that is in exact arithmetic without rounding or
    overflow: the rescaled time is at least every clamped time tap of
    its patch (with k >= 0), hence at least every time tap. *)
Theorem rescaled_time_dominates_taps (self : GroupLorentzConv2d) (patches : Tensor)
    (B L W b l q : nat) :
  shape patches = [B; L; W] ->
  (0 <= kernel_len self <= Z.of_nat W)%Z ->
  (0 < in_channels self - 1)%Z ->
  ((Z.of_nat W - kernel_len self) mod (in_channels self - 1) = 0)%Z ->
  b < B -> l < L -> q < Z.to_nat (kernel_len self) ->
  (0 <= CustomLorentz.k (manifold self))%R ->
  exists out,
    extract_lorentz_patches self patches = Ok out /\
    (Rmax (get patches [b; l; q]) (sqrt (CustomLorentz.k (manifold self)))
     <= get out [b; l; 0%nat])%R /\
    (get patches [b; l; q] <= get out [b; l; 0%nat])%R.
Proof.
  intros Hs Hk Hc Hd Hb Hl Hq Hkpos.
  destruct (handed_entries self patches B L W b l Hs Hk Hc Hd Hb Hl)
    as (out & Hout & _ & H0 & _).
  set (k := CustomLorentz.k (manifold self)) in *.
  set (kln := Z.to_nat (kernel_len self)) in *.
  exists out. split; [exact Hout|].
  set (f := fun i => (Rmax (get patches [b; l; i]) (sqrt k) ^ 2)%R).
  assert (Hterm : (f q + INR (kln - 1) * k <= Rsum (tab kln f))%R).
  { apply Rsum_tab_term; [exact Hq|]. intros i _. unfold f. now apply clamped_sq_ge. }
  assert (Hc0 : (0 <= Rmax (get patches [b; l; q]) (sqrt k))%R).
  { pose proof (Rmax_r (get patches [b; l; q]) (sqrt k)). pose proof (sqrt_pos k). lra. }
  assert (Hle : (Rmax (get patches [b; l; q]) (sqrt k) <= get out [b; l; 0%nat])%R).
  { rewrite H0. fold f.
    rewrite <- (sqrt_pow2 (Rmax (get patches [b; l; q]) (sqrt k))) at 1 by exact Hc0.
    apply sqrt_le_1_alt. fold (f q).
    replace (IZR (kernel_len self - 1)) with (INR (kln - 1)).
    - lra.
    - unfold kln. rewrite INR_IZR_INZ. f_equal. lia. }
  split; [exact Hle|].
  pose proof (Rmax_l (get patches [b; l; q]) (sqrt k)). lra.
Qed.

(** X4. extract_lorentz_patches only reorders the spatial entries: in
    every row it returns, the entries after position 0 are a
    permutation of the patch's entries after the kernel_len time taps. *)
Theorem spatial_entries_permuted (self : GroupLorentzConv2d) (patches : Tensor)
    (B L W b l : nat) :
  shape patches = [B; L; W] ->
  (0 <= kernel_len self <= Z.of_nat W)%Z ->
  (0 < in_channels self - 1)%Z ->
  ((Z.of_nat W - kernel_len self) mod (in_channels self - 1) = 0)%Z ->
  b < B -> l < L ->
  exists out,
    extract_lorentz_patches self patches = Ok out /\
    Permutation
      (tab (W - Z.to_nat (kernel_len self)) (fun r => get out [b; l; 1 + r]))
      (tab (W - Z.to_nat (kernel_len self))
           (fun r => get patches [b; l; Z.to_nat (kernel_len self) + r])).
Proof.
  intros Hs Hk Hc Hd Hb Hl.
  destruct (handed_entries self patches B L W b l Hs Hk Hc Hd Hb Hl)
    as (out & Hout & HS & _ & Hsp).
  set (kln := Z.to_nat (kernel_len self)) in *.
  set (cs := Z.to_nat (in_channels self - 1)) in *.
  set (n := (W - kln) / cs) in *.
  exists out. split; [exact Hout|].
  set (sigma := fun r => (r mod cs) * n + r / cs).
  rewrite (tab_ext (W - kln) _ (fun r => get patches [b; l; kln + sigma r])).
  2:{ intros r Hr. rewrite Hsp by exact Hr. unfold sigma. do 4 f_equal. lia. }
  unfold tab.
  rewrite <- (map_map sigma (fun i => get patches [b; l; kln + i])).
  apply Permutation_map. apply Permutation_sym.
  apply NoDup_Permutation_bis.
  - apply seq_NoDup.
  - now rewrite length_map.
  - intros x Hx. apply in_seq in Hx. cbn [Nat.add] in Hx.
    assert (Hcs : 0 < cs) by (unfold cs; lia).
    assert (Hn : 0 < n) by nia.
    apply in_map_iff. exists ((x mod n) * cs + x / n).
    assert (Hxn : x / n < cs).
    { apply Nat.Div0.div_lt_upper_bound. rewrite Nat.mul_comm. lia. }
    assert (Hxm : x mod n < n) by (apply Nat.mod_upper_bound; lia).
    split.
    + unfold sigma.
      rewrite (Nat.add_comm (x mod n * cs)), Nat.Div0.mod_add.
      rewrite (Nat.mod_small (x / n)) by exact Hxn.
      rewrite Nat.div_add by lia. rewrite (Nat.div_small (x / n)) by exact Hxn.
      cbn [Nat.add]. pose proof (Nat.div_mod_eq x n). lia.
    + apply in_seq. cbn [Nat.add]. split; [lia|]. rewrite HS. nia.
Qed.

(** X5. Over the reals, that is in exact arithmetic without rounding:
    with a 1 x 1 kernel (kernel_len = 1) and the configured number of
    channels, extract_lorentz_patches changes nothing but the time entry,
    which it clamps at sqrt k (k >= 0). *)
Theorem pointwise_kernel_only_clamps (self : GroupLorentzConv2d) (patches : Tensor)
    (B L W b l : nat) :
  shape patches = [B; L; W] ->
  kernel_len self = 1%Z ->
  (0 < in_channels self - 1)%Z ->
  Z.of_nat W = in_channels self ->
  b < B -> l < L ->
  (0 <= CustomLorentz.k (manifold self))%R ->
  exists out,
    extract_lorentz_patches self patches = Ok out /\
    shape out = shape patches /\
    get out [b; l; 0] =
      Rmax (get patches [b; l; 0]) (sqrt (CustomLorentz.k (manifold self))) /\
    forall r, 0 < r < W -> get out [b; l; r] = get patches [b; l; r].
Proof.
  intros Hs Hkl Hc HW Hb Hl Hkpos.
  assert (HWk : (0 <= kernel_len self <= Z.of_nat W)%Z) by lia.
  assert (Hd : ((Z.of_nat W - kernel_len self) mod (in_channels self - 1) = 0)%Z).
  { rewrite HW, Hkl. apply Z.mod_same. lia. }
  destruct (handed_entries self patches B L W b l Hs HWk Hc Hd Hb Hl)
    as (out & Hout & HS & H0 & Hsp).
  destruct (extract_lorentz_patches_cases self patches B L W Hs) as (_ & Hshape & _).
  rewrite Hkl in *. change (Z.to_nat 1) with 1 in *.
  set (cs := Z.to_nat (in_channels self - 1)) in *.
  assert (Hcs : W - 1 = cs) by (unfold cs; lia).
  assert (Hn : (W - 1) / cs = 1) by (rewrite Hcs; apply Nat.div_same; lia).
  rewrite Hn in Hsp.
  exists out. split; [exact Hout|].
  split; [rewrite (Hshape out Hout), Hs; do 3 f_equal; lia|].
  split.
  - rewrite H0. cbn [tab seq map Rsum fold_right].
    replace (IZR (1 - 1)) with 0%R by reflexivity.
    set (c := Rmax (get patches [b; l; 0]) (sqrt (CustomLorentz.k (manifold self)))).
    assert (0 <= c)%R.
    { pose proof (Rmax_r (get patches [b; l; 0]) (sqrt (CustomLorentz.k (manifold self)))).
      pose proof (sqrt_pos (CustomLorentz.k (manifold self))). fold c in H. lra. }
    replace (c ^ 2 + 0 - 0 * CustomLorentz.k (manifold self))%R with (c ^ 2)%R by lra.
    now apply sqrt_pow2.
  - intros r Hr. destruct r as [|r]; [lia|].
    change (S r) with (1 + r). rewrite Hsp by lia.
    rewrite Nat.mod_small, Nat.div_small by lia.
    do 4 f_equal. lia.
Qed.

End PatchProperties.

(** ** Which inputs [forward] returns on *)

Section ForwardInputs.

Context {host : Host}.

Lemma infer_size_length (dims : list Z) (n : nat) (s : list nat) :
  infer_size dims n = Ok s -> length s = length dims.
Proof.
  unfold infer_size.
  destruct (existsb _ dims); [discriminate|].
  destruct (1 <? _); [discriminate|].
  destruct (_ || _); [|discriminate].
  destruct (_ =? 1).
  - destruct (_ =? 0)%Z; [discriminate|]. intros E; inversion E. apply length_map.
  - intros E; inversion E. apply length_map.
Qed.

(** What a returning [forward] tells about its input and its result. *)
Lemma forward_Ok_facts (self : GroupLorentzConv2d) (x out : Tensor) (tr : stdout) :
  forward self x = Ok (out, tr) ->
  (exists B H W C,
     shape x = [B; H; W; C] /\
     unfold_accepts (unfold_ self) [B; H; W; C] = true /\
     0 < B /\ (0 < in_channels self - 1)%Z) /\
  fst (stride self) <> 0%Z /\ snd (stride self) <> 0%Z /\
  length (shape out) = 5 /\
  tr = [("final"%string, shape out)].
Proof.
  intros Hf. rewrite forward_stages in Hf.
  destruct (shape x) as [|bsz [|h [|w rest]]] eqn:Hs; try discriminate.
  apply bind_Ok_inv in Hf. destruct Hf as (ho & Hho & Hf).
  apply bind_Ok_inv in Hf. destruct Hf as (wo & Hwo & Hf).
  apply bind_Ok_inv in Hf. destruct Hf as (ppk & Hppk & Hf).
  apply bind_Ok_inv in Hf. destruct Hf as (o & Ho & Hf).
  apply bind_Ok_inv in Hf. destruct Hf as (out' & Hv & Hf).
  inversion Hf; subst; clear Hf.
  pose proof (patches_pre_kernel_Ok_accepts _ _ _ Hppk) as Hacc.
  destruct (unfold_accepts_rank _ _ Hacc) as (B & H & W & C & HsBHWC).
  rewrite Hs in HsBHWC. inversion HsBHWC; subst; clear HsBHWC.
  rewrite Hs in Hacc.
  split; [|split; [|split; [|split]]].
  - exists B, H, W, C. split; [reflexivity|]. split; [exact Hacc|].
    unfold patches_pre_kernel in Hppk. rewrite extract_patches_eq, Hs, Hacc in Hppk.
    cbn [bind] in Hppk.
    match type of Hppk with
    | extract_lorentz_patches _ (of_fun ?s ?f) = _ =>
      destruct (extract_lorentz_patches_cases self (of_fun s f) B
                  (Z.to_nat (blocks_h (unfold_ self) H) * Z.to_nat (blocks_w (unfold_ self) W))
                  (C * klen (unfold_ self)) eq_refl) as (Hiff & _ & _)
    end.
    destruct (proj1 Hiff (ex_intro _ ppk Hppk)) as (_ & HB & _ & Hc & _).
    split; assumption.
  - unfold h_out, out_size in Hho.
    destruct (Z.eqb_spec (fst (stride self)) 0); [discriminate | assumption].
  - unfold w_out, out_size in Hwo.
    destruct (Z.eqb_spec (snd (stride self)) 0); [discriminate | assumption].
  - unfold view, reshape in Hv.
    apply bind_Ok_inv in Hv. destruct Hv as (s & Hinf & Hv).
    inversion Hv; subst; clear Hv. cbn [shape].
    now rewrite (infer_size_length _ _ _ Hinf).
  - reflexivity.
Qed.

Lemma forward_rank_5_raises (self : GroupLorentzConv2d) (x : Tensor) :
  length (shape x) <> 4 -> raises (forward self x).
Proof.
  intros Hr. apply forward_rejected.
  destruct (unfold_accepts (unfold_ self) (shape x)) eqn:Hacc; [|reflexivity].
  destruct (unfold_accepts_rank _ _ Hacc) as (B & H & W & C & Hs).
  rewrite Hs in Hr. cbn in Hr. lia.
Qed.

(** X6. forward returns only on a rank-4 input (batch, H, W, C) with a
    non-empty batch and positive H, W and C that the sliding-window
    extraction accepts, for a layer with non-zero strides and at least
    two input channels; what it returns has rank 5 and the one line it
    prints is the label with that shape. *)
Theorem forward_returns_only_on (self : GroupLorentzConv2d) (x out : Tensor)
    (tr : stdout) :
  forward self x = Ok (out, tr) ->
  (exists B H W C,
     shape x = [B; H; W; C] /\
     0 < B /\ 0 < H /\ 0 < W /\ 0 < C /\
     (1 <= blocks_h (unfold_ self) H)%Z /\ (1 <= blocks_w (unfold_ self) W)%Z) /\
  (2 <= in_channels self)%Z /\
  fst (stride self) <> 0%Z /\ snd (stride self) <> 0%Z /\
  length (shape out) = 5 /\
  tr = [("final"%string, shape out)].
Proof.
  intros Hf.
  destruct (forward_Ok_facts self x out tr Hf)
    as ((B & H & W & C & Hs & Hacc & HB & Hc) & Hsh & Hsw & Hlen & Htr).
  pose proof (unfold_accepts_inv _ _ _ _ _ Hacc)
    as (_ & _ & _ & _ & HC & HH & HW & Hbh & Hbw).
  split.
  - exists B, H, W, C. repeat split; assumption.
  - repeat split; try assumption. lia.
Qed.

(** X7. What forward returns is never an input on which forward returns:
    the result has rank 5, and every layer's forward raises on it. *)
Theorem forward_output_is_not_an_input (self1 self2 : GroupLorentzConv2d)
    (x out : Tensor) (tr : stdout) :
  forward self1 x = Ok (out, tr) ->
  raises (forward self2 out).
Proof.
  intros Hf.
  destruct (forward_Ok_facts self1 x out tr Hf) as (_ & _ & _ & Hlen & _).
  apply forward_rank_5_raises. lia.
Qed.



(** X10. For a layer built by the constructor and an input with the
    configured number of channels, the re-assembled patches are returned
    exactly when the sliding-window extraction accepts the input and the
    batch is not empty, and then every vector handed to the linear
    collaborator has the width (in_channels - 1) * kh * kw + 1 the
    collaborator was constructed for, one vector per output position. *)
Theorem handed_width_is_lin_features (a : init_args) (g g' : Generator)
    (self : GroupLorentzConv2d) (x : Tensor) (B H W C : nat) :
  init a g = Ok (self, g') ->
  shape x = [B; H; W; C] ->
  Z.of_nat C = in_channels self ->
  ((exists ppk, patches_pre_kernel self x = Ok ppk) <->
   (unfold_accepts (unfold_ self) [B; H; W; C] = true /\ 0 < B)) /\
  (forall ppk, patches_pre_kernel self x = Ok ppk ->
     shape ppk = [B; Z.to_nat (height_out self H) * Z.to_nat (width_out self W);
                  Z.to_nat (lin_features self)] /\
     (0 < lin_features self)%Z).
Proof.
  intros Hinit Hs HC.
  pose proof (init_inv _ _ _ _ Hinit)
    as (_ & Hfan & Hcons & _ & _ & _ & Hic & _ & Hks & _).
  assert (Hmain : forall (Hacc : unfold_accepts (unfold_ self) [B; H; W; C] = true),
            patches_pre_kernel self x =
            (if 0 <? B
             then Ok (of_fun [B; Z.to_nat (height_out self H) * Z.to_nat (width_out self W);
                              Z.to_nat (lin_features self)]
                        (handed_entry self
                           (of_fun [B; Z.to_nat (blocks_h (unfold_ self) H)
                                       * Z.to_nat (blocks_w (unfold_ self) W);
                                    C * klen (unfold_ self)]
                                   (window_entry (unfold_ self) x))))
             else Raise RuntimeError) /\ (0 < lin_features self)%Z).
  { intros Hacc.
    pose proof (unfold_accepts_inv _ _ _ _ _ Hacc)
      as (Hkh & Hkw & _ & _ & HCpos & _ & _ & Hbh & Hbw).
    destruct (klen_of_nat _ Hkh Hkw) as [Hk Hkpos].
    pose proof Hcons as [Hkl Hu].
    assert (Hks' : u_kernel_size (unfold_ self) = kernel_size self)
      by (rewrite Hu; reflexivity).
    rewrite Hks' in Hk, Hkh, Hkw.
    set (K := klen (unfold_ self)) in *.
    assert (Hcs : (0 < in_channels self - 1)%Z).
    { unfold fan_in in Hfan. rewrite <- Hic, <- Hks in Hfan. nia. }
    assert (Hlin : lin_features self = Z.of_nat (1 + (C * K - K))).
    { unfold lin_features. rewrite <- Z.mul_assoc, <- Hk, <- HC.
      assert (HKC : K <= C * K) by nia.
      rewrite Nat2Z.inj_add, Nat2Z.inj_sub, Nat2Z.inj_mul by exact HKC.
      change (Z.of_nat 1) with 1%Z. ring. }
    split; [|lia].
    rewrite (patches_pre_kernel_eq self x B H W C Hcons Hs Hacc). cbv zeta.
    fold K.
    rewrite <- (blocks_h_height_out self H Hcons), <- (blocks_w_width_out self W Hcons).
    rewrite Hlin, Nat2Z.id.
    set (L := Z.to_nat (blocks_h (unfold_ self) H) * Z.to_nat (blocks_w (unfold_ self) W)).
    assert (HL : 0 < L) by (unfold L; nia).
    destruct (Nat.ltb_spec 0 B) as [HB|HB].
    - rewrite reshape_cond_intro; [reflexivity | lia | lia | lia |].
      rewrite <- HC.
      replace (C * K - K) with ((C - 1) * K) by nia.
      replace (Z.of_nat C - 1)%Z with (Z.of_nat (C - 1)) by lia.
      rewrite Nat.mul_comm, Nat2Z.inj_mul. apply Z.mod_mul. lia.
    - assert (B = 0) by lia. subst B. reflexivity. }
  split.
  - split.
    + intros [ppk Hp].
      pose proof (patches_pre_kernel_Ok_accepts _ _ _ Hp) as Hacc. rewrite Hs in Hacc.
      split; [exact Hacc|].
      destruct (Hmain Hacc) as [E _]. rewrite E in Hp.
      destruct (Nat.ltb_spec 0 B); [assumption | discriminate].
    + intros [Hacc HB]. destruct (Hmain Hacc) as [E _]. rewrite E.
      destruct (Nat.ltb_spec 0 B); [eauto | lia].
  - intros ppk Hp.
    pose proof (patches_pre_kernel_Ok_accepts _ _ _ Hp) as Hacc. rewrite Hs in Hacc.
    destruct (Hmain Hacc) as [E Hpos]. rewrite E in Hp.
    destruct (0 <? B); [|discriminate].
    inversion Hp; subst. split; [reflexivity | exact Hpos].
Qed.

End ForwardInputs.

(** ** More on construction *)

Section ConstructionDetails.

Context {host : Host}.

(** The collaborator a returned layer holds, and the generator left. *)
Lemma init_collaborator (a : init_args) (g g' : Generator) (self : GroupLorentzConv2d) :
  init a g = Ok (self, g') ->
  let stdv := sqrt (2 / IZR (fan_in a)) in
  let lk0 := LFC_new (arg_manifold a) (fan_in a + 1)%Z (arg_out_channels a)
                     (arg_bias a) (arg_LFC_normalize a) in
  (linearized_kernel self, g') =
  (if arg_bias a
   then bias_uniform_ (- stdv) stdv (fst (weight_uniform_ (- stdv) stdv lk0 g))
                      (snd (weight_uniform_ (- stdv) stdv lk0 g))
   else weight_uniform_ (- stdv) stdv lk0 g).
Proof.
  unfold init, reset_parameters, fan_in. cbn [in_channels kernel_size linearized_kernel bias].
  match goal with |- context [(?n =? 0)%Z] =>
    destruct (Z.eqb_spec n 0); [discriminate|];
    destruct (Z.ltb_spec n 0); [discriminate|]
  end.
  match goal with |- context [weight_uniform_ ?lo ?hi ?l g] =>
    destruct (weight_uniform_ lo hi l g) as [lk1 g1] eqn:Ew
  end. cbn [fst snd].
  destruct (arg_bias a).
  - match goal with |- context [bias_uniform_ ?lo ?hi lk1 g1] =>
      destruct (bias_uniform_ lo hi lk1 g1) as [lk2 g2] eqn:Eb
    end. cbn [bind].
    intros Hb. apply bind_Ok_inv in Hb. destruct Hb as (i & _ & Hb).
    inversion Hb; subst. reflexivity.
  - cbn [bind]. intros Hb. apply bind_Ok_inv in Hb. destruct Hb as (i & _ & Hb).
    inversion Hb; subst. reflexivity.
Qed.

Lemma init_inds (a : init_args) (g g' : Generator) (self : GroupLorentzConv2d) :
  init a g = Ok (self, g') ->
  exists f,
    dict_get make_indices_functions
             (arg_input_stabilizer_size a, arg_output_stabilizer_size a) = Ok f /\
    inds self = Some (f (snd (as_pair (arg_kernel_size a)))).
Proof.
  unfold init. intros H.
  apply bind_Ok_inv in H. destruct H as ([self1 g1] & Hr & H).
  apply reset_parameters_inv in Hr. destruct Hr as (_ & lk & ->).
  apply bind_Ok_inv in H. destruct H as (i & Hi & H).
  inversion H; subst; clear H.
  unfold make_transformation_indices in Hi. cbn in Hi.
  apply bind_Ok_inv in Hi. destruct Hi as (f & Hf & Hi).
  inversion Hi; subst. exists f. split; [exact Hf | reflexivity].
Qed.

(** X11. The index table of a constructed layer is the one the generator
    of its stabilizer pair builds from the kernel's width (the second
    component of kernel_size, also for a non-square kernel): c4_z2 for
    (1,4), c4_p4 for (4,4), d4_z2 for (1,8) and d4_p4m for (8,8). *)
Theorem init_index_table (a : init_args) (g g' : Generator) (self : GroupLorentzConv2d) :
  init a g = Ok (self, g') ->
  let iss := arg_input_stabilizer_size a in
  let oss := arg_output_stabilizer_size a in
  let kw := snd (as_pair (arg_kernel_size a)) in
  ((iss, oss) = (1, 4)%Z -> inds self = Some (make_c4_z2_indices kw)) /\
  ((iss, oss) = (4, 4)%Z -> inds self = Some (make_c4_p4_indices kw)) /\
  ((iss, oss) = (1, 8)%Z -> inds self = Some (make_d4_z2_indices kw)) /\
  ((iss, oss) = (8, 8)%Z -> inds self = Some (make_d4_p4m_indices kw)).
Proof.
  intros Hinit iss oss kw.
  destruct (init_inds a g g' self Hinit) as (f & Hf & Hi).
  fold iss oss in Hf. fold kw in Hi.
  repeat split; intros E; rewrite E in Hf; cbn in Hf;
    inversion Hf; subst; exact Hi.
Qed.

Lemma init_error_cases (a : init_args) (g : Generator) :
  (fan_in a = 0%Z -> init a g = Raise ZeroDivisionError) /\
  ((fan_in a < 0)%Z -> init a g = Raise ValueError) /\
  (forall e, init a g = Raise e ->
     (e = ZeroDivisionError /\ fan_in a = 0%Z) \/
     (e = ValueError /\ (fan_in a < 0)%Z) \/
     (e = KeyError /\ (0 < fan_in a)%Z /\
      ~ supported (arg_input_stabilizer_size a) (arg_output_stabilizer_size a))).
Proof.
  assert (H0 : fan_in a = 0%Z -> init a g = Raise ZeroDivisionError).
  { intros E. unfold init, reset_parameters. unfold fan_in in E.
    cbn [in_channels kernel_size]. rewrite E. reflexivity. }
  assert (Hneg : (fan_in a < 0)%Z -> init a g = Raise ValueError).
  { intros E. unfold init, reset_parameters. unfold fan_in in E.
    cbn [in_channels kernel_size].
    destruct (Z.eqb_spec ((arg_in_channels a - 1) * fst (as_pair (arg_kernel_size a))
                          * snd (as_pair (arg_kernel_size a))) 0); [lia|].
    destruct (Z.ltb_spec ((arg_in_channels a - 1) * fst (as_pair (arg_kernel_size a))
                          * snd (as_pair (arg_kernel_size a))) 0); [reflexivity | lia]. }
  split; [exact H0|]. split; [exact Hneg|].
  intros e He.
  destruct (Z.lt_trichotomy (fan_in a) 0) as [Hlt|[Heq|Hgt]].
  - rewrite (Hneg Hlt) in He. inversion He. auto.
  - rewrite (H0 Heq) in He. inversion He. auto.
  - right. right.
    destruct (supported_dec (arg_input_stabilizer_size a) (arg_output_stabilizer_size a))
      as [Hs|Hs].
    + destruct (init_Ok a g Hs Hgt) as (self & g' & E). rewrite E in He. discriminate.
    + destruct (init_unsupported a g Hs) as [_ Hk]. rewrite (Hk Hgt) in He.
      inversion He. auto.
Qed.

(** X12. Construction fails in a fixed order: a zero fan-in
    (in_channels - 1) * kh * kw raises ZeroDivisionError and a negative
    one ValueError, whatever the stabilizer pair, and only with a
    positive fan-in does an unsupported pair raise KeyError; no other
    error is raised. *)
Theorem init_errors (a : init_args) (g : Generator) :
  (fan_in a = 0%Z -> init a g = Raise ZeroDivisionError) /\
  ((fan_in a < 0)%Z -> init a g = Raise ValueError) /\
  (forall e, init a g = Raise e ->
     (e = ZeroDivisionError /\ fan_in a = 0%Z) \/
     (e = ValueError /\ (fan_in a < 0)%Z) \/
     (e = KeyError /\ (0 < fan_in a)%Z /\
      ~ supported (arg_input_stabilizer_size a) (arg_output_stabilizer_size a))).
Proof. apply init_error_cases. Qed.

(** X13. forward does not read input_stabilizer_size or the index table:
    two layers constructed from the same generator state and from
    arguments that differ only in input_stabilizer_size (such as the
    pairs (1,8) and (8,8)) leave the generator in the same state and
    give the same forward result on every input. *)
Theorem forward_ignores_input_stabilizer (a : init_args) (iss' : Z)
    (g g1 g2 : Generator) (self1 self2 : GroupLorentzConv2d) (x : Tensor) :
  init a g = Ok (self1, g1) ->
  init (mkArgs iss' (arg_output_stabilizer_size a) (arg_manifold a)
               (arg_in_channels a) (arg_out_channels a) (arg_kernel_size a)
               (arg_stride a) (arg_padding a) (arg_dilation a) (arg_bias a)
               (arg_LFC_normalize a)) g = Ok (self2, g2) ->
  g1 = g2 /\ forward self1 x = forward self2 x.
Proof.
  intros H1 H2.
  pose proof (init_collaborator _ _ _ _ H1) as E1.
  pose proof (init_collaborator _ _ _ _ H2) as E2.
  cbv zeta in E1, E2. unfold fan_in in E1, E2.
  cbn [arg_in_channels arg_kernel_size arg_manifold arg_out_channels arg_bias
       arg_LFC_normalize] in E2.
  rewrite <- E2 in E1. inversion E1 as [[Hlk Hg]].
  split; [reflexivity|].
  apply init_inv in H1. apply init_inv in H2.
  cbn [arg_input_stabilizer_size arg_output_stabilizer_size arg_in_channels
       arg_kernel_size arg_manifold arg_out_channels arg_bias arg_LFC_normalize
       arg_stride arg_padding arg_dilation] in H2.
  destruct H1 as (_ & _ & [Hkl1 Hu1] & _ & Ho1 & Hm1 & Hi1 & Hoc1 & Hk1 & Hp1 & Hs1 & Hd1 & _).
  destruct H2 as (_ & _ & [Hkl2 Hu2] & _ & Ho2 & Hm2 & Hi2 & Hoc2 & Hk2 & Hp2 & Hs2 & Hd2 & _).
  apply forward_ext; congruence.
Qed.

End ConstructionDetails.

(** ** Sliding windows and output sizes *)

Section Windows.

Context {host : Host}.

Lemma blocks_ge_1_iff (dim pad dil ker str : Z) :
  (0 < str)%Z ->
  (1 <= blocks dim pad dil ker str)%Z <-> (dil * (ker - 1) + 1 <= dim + 2 * pad)%Z.
Proof.
  intros Hs. unfold blocks. split.
  - intros H.
    destruct (Z_le_dec (dil * (ker - 1) + 1) (dim + 2 * pad)) as [|Hn]; [assumption|].
    assert ((dim + 2 * pad - (dil * (ker - 1) + 1)) / str < 0)%Z
      by (apply Z.div_lt_upper_bound; lia).
    lia.
  - intros H.
    assert (0 <= (dim + 2 * pad - (dil * (ker - 1) + 1)) / str)%Z
      by (apply Z.div_pos; lia).
    lia.
Qed.

(** X14. With kernel sizes, dilations, paddings, strides, height and
    width all below 2^31 in magnitude (where torch's 64-bit integer
    arithmetic on them is exact), the sliding-window stage of forward
    (lines 112 to 125) returns exactly when the input has rank 4 with
    positive height, width and channel count, kernel sizes, dilations and
    strides are positive, paddings are non-negative, and the dilated
    kernel fits in the padded input along both axes; it then yields
    height_out * width_out patches of C * kh * kw entries per image, and
    otherwise raises torch's RuntimeError. *)
Theorem extract_patches_returns_iff (a : init_args) (g g' : Generator)
    (self : GroupLorentzConv2d) (x : Tensor) (B H W C : nat) :
  init a g = Ok (self, g') ->
  shape x = [B; H; W; C] ->
  let '(kh, kw) := kernel_size self in
  let '(dh, dw) := dilation self in
  let '(ph, pw) := padding self in
  let '(sh, sw) := stride self in
  Forall (fun z => (Z.abs z < 2 ^ 31)%Z)
         [kh; kw; dh; dw; ph; pw; sh; sw; Z.of_nat H; Z.of_nat W] ->
  ((exists patches, extract_patches self x = Ok patches) <->
   ((0 < kh /\ 0 < kw /\ 0 < dh /\ 0 < dw /\ 0 <= ph /\ 0 <= pw /\ 0 < sh /\ 0 < sw)%Z /\
    0 < H /\ 0 < W /\ 0 < C /\
    (dh * (kh - 1) + 1 <= Z.of_nat H + 2 * ph)%Z /\
    (dw * (kw - 1) + 1 <= Z.of_nat W + 2 * pw)%Z)) /\
  (forall patches, extract_patches self x = Ok patches ->
     shape patches =
     [B; Z.to_nat (height_out self H) * Z.to_nat (width_out self W);
      C * (Z.to_nat kh * Z.to_nat kw)]) /\
  (forall e, extract_patches self x = Raise e -> e = RuntimeError).
Proof.
  intros Hinit Hs.
  apply init_inv in Hinit. destruct Hinit as (_ & _ & Hcons & _).
  pose proof Hcons as [_ Hu].
  destruct (kernel_size self) as [kh kw] eqn:Hks.
  destruct (dilation self) as [dh dw] eqn:Hdl.
  destruct (padding self) as [ph pw] eqn:Hpd.
  destruct (stride self) as [sh sw] eqn:Hst.
  intros _.
  split; [|split].
  - rewrite extract_patches_eq, Hs.
    destruct (unfold_accepts (unfold_ self) [B; H; W; C]) eqn:Hacc.
    + split; [intros _ | eauto].
      pose proof Hacc as Hacc'.
      unfold unfold_accepts, unfold_params_ok in Hacc'.
      unfold blocks_h, blocks_w in Hacc'. rewrite Hu in Hacc'.
      cbn [u_kernel_size u_dilation u_padding u_stride fst snd] in Hacc'.
      repeat match goal with
             | H : _ && _ = true |- _ => apply andb_prop in H; destruct H
             | H : negb _ = true |- _ => apply negb_true_iff in H
             | H : _ || _ = false |- _ => apply orb_false_elim in H; destruct H
             | H : (_ <? _)%Z = true |- _ => apply Z.ltb_lt in H
             | H : (_ <=? _)%Z = true |- _ => apply Z.leb_le in H
             | H : (_ <? _)%Z = false |- _ => apply Z.ltb_ge in H
             | H : (_ =? _) = false |- _ => apply Nat.eqb_neq in H
             end.
      repeat split; try lia.
      * now apply (blocks_ge_1_iff (Z.of_nat H) ph dh kh sh).
      * now apply (blocks_ge_1_iff (Z.of_nat W) pw dw kw sw).
    + split; [intros [p E]; discriminate|].
      intros ((Hkh & Hkw & Hdh & Hdw & Hph & Hpw & Hsh & Hsw) & HH & HW & HC & Hfh & Hfw).
      exfalso.
      unfold unfold_accepts, unfold_params_ok in Hacc.
      unfold blocks_h, blocks_w in Hacc. rewrite Hu in Hacc.
      cbn [u_kernel_size u_dilation u_padding u_stride fst snd] in Hacc.
      apply (blocks_ge_1_iff (Z.of_nat H) ph dh kh sh Hsh) in Hfh.
      apply (blocks_ge_1_iff (Z.of_nat W) pw dw kw sw Hsw) in Hfw.
      repeat match type of Hacc with
             | context [(?a <? ?b)%Z] => destruct (Z.ltb_spec a b); try lia
             | context [(?a <=? ?b)%Z] => destruct (Z.leb_spec a b); try lia
             | context [?a =? ?b] => destruct (Nat.eqb_spec a b); try lia
             end; try discriminate.
  - intros patches Hp.
    rewrite (extract_patches_shape self x patches B H W C Hcons Hs Hp).
    unfold klen. rewrite Hu. reflexivity.
  - intros e He. rewrite extract_patches_eq in He.
    destruct (unfold_accepts _ _); [discriminate | now inversion He].
Qed.

(** X15. With stride 1 along an axis and a dividend dim + 2 * padding -
    dilation * (kernel - 1) - 1 below 2^50 in magnitude, the computed
    output size is dim + 2 * padding - dilation * (kernel - 1); in
    particular an odd kernel 2 * p + 1 with padding p and dilation 1
    keeps the size. *)
Theorem unit_stride_output_size (self : GroupLorentzConv2d) (H W : nat) :
  stride self = (1, 1)%Z ->
  small_h self H -> small_w self W ->
  h_out self H = Ok (Z.of_nat H + 2 * fst (padding self)
                     - fst (dilation self) * (fst (kernel_size self) - 1))%Z /\
  w_out self W = Ok (Z.of_nat W + 2 * snd (padding self)
                     - snd (dilation self) * (snd (kernel_size self) - 1))%Z /\
  (forall p, dilation self = (1, 1)%Z -> padding self = (p, p) ->
             kernel_size self = (2 * p + 1, 2 * p + 1)%Z ->
             h_out self H = Ok (Z.of_nat H) /\ w_out self W = Ok (Z.of_nat W)).
Proof.
  intros Hst Hsmh Hsmw.
  assert (Hh : h_out self H = Ok (Z.of_nat H + 2 * fst (padding self)
                     - fst (dilation self) * (fst (kernel_size self) - 1))%Z).
  { rewrite h_out_height_out by (assumption || (rewrite Hst; cbn; lia)).
    unfold height_out, spec_out_size. rewrite Hst. cbn [fst].
    rewrite Z.div_1_r. f_equal. lia. }
  assert (Hw : w_out self W = Ok (Z.of_nat W + 2 * snd (padding self)
                     - snd (dilation self) * (snd (kernel_size self) - 1))%Z).
  { rewrite w_out_width_out by (assumption || (rewrite Hst; cbn; lia)).
    unfold width_out, spec_out_size. rewrite Hst. cbn [snd].
    rewrite Z.div_1_r. f_equal. lia. }
  split; [exact Hh|]. split; [exact Hw|].
  intros p Hd Hp Hk. rewrite Hh, Hw, Hd, Hp, Hk. cbn [fst snd].
  split; f_equal; lia.
Qed.

End Windows.

(** ** The presets *)

Section PresetProperties.

Context {host : Host}.

Lemma call_init_cases (iss oss : Z) (npos : nat) (kw : keywords) (g : Generator) :
  supported iss oss ->
  (0 < npos -> call_init iss oss npos kw g = TypeError) /\
  (forall self g', call_init iss oss npos kw g = Returned (self, g') ->
     npos = 0 /\
     kw_input_stabilizer_size kw = None /\ kw_output_stabilizer_size kw = None /\
     kw_other kw = [] /\
     input_stabilizer_size self = iss /\ output_stabilizer_size self = oss /\
     stride self = as_pair (default (Int 1) (kw_stride kw)) /\
     padding self = as_pair (default (Int 0) (kw_padding kw)) /\
     dilation self = as_pair (default (Int 1) (kw_dilation kw)) /\
     bias self = default true (kw_bias kw)) /\
  (forall e, call_init iss oss npos kw g = Raised e ->
     e = ZeroDivisionError \/ e = ValueError) /\
  (forall m ic oc ks,
     npos = 0 ->
     kw_input_stabilizer_size kw = None -> kw_output_stabilizer_size kw = None ->
     kw_other kw = [] ->
     kw_manifold kw = Some m -> kw_in_channels kw = Some ic ->
     kw_out_channels kw = Some oc -> kw_kernel_size kw = Some ks ->
     (0 < (ic - 1) * fst (as_pair ks) * snd (as_pair ks))%Z ->
     exists self g', call_init iss oss npos kw g = Returned (self, g')).
Proof.
  intros Hsup. unfold call_init.
  split; [|split; [|split]].
  - intros Hn. destruct (Nat.ltb_spec 0 npos); [reflexivity | lia].
  - intros self g'.
    destruct (Nat.ltb_spec 0 npos) as [|Hn]; [discriminate|].
    destruct (kw_input_stabilizer_size kw); [discriminate|].
    destruct (kw_output_stabilizer_size kw); [discriminate|]. cbn [is_some orb].
    destruct (kw_other kw); [|discriminate].
    destruct (kw_manifold kw) as [m|]; [|discriminate].
    destruct (kw_in_channels kw) as [ic|]; [|discriminate].
    destruct (kw_out_channels kw) as [oc|]; [|discriminate].
    destruct (kw_kernel_size kw) as [ks|]; [|discriminate].
    destruct (init _ g) as [[s1 g1]|e] eqn:E; [|discriminate].
    intros R; inversion R; subst; clear R.
    apply init_inv in E. cbn in E.
    destruct E as (_ & _ & _ & Hi & Ho & _ & _ & _ & _ & Hp & Hs & Hd & Hb).
    repeat split; try assumption; lia.
  - intros e.
    destruct (0 <? npos); [discriminate|].
    destruct (is_some _ || is_some _); [discriminate|].
    destruct (kw_other kw); [|discriminate].
    destruct (kw_manifold kw) as [m|]; [|discriminate].
    destruct (kw_in_channels kw) as [ic|]; [|discriminate].
    destruct (kw_out_channels kw) as [oc|]; [|discriminate].
    destruct (kw_kernel_size kw) as [ks|]; [|discriminate].
    destruct (init _ g) as [[s1 g1]|e'] eqn:E; [discriminate|].
    intros R; inversion R; subst; clear R.
    match type of E with init ?args g = _ =>
      destruct (init_error_cases args g) as (_ & _ & Hcl); destruct (Hcl e E) as [[He _]|[[He _]|[_ [_ Hns]]]]
    end; auto.
    exfalso. apply Hns. exact Hsup.
  - intros m ic oc ks -> -> -> -> -> -> -> -> Hfan. cbn [Nat.ltb Nat.leb is_some orb].
    match goal with |- context [init ?args g] =>
      destruct (init_Ok args g Hsup Hfan) as (self & g' & ->)
    end. eauto.
Qed.

(** X16. LorentzP4MConvZ2 and LorentzP4MConvP4M raise TypeError on any
    positional argument; when they return, it was a keyword-only call
    without the two stabilizer keywords, and the layer has the pair
    (1, 8), respectively (8, 8), and the given or default stride,
    padding, dilation and bias; the only errors of the constructor body
    they can raise are ZeroDivisionError and ValueError, never KeyError;
    and a keyword-only call with the four required arguments and a
    positive fan-in returns a layer. *)
Theorem presets_construct (npos : nat) (kw : keywords) (g : Generator) :
  (0 < npos ->
   LorentzP4MConvZ2 npos kw g = TypeError /\ LorentzP4MConvP4M npos kw g = TypeError) /\
  (forall self g', LorentzP4MConvZ2 npos kw g = Returned (self, g') ->
     npos = 0 /\
     kw_input_stabilizer_size kw = None /\ kw_output_stabilizer_size kw = None /\
     input_stabilizer_size self = 1%Z /\ output_stabilizer_size self = 8%Z /\
     stride self = as_pair (default (Int 1) (kw_stride kw)) /\
     padding self = as_pair (default (Int 0) (kw_padding kw)) /\
     dilation self = as_pair (default (Int 1) (kw_dilation kw)) /\
     bias self = default true (kw_bias kw)) /\
  (forall self g', LorentzP4MConvP4M npos kw g = Returned (self, g') ->
     npos = 0 /\
     kw_input_stabilizer_size kw = None /\ kw_output_stabilizer_size kw = None /\
     input_stabilizer_size self = 8%Z /\ output_stabilizer_size self = 8%Z /\
     stride self = as_pair (default (Int 1) (kw_stride kw)) /\
     padding self = as_pair (default (Int 0) (kw_padding kw)) /\
     dilation self = as_pair (default (Int 1) (kw_dilation kw)) /\
     bias self = default true (kw_bias kw)) /\
  (forall e, LorentzP4MConvZ2 npos kw g = Raised e \/ LorentzP4MConvP4M npos kw g = Raised e ->
     e = ZeroDivisionError \/ e = ValueError) /\
  (forall m ic oc ks,
     npos = 0 ->
     kw_input_stabilizer_size kw = None -> kw_output_stabilizer_size kw = None ->
     kw_other kw = [] ->
     kw_manifold kw = Some m -> kw_in_channels kw = Some ic ->
     kw_out_channels kw = Some oc -> kw_kernel_size kw = Some ks ->
     (0 < (ic - 1) * fst (as_pair ks) * snd (as_pair ks))%Z ->
     (exists self g', LorentzP4MConvZ2 npos kw g = Returned (self, g')) /\
     (exists self g', LorentzP4MConvP4M npos kw g = Returned (self, g'))).
Proof.
  assert (S18 : supported 1 8) by (unfold supported; auto).
  assert (S88 : supported 8 8) by (unfold supported; auto).
  destruct (call_init_cases 1 8 npos kw g S18) as (T1 & R1 & E1 & O1).
  destruct (call_init_cases 8 8 npos kw g S88) as (T2 & R2 & E2 & O2).
  unfold LorentzP4MConvZ2, LorentzP4MConvP4M.
  split; [|split; [|split; [|split]]].
  - intros Hn. split; [now apply T1 | now apply T2].
  - intros self g' H. destruct (R1 self g' H) as (? & ? & ? & ? & ? & ? & ? & ? & ? & ?).
    repeat split; assumption.
  - intros self g' H. destruct (R2 self g' H) as (? & ? & ? & ? & ? & ? & ? & ? & ? & ?).
    repeat split; assumption.
  - intros e [H|H]; [now apply E1 | now apply E2].
  - intros m ic oc ks H0 H1 H2 H3 H4 H5 H6 H7 H8. split.
    + exact (O1 m ic oc ks H0 H1 H2 H3 H4 H5 H6 H7 H8).
    + exact (O2 m ic oc ks H0 H1 H2 H3 H4 H5 H6 H7 H8).
Qed.

End PresetProperties.

(** ** The further properties at concrete inputs *)

Section MoreWitnesses.

Ltac run := cbv -[IZR Rplus Rminus Rmult Rmax sqrt Ropp Rdiv Rinv].

Lemma extract_lorentz_patches_returns_iff_witness :
  shape Stub.patch = [1; 1; 6] /\
  (exists out, extract_lorentz_patches (Stub.layer 3) Stub.patch = Ok out) /\
  (forall out, extract_lorentz_patches (Stub.layer 3) Stub.patch = Ok out ->
     shape out = [1; 1; 6 - Z.to_nat (kernel_len (Stub.layer 3)) + 1]).
Proof.
  split; [reflexivity|].
  destruct (extract_lorentz_patches_returns_iff (host := Stub.host) (Stub.layer 3)
              Stub.patch 1 1 6 eq_refl) as (Hiff & Hshape & _).
  split; [|exact Hshape].
  apply (proj2 Hiff). cbn. repeat split; try lia.
Defined.

Lemma handed_vector_on_hyperboloid_witness :
  shape Stub.patch_on_manifold = [1; 1; 6] /\
  (0 <= kernel_len (Stub.layer 3))%Z /\
  (0 < in_channels (Stub.layer 3) - 1)%Z /\
  Z.of_nat 6 = (in_channels (Stub.layer 3) * kernel_len (Stub.layer 3))%Z /\
  0 < 1 /\
  (0 <= CustomLorentz.k (manifold (Stub.layer 3)))%R /\
  (forall q, q < 2 ->
     (Rmax (get Stub.patch_on_manifold [0%nat; 0%nat; q]) (sqrt 1) ^ 2
      - Rsum (tab 2 (fun c => get Stub.patch_on_manifold
                                  [0%nat; 0%nat; (2 + c * 2 + q)%nat] ^ 2)) = 1)%R) /\
  exists out,
    extract_lorentz_patches (Stub.layer 3) Stub.patch_on_manifold = Ok out /\
    (get out [0%nat; 0%nat; 0%nat] ^ 2
     - Rsum (tab (2 * 2) (fun r => get out [0%nat; 0%nat; S r] ^ 2)) = 1)%R.
Proof.
  assert (Hk : (0 <= CustomLorentz.k (manifold (Stub.layer 3)))%R) by (cbn; lra).
  assert (Hpt : forall q, q < 2 ->
     (Rmax (get Stub.patch_on_manifold [0%nat; 0%nat; q]) (sqrt 1) ^ 2
      - Rsum (tab 2 (fun c => get Stub.patch_on_manifold
                                  [0%nat; 0%nat; (2 + c * 2 + q)%nat] ^ 2)) = 1)%R).
  { intros q Hq. rewrite sqrt_1.
    destruct q as [|[|q]]; [| |lia].
    - change (Rmax 3 1 ^ 2 - (2 ^ 2 + (2 ^ 2 + 0)) = 1)%R.
      rewrite Rmax_left by lra. lra.
    - change (Rmax 1 1 ^ 2 - (0 ^ 2 + (0 ^ 2 + 0)) = 1)%R.
      rewrite Rmax_left by lra. lra. }
  split; [reflexivity|].
  split; [cbn; lia|].
  split; [cbn; lia|].
  split; [reflexivity|].
  split; [lia|].
  split; [exact Hk|].
  split; [exact Hpt|].
  apply (handed_vector_on_hyperboloid (host := Stub.host) (Stub.layer 3)
           Stub.patch_on_manifold 1 1 6 0 0 eq_refl);
    [cbn; lia | cbn; lia | reflexivity | lia | lia | exact Hk | exact Hpt].
Defined.

Lemma rescaled_time_dominates_taps_witness :
  shape Stub.patch = [1; 1; 6] /\
  (0 <= kernel_len (Stub.layer 3) <= Z.of_nat 6)%Z /\
  (0 < in_channels (Stub.layer 3) - 1)%Z /\
  ((Z.of_nat 6 - kernel_len (Stub.layer 3)) mod (in_channels (Stub.layer 3) - 1) = 0)%Z /\
  1 < Z.to_nat (kernel_len (Stub.layer 3)) /\
  (0 <= CustomLorentz.k (manifold (Stub.layer 3)))%R /\
  exists out,
    extract_lorentz_patches (Stub.layer 3) Stub.patch = Ok out /\
    (get Stub.patch [0%nat; 0%nat; 1%nat] <= get out [0%nat; 0%nat; 0%nat])%R.
Proof.
  assert (Hk : (0 <= CustomLorentz.k (manifold (Stub.layer 3)))%R) by (cbn; lra).
  assert (Hq : 1 < Z.to_nat (kernel_len (Stub.layer 3))) by (cbn; lia).
  split; [reflexivity|].
  split; [cbn; lia|].
  split; [cbn; lia|].
  split; [reflexivity|].
  split; [exact Hq|].
  split; [exact Hk|].
  destruct (rescaled_time_dominates_taps (host := Stub.host) (Stub.layer 3) Stub.patch
              1 1 6 0 0 1 eq_refl) as (out & Hout & _ & Hle);
    [cbn; lia | cbn; lia | reflexivity | lia | lia | exact Hq | exact Hk |].
  exists out. split; [exact Hout | exact Hle].
Defined.

Lemma spatial_entries_permuted_witness :
  shape Stub.patch = [1; 1; 6] /\
  (0 <= kernel_len (Stub.layer 3) <= Z.of_nat 6)%Z /\
  (0 < in_channels (Stub.layer 3) - 1)%Z /\
  ((Z.of_nat 6 - kernel_len (Stub.layer 3)) mod (in_channels (Stub.layer 3) - 1) = 0)%Z /\
  0 < 1 /\
  exists out,
    extract_lorentz_patches (Stub.layer 3) Stub.patch = Ok out /\
    Permutation
      (tab (6 - Z.to_nat (kernel_len (Stub.layer 3))) (fun r => get out [0; 0; 1 + r]))
      (tab (6 - Z.to_nat (kernel_len (Stub.layer 3)))
           (fun r => get Stub.patch [0; 0; Z.to_nat (kernel_len (Stub.layer 3)) + r])).
Proof.
  split; [reflexivity|].
  split; [cbn; lia|].
  split; [cbn; lia|].
  split; [reflexivity|].
  split; [lia|].
  apply (spatial_entries_permuted (host := Stub.host) (Stub.layer 3) Stub.patch
           1 1 6 0 0 eq_refl);
    [cbn; lia | cbn; lia | reflexivity | lia | lia].
Defined.

Lemma pointwise_kernel_only_clamps_witness :
  shape Stub.patch_1x1 = [1; 1; 3] /\
  kernel_len Stub.layer_1x1 = 1%Z /\
  (0 < in_channels Stub.layer_1x1 - 1)%Z /\
  Z.of_nat 3 = in_channels Stub.layer_1x1 /\
  0 < 1 /\
  (0 <= CustomLorentz.k (manifold Stub.layer_1x1))%R /\
  exists out,
    extract_lorentz_patches Stub.layer_1x1 Stub.patch_1x1 = Ok out /\
    shape out = shape Stub.patch_1x1 /\
    get out [0; 0; 0] = Rmax (get Stub.patch_1x1 [0; 0; 0]) (sqrt 1) /\
    get out [0; 0; 2] = get Stub.patch_1x1 [0; 0; 2].
Proof.
  assert (Hk : (0 <= CustomLorentz.k (manifold Stub.layer_1x1))%R) by (cbn; lra).
  split; [reflexivity|].
  split; [reflexivity|].
  split; [cbn; lia|].
  split; [reflexivity|].
  split; [lia|].
  split; [exact Hk|].
  destruct (pointwise_kernel_only_clamps (host := Stub.host) Stub.layer_1x1 Stub.patch_1x1
              1 1 3 0 0 eq_refl eq_refl) as (out & Hout & Hs & H0 & Hr);
    [cbn; lia | reflexivity | lia | lia | exact Hk |].
  exists out. split; [exact Hout|]. split; [exact Hs|]. split; [exact H0|].
  apply Hr. lia.
Defined.

Lemma forward_returns_only_on_witness :
  exists out tr,
    forward (Stub.layer 3) Stub.image = Ok (out, tr) /\
    length (shape out) = 5 /\
    tr = [("final"%string, shape out)] /\
    (2 <= in_channels (Stub.layer 3))%Z.
Proof.
  destruct (forward_layer_image 3 (or_introl eq_refl)) as (out & Hf).
  exists out, [("final"%string, [1; 8; 2; 1; 5])].
  destruct (forward_returns_only_on (host := Stub.host) (Stub.layer 3) Stub.image out _ Hf)
    as (_ & Hc & _ & _ & Hlen & Htr).
  split; [exact Hf|]. split; [exact Hlen|]. split; [exact Htr | exact Hc].
Defined.

Lemma forward_output_is_not_an_input_witness :
  exists out tr,
    forward (Stub.layer 3) Stub.image = Ok (out, tr) /\
    raises (forward (Stub.layer 3) out).
Proof.
  destruct (forward_layer_image 3 (or_introl eq_refl)) as (out & Hf).
  exists out, [("final"%string, [1; 8; 2; 1; 5])].
  split; [exact Hf|].
  exact (forward_output_is_not_an_input (host := Stub.host) (Stub.layer 3) (Stub.layer 3)
           Stub.image out _ Hf).
Defined.



Lemma handed_width_is_lin_features_witness :
  init (host := Stub.host) (Stub.args 1 8 3 5 (Pair 1 2)) [3; 4] = Ok (Stub.layer 3, []) /\
  shape Stub.image = [1; 2; 2; 3] /\
  Z.of_nat 3 = in_channels (Stub.layer 3) /\
  (exists ppk, patches_pre_kernel (Stub.layer 3) Stub.image = Ok ppk) /\
  (forall ppk, patches_pre_kernel (Stub.layer 3) Stub.image = Ok ppk ->
     shape ppk = [1; Z.to_nat (height_out (Stub.layer 3) 2)
                     * Z.to_nat (width_out (Stub.layer 3) 2);
                  Z.to_nat (lin_features (Stub.layer 3))] /\
     (0 < lin_features (Stub.layer 3))%Z).
Proof.
  split; [reflexivity|]. split; [reflexivity|]. split; [reflexivity|].
  destruct (handed_width_is_lin_features (host := Stub.host)
              (Stub.args 1 8 3 5 (Pair 1 2)) [3; 4] [] (Stub.layer 3) Stub.image
              1 2 2 3 eq_refl eq_refl eq_refl) as (Hiff & Hshape).
  split; [|exact Hshape].
  apply (proj2 Hiff). split; [reflexivity | lia].
Defined.

Lemma init_index_table_witness :
  init (host := Stub.host) (Stub.args 1 8 3 5 (Pair 1 2)) [3; 4] = Ok (Stub.layer 3, []) /\
  inds (Stub.layer 3) = Some (@make_d4_z2_indices Stub.host 2%Z).
Proof.
  split; [reflexivity|].
  exact (proj1 (proj2 (proj2 (init_index_table (host := Stub.host)
           (Stub.args 1 8 3 5 (Pair 1 2)) [3; 4] [] (Stub.layer 3) eq_refl))) eq_refl).
Defined.

Lemma init_errors_witness :
  fan_in (Stub.args 2 3 1 5 (Pair 1 2)) = 0%Z /\
  init (host := Stub.host) (Stub.args 2 3 1 5 (Pair 1 2)) [3; 4] = Raise ZeroDivisionError /\
  (fan_in (Stub.args 1 8 0 5 (Pair 1 2)) < 0)%Z /\
  init (host := Stub.host) (Stub.args 1 8 0 5 (Pair 1 2)) [3; 4] = Raise ValueError.
Proof.
  assert (H0 : fan_in (Stub.args 2 3 1 5 (Pair 1 2)) = 0%Z) by reflexivity.
  assert (Hn : (fan_in (Stub.args 1 8 0 5 (Pair 1 2)) < 0)%Z) by reflexivity.
  split; [exact H0|].
  split; [exact (proj1 (init_errors (host := Stub.host)
                          (Stub.args 2 3 1 5 (Pair 1 2)) [3; 4]) H0)|].
  split; [exact Hn|].
  exact (proj1 (proj2 (init_errors (host := Stub.host)
                         (Stub.args 1 8 0 5 (Pair 1 2)) [3; 4])) Hn).
Defined.

Lemma forward_ignores_input_stabilizer_witness :
  exists self2,
    init (host := Stub.host) (Stub.args 1 8 3 5 (Pair 1 2)) [3; 4] = Ok (Stub.layer 3, []) /\
    init (host := Stub.host) (Stub.args 8 8 3 5 (Pair 1 2)) [3; 4] = Ok (self2, []) /\
    input_stabilizer_size self2 = 8%Z /\
    forward (Stub.layer 3) Stub.image = forward self2 Stub.image.
Proof.
  eexists.
  split; [reflexivity|]. split; [reflexivity|]. split; [reflexivity|].
  exact (proj2 (forward_ignores_input_stabilizer (host := Stub.host)
                  (Stub.args 1 8 3 5 (Pair 1 2)) 8 [3; 4] [] [] (Stub.layer 3) _
                  Stub.image eq_refl eq_refl)).
Defined.

Lemma extract_patches_returns_iff_witness :
  init (host := Stub.host) (Stub.args 1 8 3 5 (Pair 1 2)) [3; 4] = Ok (Stub.layer 3, []) /\
  shape Stub.image = [1; 2; 2; 3] /\
  Forall (fun z => (Z.abs z < 2 ^ 31)%Z)
         [1; 2; 1; 1; 0; 0; 1; 1; Z.of_nat 2; Z.of_nat 2]%Z /\
  (exists patches, extract_patches (Stub.layer 3) Stub.image = Ok patches) /\
  (forall patches, extract_patches (Stub.layer 3) Stub.image = Ok patches ->
     shape patches =
     [1; Z.to_nat (height_out (Stub.layer 3) 2) * Z.to_nat (width_out (Stub.layer 3) 2);
      3 * (Z.to_nat 1 * Z.to_nat 2)]).
Proof.
  assert (Hb : Forall (fun z => (Z.abs z < 2 ^ 31)%Z)
                      [1; 2; 1; 1; 0; 0; 1; 1; Z.of_nat 2; Z.of_nat 2]%Z)
    by (repeat constructor).
  split; [reflexivity|]. split; [reflexivity|]. split; [exact Hb|].
  pose proof (extract_patches_returns_iff (host := Stub.host)
                (Stub.args 1 8 3 5 (Pair 1 2)) [3; 4] [] (Stub.layer 3) Stub.image
                1 2 2 3 eq_refl eq_refl) as H.
  cbn [Stub.layer kernel_size dilation padding stride] in H.
  specialize (H Hb).
  destruct H as (Hiff & Hshape & _).
  split; [|exact Hshape].
  apply (proj2 Hiff). repeat split; lia.
Defined.

Lemma unit_stride_output_size_witness :
  stride (Stub.layer 3) = (1, 1)%Z /\
  small_h (Stub.layer 3) 2 /\
  small_w (Stub.layer 3) 2 /\
  h_out (Stub.layer 3) 2 = Ok 2%Z /\
  w_out (Stub.layer 3) 2 = Ok 1%Z.
Proof.
  assert (H3 : small_h (Stub.layer 3) 2) by (split; reflexivity).
  assert (H4 : small_w (Stub.layer 3) 2) by (split; reflexivity).
  split; [reflexivity|]. split; [exact H3|]. split; [exact H4|].
  destruct (unit_stride_output_size (host := Stub.host) (Stub.layer 3) 2 2 eq_refl H3 H4)
    as (Hh & Hw & _).
  split; [exact Hh | exact Hw].
Defined.

Lemma presets_construct_witness :
  0 < 1 /\
  LorentzP4MConvZ2 (host := Stub.host) 1
    (mkKeywords None None (Some Stub.unit_manifold) (Some 3%Z) (Some 5%Z)
                (Some (Int 3)) None None None None None []) [3; 4] = TypeError /\
  exists self g',
    LorentzP4MConvZ2 (host := Stub.host) 0
      (mkKeywords None None (Some Stub.unit_manifold) (Some 3%Z) (Some 5%Z)
                  (Some (Int 3)) None None None None None []) [3; 4]
    = Returned (self, g').
Proof.
  assert (H1 : 0 < 1) by lia.
  split; [exact H1|].
  split.
  - exact (proj1 (proj1 (presets_construct (host := Stub.host) 1
             (mkKeywords None None (Some Stub.unit_manifold) (Some 3%Z) (Some 5%Z)
                         (Some (Int 3)) None None None None None []) [3; 4]) H1)).
  - exact (proj1 (proj2 (proj2 (proj2 (proj2 (presets_construct (host := Stub.host) 0
             (mkKeywords None None (Some Stub.unit_manifold) (Some 3%Z) (Some 5%Z)
                         (Some (Int 3)) None None None None None []) [3; 4]))))
             Stub.unit_manifold 3%Z 5%Z (Int 3)
             eq_refl eq_refl eq_refl eq_refl eq_refl eq_refl eq_refl eq_refl eq_refl)).
Defined.

End MoreWitnesses.
